(** * yallah.py: resolving the JavaScript bundles of a web portal

    A shallow embedding of [src/yallah.py] and the properties of its
    specification.  Python [str] values are sequences of Unicode code
    points; the functions of the standard library and of [requests] that
    the script calls are modelled next to the functions of the script. *)

From Stdlib Require Import List NArith ZArith String Ascii Bool Lia.
From Stdlib Require Import DecimalString.
Import ListNotations.

Set Warnings "-register-all".

Local Open Scope N_scope.
Local Open Scope list_scope.

(** ** Python strings *)

(** A [str] is a list of code points. *)
Definition str := list N.

(** The [str] of an ASCII literal. *)
Definition u (s : string) : str :=
  map N_of_ascii (list_ascii_of_string s).

(** The two quote characters. *)
Definition dq : N := 34.
Definition sq : N := 39.

(** [s1 == s2] on [str]. *)
Fixpoint str_eqb (a b : str) : bool :=
  match a, b with
  | [], [] => true
  | x :: a', y :: b' => (x =? y) && str_eqb a' b'
  | _, _ => false
  end.

(** [c.lower()] on one code point.  Exact on ASCII and on U+212A (KELVIN
    SIGN, the one code point outside ASCII whose lowercase is an ASCII
    letter); on every other code point the lowercase that Python computes
    stays outside ASCII, as the code point does here, so a comparison of a
    lowered string with an ASCII keyword is decided as in Python. *)
Definition lower_cp (c : N) : N :=
  if (65 <=? c) && (c <=? 90) then c + 32
  else if c =? 8490 then 107
  else c.

(** [s.lower()]. *)
Definition lower (s : str) : str := map lower_cp s.

(** [s.split(sep)] for a separator of one code point: never an empty list.
    The third case of the inner match cannot occur. *)
Fixpoint split (sep : N) (s : str) : list str :=
  match s with
  | [] => [[]]
  | c :: r =>
      if c =? sep then [] :: split sep r
      else match split sep r with
           | h :: t => (c :: h) :: t
           | [] => [[c]]
           end
  end.

(** ** [determine_env_type] (yallah.py, lines 14-26) *)

Definition determine_env_type (hostname : str) : str :=
  let parts := split 46 hostname in
  match parts with
  | [] => u "prod"
  | p0 :: rest =>
      if str_eqb (lower p0) (u "sandbox") then u "prod"
      else match rest with
           | p1 :: _ =>
               if str_eqb (lower p1) (u "dev")
                  || str_eqb (lower p1) (u "ondemand")
               then u "dev"
               else u "prod"
           | [] => u "prod"
           end
  end.

(** ** Python values, exceptions and effects *)

(** The values that [json] produces.  A float keeps the text of its
    literal ([NaN], [Infinity] and [-Infinity] included); a dict is the list
    of its items in insertion order, without repeated keys. *)
Inductive pyval :=
| VNone
| VBool (b : bool)
| VInt (z : Z)
| VFloat (lit : str)
| VStr (s : str)
| VList (l : list pyval)
| VDict (d : list (str * pyval)).

(** [SystemExit] is not an [Exception]; every other exception of the model
    is, and carries its class name and [str(exc)]. *)
Inductive exn :=
| SystemExit (code : Z)
| Exception (cls : str) (msg : str).

Inductive result (A : Type) :=
| Ok (a : A)
| Raise (e : exn).
Arguments Ok {A} a.
Arguments Raise {A} e.

Definition rbind {A B} (r : result A) (f : A -> result B) : result B :=
  match r with
  | Ok a => f a
  | Raise e => Raise e
  end.

(** [try: body / except Exception as exc: handler]. *)
Definition try_except {A} (body : result A) (handler : exn -> result A)
  : result A :=
  match body with
  | Raise (Exception cls msg) => handler (Exception cls msg)
  | r => r
  end.

(** [str(exc)]. *)
Definition exc_str (e : exn) : str :=
  match e with
  | SystemExit code => []
  | Exception _ msg => msg
  end.

(** What the process does that can be seen from outside: a GET request
    with its timeout, a [print] to standard output, a [print] to standard
    error.  A printed value is recorded without the newline that [print]
    adds. *)
Inductive event :=
| EGet (url : str) (timeout : Z)
| EOut (line : str)
| EErr (line : str).

(** A computation: its events, then its value or the exception it raised. *)
Definition prog (A : Type) : Type := list event * result A.

Definition ret {A} (a : A) : prog A := ([], Ok a).

Definition bind {A B} (m : prog A) (f : A -> prog B) : prog B :=
  match m with
  | (l, Ok a) => let (l', r) := f a in (l ++ l', r)
  | (l, Raise e) => (l, Raise e)
  end.

Definition lift {A} (r : result A) : prog A := ([], r).

Definition try_prog {A} (body : prog A) (handler : exn -> prog A) : prog A :=
  match body with
  | (l, Raise (Exception cls msg)) =>
      let (l', r) := handler (Exception cls msg) in (l ++ l', r)
  | m => m
  end.

(** [print(..., file=sys.stderr)]: standard error encodes with
    [backslashreplace], so that no text makes it raise. *)
Definition print_stderr (s : str) : prog unit := ([EErr s], Ok tt).
Definition sys_exit {A} (code : Z) : prog A := ([], Raise (SystemExit code)).

Declare Scope py_scope.
Delimit Scope py_scope with py.
Notation "x <- m ;; k" := (bind m (fun x => k))
  (at level 61, m at next level, right associativity) : py_scope.
Notation "m ;;; k" := (bind m (fun _ => k))
  (at level 61, right associativity) : py_scope.
Notation "x <~ r ;; k" := (rbind r (fun x => k))
  (at level 61, r at next level, right associativity) : py_scope.

(** How the process ends: [sys.exit(code)] or falling off the end of
    [main] (status 0), or an exception nobody caught (the interpreter
    writes a traceback to standard error and the status is 1). *)
Inductive outcome :=
| Exited (code : Z)
| Traceback (e : exn).

Definition exit_status (o : outcome) : Z :=
  match o with
  | Exited code => code
  | Traceback _ => 1%Z
  end.

Definition run (m : prog unit) : list event * outcome :=
  match m with
  | (l, Ok _) => (l, Exited 0)
  | (l, Raise (SystemExit code)) => (l, Exited code)
  | (l, Raise e) => (l, Traceback e)
  end.

(** How the process ends when the exception [e] goes up from [main]. *)
Definition uncaught (e : exn) : outcome :=
  match e with
  | SystemExit code => Exited code
  | _ => Traceback e
  end.

(** *** Dicts *)

Fixpoint dict_get (d : list (str * pyval)) (k : str) : option pyval :=
  match d with
  | [] => None
  | (k', v) :: d' => if str_eqb k' k then Some v else dict_get d' k
  end.

(** [d[k] = v]: the value of a key already there is replaced in place. *)
Fixpoint dict_set (d : list (str * pyval)) (k : str) (v : pyval)
  : list (str * pyval) :=
  match d with
  | [] => [(k, v)]
  | (k', v') :: d' =>
      if str_eqb k' k then (k', v) :: d' else (k', v') :: dict_set d' k v
  end.

(** ** [re.search] for patterns that are sequences of characters and
    repeated classes *)

(** A character class as the pattern writes it: the listed characters, or
    with [^] all the others.  (The classes of the script list no letters,
    so [re.IGNORECASE] does not change them.) *)
Inductive cls :=
| CSet (negated : bool) (chars : list N).

Definition in_cls (k : cls) (x : N) : bool :=
  match k with
  | CSet negated chars => xorb negated (existsb (N.eqb x) chars)
  end.

(** The elements of such a pattern. *)
Inductive item :=
| Lit (c : N)        (* a literal character *)
| Cls (k : cls)      (* [...]: one character of a class *)
| Plus (k : cls)     (* [...]+: greedy *)
| Group (k : cls).   (* ([...]+): greedy, captured *)

(** The lowercase that [re] computes for one code point: the simple case
    mapping.  U+0130 and U+212A are the code points outside ASCII that it
    sends to an ASCII letter. *)
Definition re_lower (x : N) : N :=
  if (65 <=? x) && (x <=? 90) then x + 32
  else if x =? 304 then 105
  else if x =? 8490 then 107
  else x.

(** A literal [c] of a pattern compiled with [re.IGNORECASE] (lowercase
    already) against the code point [x]: [x] lowers to [c], or is one of
    the code points that [re] treats as equal to [c] because their
    uppercase is the same (U+0131 for [i], U+017F for [s]). *)
Definition ci_match (c x : N) : bool :=
  (re_lower x =? c)
  || ((c =? 105) && (x =? 305))
  || ((c =? 115) && (x =? 383)).

(** [p+] then the continuation [k], the longest repetition first; [k] gets
    the text that the repetition took and the rest of the subject. *)
Fixpoint greedy {A} (p : N -> bool) (k : str -> str -> option A) (s : str)
  : option A :=
  match s with
  | [] => None
  | c :: s' =>
      if p c then
        match greedy p (fun w => k (c :: w)) s' with
        | Some r => Some r
        | None => k [c] s'
        end
      else None
  end.

(** A match of the pattern at the start of [s]: the groups it captured. *)
Fixpoint match_here (pat : list item) (s : str) : option (list str) :=
  match pat with
  | [] => Some []
  | Lit c :: pat' =>
      match s with
      | x :: s' => if ci_match c x then match_here pat' s' else None
      | [] => None
      end
  | Cls k :: pat' =>
      match s with
      | x :: s' => if in_cls k x then match_here pat' s' else None
      | [] => None
      end
  | Plus k :: pat' =>
      greedy (in_cls k) (fun _ rest => match_here pat' rest) s
  | Group k :: pat' =>
      greedy (in_cls k)
             (fun w rest => option_map (cons w) (match_here pat' rest)) s
  end.

(** [re.search(pat, s, re.IGNORECASE)]: the match at the leftmost position
    that has one. *)
Fixpoint re_search (pat : list item) (s : str) : option (list str) :=
  match match_here pat s with
  | Some m => Some m
  | None =>
      match s with
      | [] => None
      | _ :: s' => re_search pat s'
      end
  end.

(** [m.group(n)] for [n >= 1]. *)
Definition group (m : list str) (n : nat) : str := nth (pred n) m [].

Definition lits (s : string) : list item := map Lit (u s).

(** The classes of the pattern. *)
Definition cls_not_gt : cls := CSet true [62].
Definition cls_quote : cls := CSet false [dq; sq].
Definition cls_not_dq_hash : cls := CSet true [dq; 35].
Definition cls_not_quote : cls := CSet true [dq; sq].

(** The pattern of [parse_bootstrap_config] (yallah.py, line 32).  With Q
    for the class of the two quote characters, D for the double quote and
    S for the single quote it reads
      <script[^>]+id=Qcl-bootstrapQ[^>]+src=Q([^D#]+)#([^DS]+)Q *)
Definition bootstrap_re : list item :=
  lits "<script" ++ [Plus cls_not_gt]
  ++ lits "id=" ++ [Cls cls_quote] ++ lits "cl-bootstrap" ++ [Cls cls_quote]
  ++ [Plus cls_not_gt]
  ++ lits "src="
  ++ [Cls cls_quote; Group cls_not_dq_hash; Lit 35; Group cls_not_quote;
      Cls cls_quote].

(** ** [base64.b64decode] and [bytes.decode] *)

Definition bytes := list N.

Definition mk_exn (cls msg : string) : exn := Exception (u cls) (u msg).

(** The value of a character of the base64 alphabet. *)
Definition b64_value (ch : N) : option N :=
  if (65 <=? ch) && (ch <=? 90) then Some (ch - 65)
  else if (97 <=? ch) && (ch <=? 122) then Some (ch - 71)
  else if (48 <=? ch) && (ch <=? 57) then Some (ch + 4)
  else if ch =? 43 then Some 62
  else if ch =? 47 then Some 63
  else None.

(** The loop of [binascii.a2b_base64] without [strict_mode] (CPython 3.11
    and later): characters outside the alphabet are skipped, a pad that
    completes a quad ends the decoding, and data that stops inside a quad
    is an error.  [out] is written as unsigned chars. *)
Fixpoint a2b_base64_loop (s : list N) (quad_pos leftchar pads : N)
  (out : bytes) : result bytes :=
  match s with
  | [] =>
      if quad_pos =? 0 then Ok out
      else if quad_pos =? 1
      then Raise (mk_exn "binascii.Error" "Invalid base64-encoded string")
      else Raise (mk_exn "binascii.Error" "Incorrect padding")
  | this_ch :: s' =>
      if this_ch =? 61 then
        if 2 <=? quad_pos then
          if 4 <=? quad_pos + (pads + 1) then Ok out
          else a2b_base64_loop s' quad_pos leftchar (pads + 1) out
        else a2b_base64_loop s' quad_pos leftchar pads out
      else
        match b64_value this_ch with
        | None => a2b_base64_loop s' quad_pos leftchar pads out
        | Some v =>
            if quad_pos =? 0 then a2b_base64_loop s' 1 v 0 out
            else if quad_pos =? 1 then
              a2b_base64_loop s' 2 (N.land v 15) 0
                (out ++ [N.lor (N.shiftl leftchar 2) (N.shiftr v 4) mod 256])
            else if quad_pos =? 2 then
              a2b_base64_loop s' 3 (N.land v 3) 0
                (out ++ [N.lor (N.shiftl leftchar 4) (N.shiftr v 2) mod 256])
            else
              a2b_base64_loop s' 0 0 0
                (out ++ [N.lor (N.shiftl leftchar 6) v mod 256])
        end
  end.

(** [base64.b64decode(s)] for a [str]: the string is first encoded as
    ASCII, which fails on any other character. *)
Definition b64decode (s : str) : result bytes :=
  if forallb (fun c => c <? 128) s then a2b_base64_loop s 0 0 0 []
  else Raise (mk_exn "ValueError"
                "string argument should contain only ASCII characters").

Definition is_cont (b : N) : bool := (128 <=? b) && (b <=? 191).

Definition utf8_error : exn :=
  mk_exn "UnicodeDecodeError" "'utf-8' codec can't decode bytes".

(** [b.decode('utf-8')]: strict, so overlong forms, surrogates, code
    points above U+10FFFF and truncated sequences are errors. *)
Fixpoint decode_utf8 (b : bytes) : result str :=
  match b with
  | [] => Ok []
  | b0 :: r =>
      if b0 <? 128 then rbind (decode_utf8 r) (fun t => Ok (b0 :: t))
      else if (194 <=? b0) && (b0 <=? 223) then
        match r with
        | b1 :: r1 =>
            if is_cont b1 then
              rbind (decode_utf8 r1) (fun t =>
                Ok (((b0 - 192) * 64 + (b1 - 128)) :: t))
            else Raise utf8_error
        | _ => Raise utf8_error
        end
      else if (224 <=? b0) && (b0 <=? 239) then
        match r with
        | b1 :: b2 :: r2 =>
            if is_cont b1 && is_cont b2
               && (negb (b0 =? 224) || (160 <=? b1))
               && (negb (b0 =? 237) || (b1 <=? 159))
            then
              rbind (decode_utf8 r2) (fun t =>
                Ok (((b0 - 224) * 4096 + (b1 - 128) * 64 + (b2 - 128)) :: t))
            else Raise utf8_error
        | _ => Raise utf8_error
        end
      else if (240 <=? b0) && (b0 <=? 244) then
        match r with
        | b1 :: b2 :: b3 :: r3 =>
            if is_cont b1 && is_cont b2 && is_cont b3
               && (negb (b0 =? 240) || (144 <=? b1))
               && (negb (b0 =? 244) || (b1 <=? 143))
            then
              rbind (decode_utf8 r3) (fun t =>
                Ok (((b0 - 240) * 262144 + (b1 - 128) * 4096
                     + (b2 - 128) * 64 + (b3 - 128)) :: t))
            else Raise utf8_error
        | _ => Raise utf8_error
        end
      else Raise utf8_error
  end.

(** ** [json.loads] *)

Definition is_ws (c : N) : bool :=
  (c =? 32) || (c =? 9) || (c =? 10) || (c =? 13).

Fixpoint skip_ws (s : str) : str :=
  match s with
  | c :: r => if is_ws c then skip_ws r else s
  | [] => []
  end.

Definition is_digit (c : N) : bool := (48 <=? c) && (c <=? 57).

Definition hex_value (c : N) : option N :=
  if is_digit c then Some (c - 48)
  else if (97 <=? c) && (c <=? 102) then Some (c - 87)
  else if (65 <=? c) && (c <=? 70) then Some (c - 55)
  else None.

(** Four hexadecimal digits. *)
Definition hex4 (a b c d : N) : option N :=
  match hex_value a, hex_value b, hex_value c, hex_value d with
  | Some x, Some y, Some z, Some w => Some (((x * 16 + y) * 16 + z) * 16 + w)
  | _, _, _, _ => None
  end.

(** A character after a backslash that is not [u]. *)
Definition simple_escape (c : N) : option N :=
  if (c =? 34) || (c =? 92) || (c =? 47) then Some c
  else if c =? 98 then Some 8
  else if c =? 102 then Some 12
  else if c =? 110 then Some 10
  else if c =? 114 then Some 13
  else if c =? 116 then Some 9
  else None.

(** [scanstring], strict, from the character after the opening quote: the
    string and the text after its closing quote.  An escaped high
    surrogate followed by an escaped low surrogate is one code point. *)
Fixpoint scanstring (s : str) : option (str * str) :=
  match s with
  | [] => None
  | c :: r =>
      if c =? 34 then Some ([], r)
      else if c =? 92 then
        match r with
        | [] => None
        | e :: r1 =>
            if e =? 117 then
              match r1 with
              | h1 :: h2 :: h3 :: h4 :: r2 =>
                  match hex4 h1 h2 h3 h4 with
                  | None => None
                  | Some c1 =>
                      let single :=
                        option_map (fun '(t, rest) => (c1 :: t, rest))
                                   (scanstring r2) in
                      if (55296 <=? c1) && (c1 <=? 56319) then
                        match r2 with
                        | 92 :: 117 :: k1 :: k2 :: k3 :: k4 :: r3 =>
                            match hex4 k1 k2 k3 k4 with
                            | None => None
                            | Some c2 =>
                                if (56320 <=? c2) && (c2 <=? 57343) then
                                  option_map
                                    (fun '(t, rest) =>
                                       (65536 + (c1 - 55296) * 1024
                                        + (c2 - 56320) :: t, rest))
                                    (scanstring r3)
                                else single
                            end
                        | _ => single
                        end
                      else single
                  end
              | _ => None
              end
            else
              match simple_escape e with
              | None => None
              | Some c' =>
                  option_map (fun '(t, rest) => (c' :: t, rest))
                             (scanstring r1)
              end
        end
      else if c <=? 31 then None
      else option_map (fun '(t, rest) => (c :: t, rest)) (scanstring r)
  end.

(** The longest prefix of digits and the rest. *)
Fixpoint span_digits (s : str) : str * str :=
  match s with
  | c :: r =>
      if is_digit c then let (d, rest) := span_digits r in (c :: d, rest)
      else ([], s)
  | [] => ([], [])
  end.

Definition digits_value (d : str) : Z :=
  fold_left (fun acc c => (acc * 10 + Z.of_N (c - 48))%Z) d 0%Z.

(** The integer part of a number: [0], or a digit from 1 to 9 and more
    digits. *)
Definition scan_int (s : str) : option (str * str) :=
  match s with
  | c :: r =>
      if c =? 48 then Some ([c], r)
      else if is_digit c then
        let (d, rest) := span_digits r in Some (c :: d, rest)
      else None
  | [] => None
  end.

(** [.digits], when a digit follows the dot. *)
Definition scan_frac (s : str) : str * str :=
  match s with
  | 46 :: c :: r =>
      if is_digit c then
        let (d, rest) := span_digits r in (46 :: c :: d, rest)
      else ([], s)
  | _ => ([], s)
  end.

(** [e], an optional sign and digits, when there is a digit. *)
Definition scan_exp (s : str) : str * str :=
  match s with
  | e :: r =>
      if (e =? 101) || (e =? 69) then
        let '(sign, r1) :=
          match r with
          | c :: r' => if (c =? 45) || (c =? 43) then ([c], r') else ([], r)
          | [] => ([], r)
          end in
        match span_digits r1 with
        | ([], _) => ([], s)
        | (d, rest) => (e :: sign ++ d, rest)
        end
      else ([], s)
  | [] => ([], s)
  end.

(** A number: an [int] when it has neither fraction nor exponent, a
    [float] otherwise. *)
Definition scan_number (s : str) : option (pyval * str) :=
  let '(neg, s1) :=
    match s with
    | 45 :: r => (true, r)
    | _ => (false, s)
    end in
  match scan_int s1 with
  | None => None
  | Some (int_part, s2) =>
      let (frac, s3) := scan_frac s2 in
      let (exp, s4) := scan_exp s3 in
      let sign := if neg then [45] else [] in
      match frac, exp with
      | [], [] =>
          let z := digits_value int_part in
          Some (VInt (if neg then (- z)%Z else z), s4)
      | _, _ => Some (VFloat (sign ++ int_part ++ frac ++ exp), s4)
      end
  end.

(** [s] starts with the literal [w]: the rest of [s]. *)
Fixpoint strip_prefix (w s : str) : option str :=
  match w, s with
  | [], _ => Some s
  | x :: w', y :: s' => if x =? y then strip_prefix w' s' else None
  | _ :: _, [] => None
  end.

(** The scanner: one JSON value at the start of [s] and the text after
    it.  [fuel] bounds the depth of the calls; [json_loads] gives enough
    of it for every text (the recursion limit of the interpreter and its
    limit on the digits of an [int] are not modelled). *)
Fixpoint scan_once (fuel : nat) (s : str) : option (pyval * str) :=
  match fuel with
  | O => None
  | S n =>
      match s with
      | [] => None
      | c :: r =>
          if c =? 34 then
            option_map (fun '(t, rest) => (VStr t, rest)) (scanstring r)
          else if c =? 123 then
            match skip_ws r with
            | 125 :: r1 => Some (VDict [], r1)
            | r1 => parse_members n r1 []
            end
          else if c =? 91 then
            match skip_ws r with
            | 93 :: r1 => Some (VList [], r1)
            | r1 => parse_elements n r1 []
            end
          else
            match strip_prefix (u "null") s with
            | Some rest => Some (VNone, rest)
            | None =>
            match strip_prefix (u "true") s with
            | Some rest => Some (VBool true, rest)
            | None =>
            match strip_prefix (u "false") s with
            | Some rest => Some (VBool false, rest)
            | None =>
            match strip_prefix (u "NaN") s with
            | Some rest => Some (VFloat (u "NaN"), rest)
            | None =>
            match strip_prefix (u "Infinity") s with
            | Some rest => Some (VFloat (u "Infinity"), rest)
            | None =>
            match strip_prefix (u "-Infinity") s with
            | Some rest => Some (VFloat (u "-Infinity"), rest)
            | None => scan_number s
            end end end end end end
      end
  end

(** The members of an object from the first key on; [d] holds the members
    read so far. *)
with parse_members (fuel : nat) (s : str) (d : list (str * pyval))
  : option (pyval * str) :=
  match fuel with
  | O => None
  | S n =>
      match s with
      | 34 :: r =>
          match scanstring r with
          | None => None
          | Some (key, r1) =>
              match skip_ws r1 with
              | 58 :: r2 =>
                  match scan_once n (skip_ws r2) with
                  | None => None
                  | Some (val, r3) =>
                      let d' := dict_set d key val in
                      match skip_ws r3 with
                      | 125 :: r4 => Some (VDict d', r4)
                      | 44 :: r4 => parse_members n (skip_ws r4) d'
                      | _ => None
                      end
                  end
              | _ => None
              end
          end
      | _ => None
      end
  end

(** The elements of an array from the first one on. *)
with parse_elements (fuel : nat) (s : str) (l : list pyval)
  : option (pyval * str) :=
  match fuel with
  | O => None
  | S n =>
      match scan_once n s with
      | None => None
      | Some (val, r1) =>
          let l' := l ++ [val] in
          match skip_ws r1 with
          | 93 :: r2 => Some (VList l', r2)
          | 44 :: r2 => parse_elements n (skip_ws r2) l'
          | _ => None
          end
      end
  end.

Definition json_error (msg : string) : exn :=
  mk_exn "json.JSONDecodeError" msg.

(** [json.loads(s)] for a [str], by the grammar that the decoder reads.
    The two limits of the interpreter are left out, its recursion limit and
    its limit on the digits of an [int] (4300 unless configured): a text
    that [json_loads] refuses, [json.loads] refuses on every interpreter;
    for a text that [json_loads] accepts, [json.loads] gives the same value
    or, beyond one of the two limits, raises a [RecursionError] or a
    [ValueError]. *)
Definition json_loads (s : str) : result pyval :=
  if match s with c :: _ => c =? 65279 | [] => false end
  then Raise (json_error "Unexpected UTF-8 BOM")
  else
    match scan_once (2 * List.length s + 2)%nat (skip_ws s) with
    | None => Raise (json_error "Expecting value")
    | Some (v, rest) =>
        match skip_ws rest with
        | [] => Ok v
        | _ :: _ => Raise (json_error "Extra data")
        end
    end.

(** ** [parse_bootstrap_config] (yallah.py, lines 29-44) *)

Definition parse_bootstrap_config (page : str) : result pyval :=
  match re_search bootstrap_re page with
  | None => Ok VNone
  | Some m =>
      let encoded_fragment := group m 2 in
      try_except
        (rbind (b64decode encoded_fragment) (fun raw =>
         rbind (decode_utf8 raw) (fun decoded =>
         rbind (json_loads decoded) (fun config =>
         Ok config))))
        (fun _ => Ok VNone)
  end.

(** ** What the script takes from its platform *)

(** The response object of [requests]: [resp.json()] is what the library
    makes of the body, a value or an exception. *)
Record Response := {
  status_code : Z;
  reason : str;
  url : str;
  text : str;
  json : result pyval
}.

(** The parts of the platform that the model does not define: the
    arithmetic of floats (given on the literals), [repr], [urlparse] (the
    [scheme] and the [hostname] of its result, or the exception it raises),
    the network behind [requests.get], and standard output:
    [stdout_write line] is what [sys.stdout] makes of a line that [print]
    hands to it, [Ok] when it takes the line and otherwise the exception
    that it raises (a [UnicodeEncodeError] when its encoding has no bytes
    for the text, as UTF-8 has none for a lone surrogate). *)
Record Platform := {
  float_eq : str -> str -> bool;
  float_eq_int : str -> Z -> bool;
  float_is_zero : str -> bool;
  repr : pyval -> str;
  urlparse : str -> result (str * option str);
  http_get : str -> Z -> result Response;
  stdout_write : str -> result unit
}.

Definition dec (z : Z) : str :=
  u (NilZero.string_of_int (Z.to_int z)).

(** [resp.raise_for_status()]: an [HTTPError] for the statuses from 400 to
    599. *)
Definition raise_for_status (resp : Response) : result unit :=
  let st := status_code resp in
  if ((400 <=? st) && (st <? 500))%Z then
    Raise (Exception (u "requests.exceptions.HTTPError")
             (dec st ++ u " Client Error: " ++ reason resp
              ++ u " for url: " ++ url resp))
  else if ((500 <=? st) && (st <? 600))%Z then
    Raise (Exception (u "requests.exceptions.HTTPError")
             (dec st ++ u " Server Error: " ++ reason resp
              ++ u " for url: " ++ url resp))
  else Ok tt.

Section Script.

Context (P : Platform).

(** *** Operations of Python on the values *)

(** [bool(v)]. *)
Definition py_truthy (v : pyval) : bool :=
  match v with
  | VNone => false
  | VBool b => b
  | VInt z => negb (z =? 0)%Z
  | VFloat lit => negb (float_is_zero P lit)
  | VStr s => match s with [] => false | _ => true end
  | VList l => match l with [] => false | _ => true end
  | VDict d => match d with [] => false | _ => true end
  end.

(** [a == b]: a [bool] compares as the [int] 1 or 0. *)
Fixpoint py_eq (a b : pyval) {struct a} : bool :=
  match a, b with
  | VNone, VNone => true
  | VBool x, VBool y => Bool.eqb x y
  | VBool x, VInt z | VInt z, VBool x => (z =? (if x then 1 else 0))%Z
  | VBool x, VFloat f | VFloat f, VBool x =>
      float_eq_int P f (if x then 1 else 0)%Z
  | VInt x, VInt y => (x =? y)%Z
  | VInt z, VFloat f | VFloat f, VInt z => float_eq_int P f z
  | VFloat f, VFloat g => float_eq P f g
  | VStr s, VStr t => str_eqb s t
  | VList l, VList m =>
      (fix all2 (l m : list pyval) : bool :=
         match l, m with
         | [], [] => true
         | x :: l', y :: m' => py_eq x y && all2 l' m'
         | _, _ => false
         end) l m
  | VDict d, VDict e =>
      (List.length d =? List.length e)%nat
      && (fix sub (d : list (str * pyval)) : bool :=
            match d with
            | [] => true
            | (k, v) :: d' =>
                match dict_get e k with
                | Some w => py_eq v w
                | None => false
                end && sub d'
            end) d
  | _, _ => false
  end.

(** [str(v)], which is what an f-string and [print] show of [v]. *)
Definition py_str (v : pyval) : str :=
  match v with
  | VStr s => s
  | _ => repr P v
  end.

(** [print(s)] to standard output: the line is written, or nothing of it
    is and the exception of [sys.stdout] goes up. *)
Definition print (s : str) : prog unit :=
  match stdout_write P s with
  | Ok _ => ([EOut s], Ok tt)
  | Raise e => ([], Raise e)
  end.

(** [v.get(k, default)]: only a dict has the method. *)
Definition py_get (v : pyval) (k : string) (default : pyval) : result pyval :=
  match v with
  | VDict d =>
      Ok (match dict_get d (u k) with Some x => x | None => default end)
  | _ => Raise (mk_exn "AttributeError" "object has no attribute 'get'")
  end.

(** [v[k]] for a [str] key. *)
Definition py_getitem (v : pyval) (k : string) : result pyval :=
  match v with
  | VDict d =>
      match dict_get d (u k) with
      | Some x => Ok x
      | None => Raise (Exception (u "KeyError") (sq :: u k ++ [sq]))
      end
  | _ => Raise (mk_exn "TypeError" "object is not subscriptable by a str")
  end.

(** The values that [for x in v] goes through. *)
Definition py_iter (v : pyval) : result (list pyval) :=
  match v with
  | VList l => Ok l
  | VDict d => Ok (map (fun kv => VStr (fst kv)) d)
  | VStr s => Ok (map (fun c => VStr [c]) s)
  | _ => Raise (mk_exn "TypeError" "object is not iterable")
  end.

(** [requests.get(url, timeout=timeout)]. *)
Definition requests_get (url : str) (timeout : Z) : prog Response :=
  ([EGet url timeout], http_get P url timeout).

Local Open Scope py_scope.

(** *** [load_apps_config] (yallah.py, lines 47-53) *)

(** ["apps" if namespace == "standard" else "internal-apps"], the first
    line of [load_apps_config] and of [fetch_entry_assets]. *)
Definition base_folder (namespace : pyval) : str :=
  if py_eq namespace (VStr (u "standard")) then u "apps"
  else u "internal-apps".

Definition load_apps_config (cdn_host : str) (namespace : pyval)
  : prog pyval :=
  let base_folder := base_folder namespace in
  let url := cdn_host ++ u "/web/" ++ base_folder ++ u "/_config/apps.json" in
  resp <- requests_get url 10 ;;
  lift (raise_for_status resp) ;;;
  lift (json resp).

(** *** [find_app] (yallah.py, lines 56-61) *)

Definition find_app (apps app_id : pyval) : result pyval :=
  l <~ py_iter apps ;;
  (fix loop (l : list pyval) : result pyval :=
     match l with
     | [] => Ok VNone
     | app :: l' =>
         id <~ py_get app "id" VNone ;;
         if py_eq id app_id then Ok app else loop l'
     end) l.

(** *** [fetch_entry_assets] (yallah.py, lines 64-71) *)

Definition fetch_entry_assets (cdn_host : str) (namespace repo version : pyval)
  : prog pyval :=
  let base_folder := base_folder namespace in
  let path := u "/web/" ++ base_folder ++ u "/" ++ py_str repo ++ u "/"
              ++ py_str version ++ u "/entry-assets.json" in
  let url := cdn_host ++ path in
  resp <- requests_get url 10 ;;
  lift (raise_for_status resp) ;;;
  lift (json resp).

(** *** [main] (yallah.py, lines 74-124), with [sys.argv] as its argument *)

(** Lines 80-81: the URL gets a scheme when [urlparse] finds none. *)
Definition with_scheme (scheme input_url : str) : str :=
  match scheme with
  | [] => u "https://" ++ input_url
  | _ => input_url
  end.

(** Line 85. *)
Definition cdn_host_of (env_type : str) : str :=
  if str_eqb env_type (u "prod") then u "https://cloverstatic.com"
  else u "https://dev.cloverstatic.com".

(** Lines 95-99: the namespace and the application identifier, from the
    configuration or by default. *)
Definition config_ids (config : pyval) : result (pyval * pyval) :=
  let namespace := VStr (u "standard") in
  let app_id := VStr (u "web-portal") in
  if py_truthy config then
    namespace <~ py_get config "namespace" namespace ;;
    app_id <~ py_get config "appId" app_id ;;
    Ok (namespace, app_id)
  else Ok (namespace, app_id).

(** Lines 123-124. *)
Definition print_all (paths : list pyval) : prog unit :=
  fold_left (fun acc path => acc ;;; print (py_str path)) paths (ret tt).

Definition main (argv : list str) : prog unit :=
  match argv with
  | [] => lift (Raise (mk_exn "IndexError" "list index out of range"))
  | [argv0] => print (u "Usage: " ++ argv0 ++ u " <url>") ;;; sys_exit 1
  | _ :: input_url :: _ =>
      parsed <- lift (urlparse P input_url) ;;
      let input_url := with_scheme (fst parsed) input_url in
      parsed <- lift (urlparse P input_url) ;;
      let hostname := match snd parsed with Some h => h | None => [] end in
      let env_type := determine_env_type hostname in
      let cdn_host := cdn_host_of env_type in
      page <- try_prog
                (resp <- requests_get input_url 10 ;; ret (text resp))
                (fun exc =>
                   print_stderr (u "Error fetching " ++ input_url ++ u ": "
                                 ++ exc_str exc) ;;;
                   sys_exit 1) ;;
      config <- lift (parse_bootstrap_config page) ;;
      ids <- lift (config_ids config) ;;
      let namespace := fst ids in
      let app_id := snd ids in
      apps <- try_prog
                (load_apps_config cdn_host namespace)
                (fun exc =>
                   print_stderr (u "Unable to load apps configuration: "
                                 ++ exc_str exc) ;;;
                   sys_exit 1) ;;
      app <- lift (find_app apps app_id) ;;
      if negb (py_truthy app) then
        print_stderr (u "Application ID '" ++ py_str app_id
                      ++ u "' not found in apps configuration.") ;;;
        sys_exit 1
      else
        repo <- lift (py_getitem app "repo") ;;
        version <- lift (py_getitem app "version") ;;
        entry_assets <- try_prog
                          (fetch_entry_assets cdn_host namespace repo version)
                          (fun exc =>
                             print_stderr (u "Unable to fetch entry assets: "
                                           ++ exc_str exc) ;;;
                             sys_exit 1) ;;
        js_files <- lift (py_get entry_assets "js" (VList [])) ;;
        if negb (py_truthy js_files) then print (u "No JS bundles found.")
        else
          paths <- lift (py_iter js_files) ;;
          print_all paths
  end.

End Script.

(** ** The environment resolver in the words of the specification *)

(** The environment type of the specification (section 3). *)
Inductive env_type_spec :=
| prod
| dev.

(** The name that the script gives to an environment type. *)
Definition env_name (e : env_type_spec) : str :=
  match e with
  | prod => u "prod"
  | dev => u "dev"
  end.

Definition fold_case (c : N) : N :=
  if (65 <=? c) && (c <=? 90) then c + 32 else c.

(** A label equals a keyword case-insensitively: character by character,
    up to the case of the letters A to Z. *)
Fixpoint ci_equal (label keyword : str) : bool :=
  match label, keyword with
  | [], [] => true
  | a :: label', b :: keyword' =>
      (fold_case a =? fold_case b) && ci_equal label' keyword'
  | _, _ => false
  end.

(** Section 4.1: split the hostname on the dot; no label gives [prod]; a
    first label [sandbox] gives [prod]; otherwise a second label [dev] or
    [ondemand] gives [dev]; by default [prod]. *)
Definition resolve_environment (hostname : str) : env_type_spec :=
  match split 46 hostname with
  | [] => prod
  | first :: others =>
      if ci_equal first (u "sandbox") then prod
      else match others with
           | second :: _ =>
               if ci_equal second (u "dev") then dev
               else if ci_equal second (u "ondemand") then dev
               else prod
           | [] => prod
           end
  end.

(** ** Encoders, to name the fragments that the properties speak of *)

(** A code point that [str.encode('utf-8')] accepts: up to U+10FFFF and
    no surrogate. *)
Definition is_scalar (c : N) : bool :=
  (c <? 55296) || ((57343 <? c) && (c <=? 1114111)).

(** A standard output that encodes with UTF-8 and the error handler
    [strict], which is what the interpreter sets up under a UTF-8 locale:
    it takes the texts that [str.encode('utf-8')] accepts. *)
Definition unicode_encode_error : exn :=
  mk_exn "UnicodeEncodeError"
         "'utf-8' codec can't encode character: surrogates not allowed".

Definition utf8_stdout (line : str) : result unit :=
  if forallb is_scalar line then Ok tt else Raise unicode_encode_error.

(** [chr(c).encode('utf-8')] for a code point that is not a surrogate. *)
Definition encode_cp (c : N) : bytes :=
  if c <? 128 then [c]
  else if c <? 2048 then [192 + c / 64; 128 + c mod 64]
  else if c <? 65536 then
    [224 + c / 4096; 128 + (c / 64) mod 64; 128 + c mod 64]
  else [240 + c / 262144; 128 + (c / 4096) mod 64; 128 + (c / 64) mod 64;
        128 + c mod 64].

(** [s.encode('utf-8')] for a [str] without surrogates. *)
Definition encode_utf8 (s : str) : bytes := flat_map encode_cp s.

Definition b64_char (v : N) : N :=
  if v <? 26 then 65 + v
  else if v <? 52 then 71 + v
  else if v <? 62 then v - 4
  else if v =? 62 then 43
  else 47.

(** [base64.b64encode(b)], as a [str]. *)
Fixpoint b64encode (b : bytes) : str :=
  match b with
  | [] => []
  | [b0] => [b64_char (b0 / 4); b64_char ((b0 mod 4) * 16); 61; 61]
  | [b0; b1] =>
      [b64_char (b0 / 4); b64_char ((b0 mod 4) * 16 + b1 / 16);
       b64_char ((b1 mod 16) * 4); 61]
  | b0 :: b1 :: b2 :: r =>
      b64_char (b0 / 4) :: b64_char ((b0 mod 4) * 16 + b1 / 16)
      :: b64_char ((b1 mod 16) * 4 + b2 / 64) :: b64_char (b2 mod 64)
      :: b64encode r
  end.

(** A [str] between double quotes. *)
Definition quoted (s : string) : str := dq :: u s ++ [dq].

(** The JSON text [{"namespace":"standard","appId":"x"}] with its
    double quotes, and the mapping it denotes. *)
Definition bootstrap_json : str :=
  u "{" ++ quoted "namespace" ++ u ":" ++ quoted "standard" ++ u ","
  ++ quoted "appId" ++ u ":" ++ quoted "x" ++ u "}".

Definition bootstrap_mapping : pyval :=
  VDict [(u "namespace", VStr (u "standard")); (u "appId", VStr (u "x"))].

Definition bootstrap_fragment : str := b64encode (encode_utf8 bootstrap_json).

(** ** What a match of the pattern looks like *)

(** The text [w] matches the whole pattern and captures [caps]. *)
Inductive matches : list item -> str -> list str -> Prop :=
| M_nil : matches [] [] []
| M_lit c x pat w caps :
    ci_match c x = true -> matches pat w caps ->
    matches (Lit c :: pat) (x :: w) caps
| M_cls k x pat w caps :
    in_cls k x = true -> matches pat w caps ->
    matches (Cls k :: pat) (x :: w) caps
| M_plus k g pat w caps :
    g <> [] -> forallb (in_cls k) g = true -> matches pat w caps ->
    matches (Plus k :: pat) (g ++ w) caps
| M_group k g pat w caps :
    g <> [] -> forallb (in_cls k) g = true -> matches pat w caps ->
    matches (Group k :: pat) (g ++ w) (g :: caps).

(** The text [t] is the word [w] up to case, as [re.IGNORECASE] sees it. *)
Definition ci_word (w : string) (t : str) : Prop :=
  Forall2 (fun c x => ci_match c x = true) (u w) t.

Definition is_quote (x : N) : bool := (x =? dq) || (x =? sq).

(** The page holds the text of a script tag in which [id=], a quote,
    [cl-bootstrap] and a quote come before [src=], a quote, a non-empty
    [base] free of double quotes and hash signs, a hash sign, a non-empty
    [frag] free of quotes, and a quote; nothing between [<script] and the
    last quote closes the tag. *)
Definition bootstrap_tag_in (page base frag : str) : Prop :=
  exists pre t_script gap1 t_id q1 t_cl q2 gap2 t_src q3 q4 post,
    page = pre ++ t_script ++ gap1 ++ t_id ++ q1 :: t_cl ++ q2 :: gap2
           ++ t_src ++ q3 :: base ++ 35 :: frag ++ q4 :: post
    /\ ci_word "<script" t_script
    /\ gap1 <> [] /\ Forall (fun c => c <> 62) gap1
    /\ ci_word "id=" t_id /\ is_quote q1 = true
    /\ ci_word "cl-bootstrap" t_cl /\ is_quote q2 = true
    /\ gap2 <> [] /\ Forall (fun c => c <> 62) gap2
    /\ ci_word "src=" t_src /\ is_quote q3 = true
    /\ base <> [] /\ Forall (fun c => c <> dq /\ c <> 35) base
    /\ frag <> [] /\ Forall (fun c => is_quote c = false) frag
    /\ is_quote q4 = true.

(** The number of quote characters of a text, and the number of elements
    of a pattern that take nothing but quote characters. *)
Definition nquotes (s : str) : nat := List.length (filter is_quote s).



Definition quote_free (s : str) : Prop := nquotes s = 0%nat.

(** ** Script tags *)

(** [<script id="cl-bootstrap" src="base#frag">] *)
Definition tag_id_first (base frag : str) : str :=
  u "<script id=" ++ quoted "cl-bootstrap"
  ++ u " src=" ++ dq :: base ++ 35 :: frag ++ dq :: u ">".

(** [<script src="base#frag" id="cl-bootstrap">] *)
Definition tag_src_first (base frag : str) : str :=
  u "<script src=" ++ dq :: base ++ 35 :: frag ++ dq
  :: u " id=" ++ quoted "cl-bootstrap" ++ u ">".


(** ** The URLs of the specification (section 6) *)

Definition apps_url (delivery_host folder : str) : str :=
  delivery_host ++ u "/web/" ++ folder ++ u "/_config/apps.json".

Definition entry_assets_url (delivery_host folder repo version : str) : str :=
  delivery_host ++ u "/web/" ++ folder ++ u "/" ++ repo ++ u "/" ++ version
  ++ u "/entry-assets.json".

(** ** How far a run of [main] gets *)

Section Runs.

Context (P : Platform).

(** The run fetches the page at [input_url], picks [cdn_host] and finds
    [config] in the page (lines 75-93). *)
Definition reaches_config (argv : list str) (input_url cdn_host : str)
  (config : pyval) : Prop :=
  exists argv0 url0 rest parsed1 parsed2 resp,
    argv = argv0 :: url0 :: rest
    /\ urlparse P url0 = Ok parsed1
    /\ input_url = with_scheme (fst parsed1) url0
    /\ urlparse P input_url = Ok parsed2
    /\ cdn_host =
       cdn_host_of (determine_env_type
                      (match snd parsed2 with Some h => h | None => [] end))
    /\ http_get P input_url 10 = Ok resp
    /\ parse_bootstrap_config (text resp) = Ok config.

(** The run asks for the apps manifest with [namespace], to look for
    [app_id] (lines 75-99). *)
Definition reaches_apps (argv : list str) (input_url cdn_host : str)
  (namespace app_id : pyval) : Prop :=
  exists config,
    reaches_config argv input_url cdn_host config
    /\ config_ids P config = Ok (namespace, app_id).

(** The run asks for the entry assets of [repo] and [version]
    (lines 75-111): the apps manifest arrived and holds the application. *)
Definition reaches_assets (argv : list str) (input_url cdn_host : str)
  (namespace repo version : pyval) : Prop :=
  exists app_id resp apps app,
    reaches_apps argv input_url cdn_host namespace app_id
    /\ http_get P (apps_url cdn_host (base_folder P namespace)) 10 = Ok resp
    /\ raise_for_status resp = Ok tt
    /\ json resp = Ok apps
    /\ find_app P apps app_id = Ok app
    /\ py_truthy P app = true
    /\ py_getitem app "repo" = Ok repo
    /\ py_getitem app "version" = Ok version.

End Runs.

(** ** Example runs *)

(** A response whose [json()] is what [json.loads] makes of its text. *)
Definition response (status : Z) (reason url text : str) : Response :=
  {| status_code := status; reason := reason; url := url; text := text;
     json := json_loads text |}.

(** The apps manifest and the entry assets of the scenarios of the
    specification (section 8), as JSON texts and as values. *)
Definition example_apps_text : str :=
  u "[{" ++ quoted "id" ++ u ":" ++ quoted "web-portal" ++ u ","
  ++ quoted "repo" ++ u ":" ++ quoted "portal" ++ u ","
  ++ quoted "version" ++ u ":" ++ quoted "3.2.1" ++ u "}]".

Definition example_apps : pyval :=
  VList [VDict [(u "id", VStr (u "web-portal")); (u "repo", VStr (u "portal"));
                (u "version", VStr (u "3.2.1"))]].

Definition example_assets_text : str :=
  u "{" ++ quoted "js" ++ u ":[" ++ quoted "main.abc123.js" ++ u ","
  ++ quoted "vendor.def456.js" ++ u "]}".

Definition example_assets : pyval :=
  VDict [(u "js", VList [VStr (u "main.abc123.js");
                         VStr (u "vendor.def456.js")])].

Definition no_js_text : str := u "{" ++ quoted "js" ++ u ":[]}".

Definition example_page_url : str := u "https://sandbox.example.com".
Definition example_apps_url : str :=
  u "https://cloverstatic.com/web/apps/_config/apps.json".
Definition example_assets_url : str :=
  u "https://cloverstatic.com/web/apps/portal/3.2.1/entry-assets.json".

(** A platform for the examples: three URLs answer as given, every other
    request fails; [urlparse] knows the URLs of the examples, a host with
    or without [https://]; standard output encodes with UTF-8.  The
    examples hold no float and print no value that is not a [str]. *)
Definition example_platform (page apps assets : result Response) : Platform :=
  {| float_eq := str_eqb;
     float_eq_int := fun _ _ => false;
     float_is_zero := fun _ => false;
     repr := fun _ => [];
     urlparse := fun s =>
       match strip_prefix (u "https://") s with
       | Some host => Ok (u "https", Some host)
       | None => Ok ([], None)
       end;
     http_get := fun url _ =>
       if str_eqb url example_page_url then page
       else if str_eqb url example_apps_url then apps
       else if str_eqb url example_assets_url then assets
       else Raise (mk_exn "requests.exceptions.ConnectionError"
                          "Failed to establish a new connection");
     stdout_write := utf8_stdout |}.

(** No network at all. *)
Definition connection_error : exn :=
  mk_exn "requests.exceptions.ConnectionError"
         "Failed to establish a new connection".

Definition offline_platform : Platform :=
  example_platform (Raise connection_error) (Raise connection_error)
                   (Raise connection_error).

Definition example_argv : list str := [u "yallah.py"; u "sandbox.example.com"].

Definition page_without_tag : str := u "<html><head></head></html>".

Definition page_response (status : Z) (reason text : str) : result Response :=
  Ok (response status reason example_page_url text).

Definition apps_response (status : Z) (reason text : str) : result Response :=
  Ok (response status reason example_apps_url text).

Definition assets_response (status : Z) (reason text : str)
  : result Response :=
  Ok (response status reason example_assets_url text).

(** The three requests of a run that gets to its end. *)
Definition scenario_gets : list event :=
  [EGet example_page_url 10; EGet example_apps_url 10;
   EGet example_assets_url 10].

(** The scenario of section 8: a page without the tag, the apps manifest
    and the entry assets above. *)
Definition scenario_platform : Platform :=
  example_platform (page_response 200 (u "OK") page_without_tag)
                   (apps_response 200 (u "OK") example_apps_text)
                   (assets_response 200 (u "OK") example_assets_text).

(** The same with the status 404 for the page. *)
Definition not_found_platform : Platform :=
  example_platform (page_response 404 (u "Not Found") page_without_tag)
                   (apps_response 200 (u "OK") example_apps_text)
                   (assets_response 200 (u "OK") example_assets_text).

(** The same with the status 500 for the apps manifest, with no answer for
    it, and with the status 300 for it. *)
Definition apps_500_platform : Platform :=
  example_platform (page_response 200 (u "OK") page_without_tag)
                   (apps_response 500 (u "Internal Server Error")
                                  (u "Internal Server Error"))
                   (assets_response 200 (u "OK") example_assets_text).

Definition apps_down_platform : Platform :=
  example_platform (page_response 200 (u "OK") page_without_tag)
                   (Raise connection_error)
                   (assets_response 200 (u "OK") example_assets_text).

Definition apps_300_platform : Platform :=
  example_platform (page_response 200 (u "OK") page_without_tag)
                   (apps_response 300 (u "Multiple Choices") example_apps_text)
                   (assets_response 200 (u "OK") example_assets_text).

(** The same with entry assets that list no JavaScript, or have no [js]
    key. *)
Definition no_js_platform : Platform :=
  example_platform (page_response 200 (u "OK") page_without_tag)
                   (apps_response 200 (u "OK") example_apps_text)
                   (assets_response 200 (u "OK") no_js_text).

Definition no_js_key_platform : Platform :=
  example_platform (page_response 200 (u "OK") page_without_tag)
                   (apps_response 200 (u "OK") example_apps_text)
                   (assets_response 200 (u "OK") (u "{}")).

(** ** Example pages *)

(** A page with the tag of the specification (section 6):
    [<script id="cl-bootstrap" src="/static/boot.js#...">] with the base64
    text of [bootstrap_json] after the hash sign. *)
Definition bootstrap_page : str :=
  u "<html><head>" ++ tag_id_first (u "/static/boot.js") bootstrap_fragment
  ++ u "</script></head><body></body></html>".

(** The same attributes in the other order. *)
Definition src_first_page : str :=
  u "<html><head>" ++ tag_src_first (u "/static/boot.js") bootstrap_fragment
  ++ u "</script></head><body></body></html>".

(** A tag whose fragment is the base64 text of the JSON array [[1]]. *)
Definition array_fragment : str := b64encode (encode_utf8 (u "[1]")).

Definition array_page : str :=
  u "<html><head>" ++ tag_id_first (u "/static/boot.js") array_fragment
  ++ u "</script></head><body></body></html>".

(** The scenario with [array_page] for page. *)
Definition array_platform : Platform :=
  example_platform (page_response 200 (u "OK") array_page)
                   (apps_response 200 (u "OK") example_apps_text)
                   (assets_response 200 (u "OK") example_assets_text).

(** A tag whose fragment is one base64 character, which no bytes encode
    to, and a tag whose fragment decodes to the byte 255, which is not
    UTF-8. *)
Definition bad_base64_page : str := tag_id_first (u "/static/boot.js") (u "Q").

Definition bad_utf8_page : str := tag_id_first (u "/static/boot.js") (u "/w==").

(** ** Predicates of the proofs *)

(** A [src] value before the hash sign that the pattern takes whole:
    not empty, without quote and without hash sign. *)
Definition plain_base (base : str) : Prop :=
  base <> [] /\ quote_free base /\ ~ In 35 base.

(** A lowercase letter other than [k]: no code point outside ASCII
    lowers to it. *)
Definition plain_letter (b : N) : Prop := 97 <= b <= 122 /\ b <> 107.

(** The result is a value or one of the exceptions that
    [except Exception] catches. *)
Definition no_exit {A} (r : result A) : Prop :=
  match r with
  | Raise (SystemExit _) => False
  | _ => True
  end.

(** ** The decoding of the fragment (yallah.py, lines 39-44) *)

(** The [try] statement of [parse_bootstrap_config], as a function of the
    fragment: the value that [json.loads] makes of the decoded text, [None]
    when one of the three steps raises. *)
Definition decode_fragment (encoded_fragment : str) : result pyval :=
  try_except
    (rbind (b64decode encoded_fragment) (fun raw =>
     rbind (decode_utf8 raw) (fun decoded =>
     rbind (json_loads decoded) (fun config =>
     Ok config))))
    (fun _ => Ok VNone).

(** A character that [b64decode] looks at: one of the alphabet, or the
    pad. *)
Definition b64_relevant (c : N) : bool :=
  (c =? 61) || match b64_value c with Some _ => true | None => false end.

(** The whole of [s] is the word [w] up to case, and [s] ends with the
    word [w] up to case. *)
Fixpoint ci_whole (w s : str) : bool :=
  match w, s with
  | [], [] => true
  | c :: w', x :: s' => ci_match c x && ci_whole w' s'
  | _, _ => false
  end.

Fixpoint ends_ci (w s : str) : bool :=
  ci_whole w s
  || match s with
     | [] => false
     | _ :: s' => ends_ci w s'
     end.

(** The numbers below [n]. *)
Definition below (n : nat) : list N := map N.of_nat (seq 0 n).

(** [rest] is what is left of [s] after some of its characters, and the
    last character taken from [s] before [rest] has the property [Q]. *)
Definition left_of (s rest : str) : Prop := exists w, s = w ++ rest.

Definition ends_with (Q : N -> Prop) (s rest : str) : Prop :=
  exists w c, s = w ++ c :: rest /\ Q c.

(** A printable ASCII character other than the space; a digit. *)
Definition printable (c : N) : Prop := 32 < c < 127.

Definition digit (c : N) : Prop := is_digit c = true.

Definition is_dict (v : pyval) : bool :=
  match v with
  | VDict _ => true
  | _ => false
  end.

(** [d.get("id") == app_id] is false. *)
Definition no_id_match (P : Platform) (app_id : pyval)
  (d : list (str * pyval)) : Prop :=
  py_eq P (match dict_get d (u "id") with Some x => x | None => VNone end)
        app_id = false.

(** [config.get("namespace", "standard")] and
    [config.get("appId", "web-portal")] for a dict (lines 98-99). *)
Definition config_namespace (d : list (str * pyval)) : pyval :=
  match dict_get d (u "namespace") with
  | Some x => x
  | None => VStr (u "standard")
  end.

Definition config_app_id (d : list (str * pyval)) : pyval :=
  match dict_get d (u "appId") with
  | Some x => x
  | None => VStr (u "web-portal")
  end.

(** ** More examples *)

(** The configuration [{"namespace":"internal","appId":"billing"}] and a
    page that carries it. *)
Definition internal_json : str :=
  u "{" ++ quoted "namespace" ++ u ":" ++ quoted "internal" ++ u ","
  ++ quoted "appId" ++ u ":" ++ quoted "billing" ++ u "}".

Definition internal_mapping : list (str * pyval) :=
  [(u "namespace", VStr (u "internal")); (u "appId", VStr (u "billing"))].

Definition internal_page : str :=
  u "<html><head>"
  ++ tag_id_first (u "/static/boot.js") (b64encode (encode_utf8 internal_json))
  ++ u "</script></head><body></body></html>".

Definition internal_platform : Platform :=
  example_platform (page_response 200 (u "OK") internal_page)
                   (apps_response 200 (u "OK") example_apps_text)
                   (assets_response 200 (u "OK") example_assets_text).

(** A page whose configuration is the empty object. *)
Definition empty_config_page : str :=
  u "<html><head>" ++ tag_id_first (u "/static/boot.js") (u "e30=")
  ++ u "</script></head><body></body></html>".

Definition empty_config_platform : Platform :=
  example_platform (page_response 200 (u "OK") empty_config_page)
                   (apps_response 200 (u "OK") example_apps_text)
                   (assets_response 200 (u "OK") example_assets_text).

(** The tag in capitals and with single quotes; its fragment is the base64
    text of the empty object. *)
Definition capitals_page : str :=
  u "<SCRIPT ID='CL-BOOTSTRAP' SRC='/b.js#e30='></SCRIPT>".

(** A tag whose fragment is the base64 text of [{oops], which is not
    JSON. *)
Definition bad_json_page : str :=
  tag_id_first (u "/static/boot.js") (b64encode (encode_utf8 (u "{oops"))).

(** A fragment that ends with [src=], before a link with a hash sign. *)
Definition src_suffix_page : str :=
  tag_id_first (u "/static/boot.js") (u "e30Ksrc=")
  ++ u "</script><a href='#top'>".

(** A platform whose [urlparse] rejects every URL. *)
Definition bad_url_platform : Platform :=
  {| float_eq := str_eqb;
     float_eq_int := fun _ _ => false;
     float_is_zero := fun _ => false;
     repr := fun _ => [];
     urlparse := fun _ => Raise (mk_exn "ValueError" "Invalid IPv6 URL");
     http_get := fun _ _ => Raise connection_error;
     stdout_write := utf8_stdout |}.

(** The scenario with an apps manifest that is not JSON, that lists no
    application, and whose descriptor has no [repo] or no [version]. *)
Definition apps_html_platform : Platform :=
  example_platform (page_response 200 (u "OK") page_without_tag)
                   (apps_response 200 (u "OK") (u "<html></html>"))
                   (assets_response 200 (u "OK") example_assets_text).

Definition no_apps_platform : Platform :=
  example_platform (page_response 200 (u "OK") page_without_tag)
                   (apps_response 200 (u "OK") (u "[]"))
                   (assets_response 200 (u "OK") example_assets_text).

Definition no_repo_text : str :=
  u "[{" ++ quoted "id" ++ u ":" ++ quoted "web-portal" ++ u "}]".

Definition no_version_text : str :=
  u "[{" ++ quoted "id" ++ u ":" ++ quoted "web-portal" ++ u ","
  ++ quoted "repo" ++ u ":" ++ quoted "portal" ++ u "}]".

Definition no_repo_platform : Platform :=
  example_platform (page_response 200 (u "OK") page_without_tag)
                   (apps_response 200 (u "OK") no_repo_text)
                   (assets_response 200 (u "OK") example_assets_text).

Definition no_version_platform : Platform :=
  example_platform (page_response 200 (u "OK") page_without_tag)
                   (apps_response 200 (u "OK") no_version_text)
                   (assets_response 200 (u "OK") example_assets_text).

(** The scenario with entry assets that answer 404, that are a JSON list,
    and whose [js] is a string. *)
Definition assets_404_platform : Platform :=
  example_platform (page_response 200 (u "OK") page_without_tag)
                   (apps_response 200 (u "OK") example_apps_text)
                   (assets_response 404 (u "Not Found") (u "Not Found")).

Definition assets_list_platform : Platform :=
  example_platform (page_response 200 (u "OK") page_without_tag)
                   (apps_response 200 (u "OK") example_apps_text)
                   (assets_response 200 (u "OK") (u "[]")).

Definition js_string_text : str :=
  u "{" ++ quoted "js" ++ u ":" ++ quoted "app.js" ++ u "}".

Definition js_string_platform : Platform :=
  example_platform (page_response 200 (u "OK") page_without_tag)
                   (apps_response 200 (u "OK") example_apps_text)
                   (assets_response 200 (u "OK") js_string_text).

(** The scenario with entry assets whose second path is the JSON string
    with the escape of U+D800 alone, which [json.loads] reads as the lone
    surrogate. *)
Definition surrogate_text : str :=
  u "{" ++ quoted "js" ++ u ":[" ++ quoted "main.abc123.js" ++ u ","
  ++ quoted "\ud800" ++ u "]}".

Definition surrogate_assets : pyval :=
  VDict [(u "js", VList [VStr (u "main.abc123.js"); VStr [55296]])].

Definition surrogate_platform : Platform :=
  example_platform (page_response 200 (u "OK") page_without_tag)
                   (apps_response 200 (u "OK") example_apps_text)
                   (assets_response 200 (u "OK") surrogate_text).

(** * Properties *)

(** ** Strings *)

Lemma str_eqb_eq (a b : str) : str_eqb a b = true <-> a = b.
Proof.
  revert b; induction a as [|x a IH]; intros [|y b]; simpl; split; intro H;
    try discriminate; try reflexivity.
  - apply andb_true_iff in H as [H1 H2]. apply N.eqb_eq in H1.
    apply IH in H2. now subst.
  - inversion H; subst. rewrite N.eqb_refl. simpl. now apply IH.
Qed.

Lemma str_eqb_neq (a b : str) : a <> b -> str_eqb a b = false.
Proof.
  intro H. destruct (str_eqb a b) eqn:E; [|reflexivity].
  apply str_eqb_eq in E. contradiction.
Qed.

(** [split] never gives the empty list, so the first test of
    [determine_env_type] never succeeds. *)
Lemma split_not_nil (sep : N) (s : str) : split sep s <> [].
Proof.
  induction s as [|c s IH]; simpl; [discriminate|].
  destruct (c =? sep); [discriminate|].
  destruct (split sep s); [contradiction|discriminate].
Qed.

(** A text without the separator is one part, and a text whose first
    separator comes after [l] has [l] for first part. *)
Lemma split_label (sep : N) (l r : str) :
  ~ In sep l -> split sep (l ++ sep :: r) = l :: split sep r.
Proof.
  induction l as [|c l IH]; intro H; simpl.
  - now rewrite N.eqb_refl.
  - destruct (c =? sep) eqn:E.
    + apply N.eqb_eq in E. exfalso. apply H. now left.
    + rewrite IH; [reflexivity|]. intro K. apply H. now right.
Qed.

Lemma split_one (sep : N) (l : str) : ~ In sep l -> split sep l = [l].
Proof.
  induction l as [|c l IH]; intro H; simpl; [reflexivity|].
  destruct (c =? sep) eqn:E.
  - apply N.eqb_eq in E. exfalso. apply H. now left.
  - rewrite IH; [reflexivity|]. intro K. apply H. now right.
Qed.

Lemma not_In_forallb (x : N) (l : str) :
  forallb (fun c => negb (c =? x)) l = true -> ~ In x l.
Proof.
  rewrite forallb_forall. intros H Hin. apply H in Hin.
  now rewrite N.eqb_refl in Hin.
Qed.

(** ** The environment resolver *)

Lemma lower_cp_fold_case (a b : N) :
  plain_letter b -> (lower_cp a =? b) = (fold_case a =? fold_case b).
Proof.
  intros [Hb Hk]. unfold lower_cp, fold_case.
  replace ((65 <=? b) && (b <=? 90)) with false
    by (symmetry; apply andb_false_iff; right; apply N.leb_gt; lia).
  destruct ((65 <=? a) && (a <=? 90)); [reflexivity|].
  destruct (a =? 8490) eqn:E; [|reflexivity].
  apply N.eqb_eq in E. subst a.
  transitivity false; [|symmetry]; apply N.eqb_neq; lia.
Qed.

Lemma lower_ci_equal (keyword : str) :
  Forall plain_letter keyword ->
  forall label, str_eqb (lower label) keyword = ci_equal label keyword.
Proof.
  induction 1 as [|b keyword Hb _ IH]; intros [|a label]; simpl;
    try reflexivity.
  now rewrite lower_cp_fold_case, IH.
Qed.

Ltac plain_letters :=
  unfold plain_letter; vm_compute;
  repeat (constructor;
          [split; [split; intro; discriminate | intro; discriminate]|]);
  constructor.

Lemma lower_sandbox (label : str) :
  str_eqb (lower label) (u "sandbox") = ci_equal label (u "sandbox").
Proof. apply lower_ci_equal. plain_letters. Qed.

Lemma lower_dev (label : str) :
  str_eqb (lower label) (u "dev") = ci_equal label (u "dev").
Proof. apply lower_ci_equal. plain_letters. Qed.

Lemma lower_ondemand (label : str) :
  str_eqb (lower label) (u "ondemand") = ci_equal label (u "ondemand").
Proof. apply lower_ci_equal. plain_letters. Qed.

Lemma determine_env_type_refines (hostname : str) :
  determine_env_type hostname = env_name (resolve_environment hostname).
Proof.
  unfold determine_env_type, resolve_environment.
  destruct (split 46 hostname) as [|p0 rest]; [reflexivity|].
  rewrite lower_sandbox.
  destruct (ci_equal p0 (u "sandbox")); [reflexivity|].
  destruct rest as [|p1 rest]; [reflexivity|].
  rewrite lower_dev, lower_ondemand.
  destruct (ci_equal p1 (u "dev")); [reflexivity|].
  destruct (ci_equal p1 (u "ondemand")); reflexivity.
Qed.

(** C3.  [determine_env_type] on the labels of the hostname, which are
    what its dots separate.  For a first label [l0], a second label [l1]
    and whatever follows them: a first label [sandbox] up to case gives
    ["prod"]; otherwise a second label [dev] or [ondemand] up to case gives
    ["dev"]; otherwise the result is ["prod"], as it is for a hostname of
    one label and for the empty hostname.  For every hostname this is what
    the algorithm of the specification returns, and the result is ["prod"]
    or ["dev"]. *)
Theorem C3_determine_env_type :
  forall hostname l0 l1 rest : str,
    ~ In 46 l0 -> ~ In 46 l1 ->
    let by_labels :=
      if ci_equal l0 (u "sandbox") then u "prod"
      else if ci_equal l1 (u "dev") || ci_equal l1 (u "ondemand") then u "dev"
      else u "prod" in
    determine_env_type (l0 ++ 46 :: l1 ++ 46 :: rest) = by_labels
    /\ determine_env_type (l0 ++ 46 :: l1) = by_labels
    /\ determine_env_type l0 = u "prod"
    /\ determine_env_type [] = u "prod"
    /\ determine_env_type hostname = env_name (resolve_environment hostname)
    /\ (determine_env_type hostname = u "prod"
        \/ determine_env_type hostname = u "dev").
Proof.
  intros hostname l0 l1 rest H0 H1 by_labels. subst by_labels.
  repeat split.
  - unfold determine_env_type.
    rewrite !split_label by assumption.
    rewrite lower_sandbox, lower_dev, lower_ondemand. reflexivity.
  - unfold determine_env_type.
    rewrite split_label, split_one by assumption.
    rewrite lower_sandbox, lower_dev, lower_ondemand. reflexivity.
  - unfold determine_env_type. rewrite split_one by assumption.
    destruct (str_eqb (lower l0) (u "sandbox")); reflexivity.
  - apply determine_env_type_refines.
  - rewrite determine_env_type_refines.
    destruct (resolve_environment hostname); [left|right]; reflexivity.
Qed.

Lemma C3_determine_env_type_witness :
  determine_env_type (u "portal.OnDemand.example.com") = u "dev"
  /\ determine_env_type (u "portal.dev") = u "dev"
  /\ determine_env_type (u "Sandbox.dev.example.com") = u "prod"
  /\ determine_env_type (u "www.example.com") = u "prod"
  /\ determine_env_type (u "dev") = u "prod".
Proof.
  pose proof (C3_determine_env_type [] (u "portal") (u "OnDemand") (u "example.com")
                (not_In_forallb 46 (u "portal") eq_refl)
                (not_In_forallb 46 (u "OnDemand") eq_refl))
    as (A & _).
  pose proof (C3_determine_env_type [] (u "portal") (u "dev") []
                (not_In_forallb 46 (u "portal") eq_refl)
                (not_In_forallb 46 (u "dev") eq_refl))
    as (_ & B & _).
  pose proof (C3_determine_env_type [] (u "Sandbox") (u "dev") (u "example.com")
                (not_In_forallb 46 (u "Sandbox") eq_refl)
                (not_In_forallb 46 (u "dev") eq_refl))
    as (C & _).
  pose proof (C3_determine_env_type [] (u "www") (u "example") (u "com")
                (not_In_forallb 46 (u "www") eq_refl)
                (not_In_forallb 46 (u "example") eq_refl))
    as (D & _).
  pose proof (C3_determine_env_type [] (u "dev") [] []
                (not_In_forallb 46 (u "dev") eq_refl)
                (not_In_forallb 46 [] eq_refl))
    as (_ & _ & E & _).
  repeat split; assumption.
Defined.

(** The cases of section 8 of the specification. *)
Example env_sandbox_dev :
  determine_env_type (u "Sandbox.dev.example.com") = u "prod".
Proof. reflexivity. Qed.

Example env_second_label_dev :
  determine_env_type (u "portal.DEV.example.com") = u "dev"
  /\ determine_env_type (u "portal.ondemand.example.com") = u "dev".
Proof. split; reflexivity. Qed.

Example env_default :
  determine_env_type (u "www.example.com") = u "prod"
  /\ determine_env_type (u "dev.example.com") = u "prod".
Proof. split; reflexivity. Qed.

(** ** The matcher *)

(** What a success of [greedy] means. *)
Lemma greedy_sound {A} (p : N -> bool) (s : str) :
  forall (k : str -> str -> option A) r,
    greedy p k s = Some r ->
    exists g rest, g <> [] /\ forallb p g = true /\ s = g ++ rest
                   /\ k g rest = Some r.
Proof.
  induction s as [|c s IH]; intros k r H; simpl in H; [discriminate|].
  destruct (p c) eqn:Hp; [|discriminate].
  destruct (greedy p (fun w => k (c :: w)) s) eqn:Hg.
  - inversion H; subst. apply IH in Hg as (g & rest & Hne & Hall & Hs & Hk).
    exists (c :: g), rest. repeat split.
    + discriminate.
    + simpl. now rewrite Hp.
    + now rewrite Hs.
    + exact Hk.
  - exists [c], s. repeat split.
    + discriminate.
    + simpl. now rewrite Hp.
    + exact H.
Qed.

Lemma match_here_sound (pat : list item) :
  forall s m, match_here pat s = Some m ->
    exists w rest, s = w ++ rest /\ matches pat w m.
Proof.
  induction pat as [|i pat IH]; intros s m H.
  - simpl in H. inversion H; subst. exists [], s.
    split; [reflexivity|constructor].
  - destruct i as [c|k|k|k]; simpl in H.
    + destruct s as [|x s]; [discriminate|].
      destruct (ci_match c x) eqn:Hc; [|discriminate].
      apply IH in H as (w & rest & Hs & Hm).
      exists (x :: w), rest. split; [now rewrite Hs|now constructor].
    + destruct s as [|x s]; [discriminate|].
      destruct (in_cls k x) eqn:Hc; [|discriminate].
      apply IH in H as (w & rest & Hs & Hm).
      exists (x :: w), rest. split; [now rewrite Hs|now constructor].
    + apply greedy_sound in H as (g & rest & Hne & Hall & Hs & Hk).
      apply IH in Hk as (w & rest' & Hs' & Hm).
      exists (g ++ w), rest'. split.
      * rewrite Hs, Hs'. now rewrite app_assoc.
      * now constructor.
    + apply greedy_sound in H as (g & rest & Hne & Hall & Hs & Hk).
      destruct (match_here pat rest) as [m'|] eqn:Hm'; [|discriminate].
      simpl in Hk. inversion Hk; subst m.
      apply IH in Hm' as (w & rest' & Hs' & Hm).
      exists (g ++ w), rest'. split.
      * rewrite Hs, Hs'. now rewrite app_assoc.
      * now constructor.
Qed.

Lemma re_search_sound (pat : list item) (s : str) :
  forall m, re_search pat s = Some m ->
    exists pre w post, s = pre ++ w ++ post /\ matches pat w m.
Proof.
  induction s as [|c s IH]; intros m H; simpl in H.
  - destruct (match_here pat []) eqn:E; [|discriminate].
    inversion H; subst. apply match_here_sound in E as (w & rest & Hs & Hm).
    exists [], w, rest. now split.
  - destruct (match_here pat (c :: s)) eqn:E.
    + inversion H; subst. apply match_here_sound in E as (w & rest & Hs & Hm).
      exists [], w, rest. now split.
    + apply IH in H as (pre & w & post & Hs & Hm).
      exists (c :: pre), w, post. split; [now rewrite Hs|exact Hm].
Qed.

(** *** The classes *)

Lemma existsb_eqb_In (c : N) (l : list N) :
  existsb (N.eqb c) l = true <-> In c l.
Proof.
  rewrite existsb_exists. split.
  - intros (x & Hin & Hx). apply N.eqb_eq in Hx. now subst.
  - intro H. exists c. split; [exact H|apply N.eqb_refl].
Qed.

Lemma in_cls_pos (l : list N) (c : N) :
  in_cls (CSet false l) c = true <-> In c l.
Proof. simpl. apply existsb_eqb_In. Qed.

Lemma in_cls_neg (l : list N) (c : N) :
  in_cls (CSet true l) c = true <-> ~ In c l.
Proof.
  unfold in_cls. rewrite <- existsb_eqb_In.
  destruct (existsb (N.eqb c) l); simpl; split; congruence.
Qed.

Lemma is_quote_In (c : N) : is_quote c = true <-> In c [dq; sq].
Proof.
  unfold is_quote. rewrite orb_true_iff, !N.eqb_eq. simpl. intuition.
Qed.

Lemma all_not_gt (g : str) :
  forallb (in_cls cls_not_gt) g = true -> Forall (fun c => c <> 62) g.
Proof.
  rewrite forallb_forall, Forall_forall. intros H c Hc.
  apply H, in_cls_neg in Hc. simpl in Hc. intuition.
Qed.

Lemma all_not_dq_hash (g : str) :
  forallb (in_cls cls_not_dq_hash) g = true ->
  Forall (fun c => c <> dq /\ c <> 35) g.
Proof.
  rewrite forallb_forall, Forall_forall. intros H c Hc.
  apply H, in_cls_neg in Hc. simpl in Hc. intuition.
Qed.

Lemma all_not_quote (g : str) :
  forallb (in_cls cls_not_quote) g = true ->
  Forall (fun c => is_quote c = false) g.
Proof.
  rewrite forallb_forall, Forall_forall. intros H c Hc.
  apply H, in_cls_neg in Hc. apply not_true_iff_false.
  now rewrite is_quote_In.
Qed.

Lemma quote_is_quote (c : N) : in_cls cls_quote c = true -> is_quote c = true.
Proof. unfold cls_quote. rewrite in_cls_pos. apply is_quote_In. Qed.

(** The hash sign of the pattern matches a hash sign only. *)
Lemma ci_match_hash (x : N) : ci_match 35 x = true -> x = 35.
Proof.
  unfold ci_match, re_lower. intro H.
  destruct ((65 <=? x) && (x <=? 90)) eqn:E1.
  - apply andb_true_iff in E1 as [E1 E2].
    apply N.leb_le in E1. apply N.leb_le in E2.
    repeat (apply orb_true_iff in H as [H|H]);
      try (apply andb_true_iff in H as [H _]);
      apply N.eqb_eq in H; lia.
  - destruct (x =? 304) eqn:E2; [|destruct (x =? 8490) eqn:E3];
    repeat (apply orb_true_iff in H as [H|H]);
      try (apply andb_true_iff in H as [H _]);
      apply N.eqb_eq in H; try lia; try discriminate.
Qed.

(** *** The shape of a match of the pattern of the script *)

Lemma matches_lits (cs : str) (pat : list item) :
  forall w m, matches (map Lit cs ++ pat) w m ->
    exists t w', w = t ++ w'
                 /\ Forall2 (fun c x => ci_match c x = true) cs t
                 /\ matches pat w' m.
Proof.
  induction cs as [|c cs IH]; intros w m H; simpl in H.
  - exists [], w. repeat split; [constructor|exact H].
  - inversion H; subst.
    match goal with
    | Hm : matches (map Lit cs ++ pat) _ _ |- _ =>
        apply IH in Hm as (t & w' & Hw & Ht & Hm')
    end.
    exists (x :: t), w'. subst. repeat split; [now constructor|exact Hm'].
Qed.

Lemma matches_lit (c : N) (pat : list item) (w : str) (m : list str) :
  matches (Lit c :: pat) w m ->
  exists x w', w = x :: w' /\ ci_match c x = true /\ matches pat w' m.
Proof. intro H. inversion H; subst. now eexists _, _. Qed.

Lemma matches_cls (k : cls) (pat : list item) (w : str) (m : list str) :
  matches (Cls k :: pat) w m ->
  exists x w', w = x :: w' /\ in_cls k x = true /\ matches pat w' m.
Proof. intro H. inversion H; subst. now eexists _, _. Qed.

Lemma matches_plus (k : cls) (pat : list item) (w : str) (m : list str) :
  matches (Plus k :: pat) w m ->
  exists g w', w = g ++ w' /\ g <> [] /\ forallb (in_cls k) g = true
               /\ matches pat w' m.
Proof. intro H. inversion H; subst. now eexists _, _. Qed.

Lemma matches_group (k : cls) (pat : list item) (w : str) (m : list str) :
  matches (Group k :: pat) w m ->
  exists g w' m', w = g ++ w' /\ m = g :: m' /\ g <> []
                  /\ forallb (in_cls k) g = true /\ matches pat w' m'.
Proof. intro H. inversion H; subst. now eexists _, _, _. Qed.

Lemma bootstrap_re_shape (w : str) (m : list str) :
  matches bootstrap_re w m ->
  exists base frag,
    m = [base; frag]
    /\ forall pre post, bootstrap_tag_in (pre ++ w ++ post) base frag.
Proof.
  unfold bootstrap_re, lits. intro H.
  apply matches_lits in H as (t_script & w1 & -> & Hscript & H).
  apply matches_plus in H as (gap1 & w2 & -> & Hg1 & Hgap1 & H).
  apply matches_lits in H as (t_id & w3 & -> & Hid & H).
  apply matches_cls in H as (q1 & w4 & -> & Hq1 & H).
  apply matches_lits in H as (t_cl & w5 & -> & Hcl & H).
  apply matches_cls in H as (q2 & w6 & -> & Hq2 & H).
  apply matches_plus in H as (gap2 & w7 & -> & Hg2 & Hgap2 & H).
  apply matches_lits in H as (t_src & w8 & -> & Hsrc & H).
  apply matches_cls in H as (q3 & w9 & -> & Hq3 & H).
  apply matches_group in H as (base & w10 & m1 & -> & -> & Hb & Hbase & H).
  apply matches_lit in H as (h & w11 & -> & Hh & H).
  apply matches_group in H as (frag & w12 & m2 & -> & -> & Hf & Hfrag & H).
  apply matches_cls in H as (q4 & w13 & -> & Hq4 & H).
  inversion H; subst. apply ci_match_hash in Hh. subst h.
  exists base, frag. split; [reflexivity|]. intros pre post.
  exists pre, t_script, gap1, t_id, q1, t_cl, q2, gap2, t_src, q3, q4, post.
  repeat split;
    auto using all_not_gt, all_not_dq_hash, all_not_quote, quote_is_quote.
  simpl. repeat (rewrite <- app_assoc; simpl). reflexivity.
Qed.

(** Whatever [re.search] finds in a page is such a tag, and the groups are
    its [base] and its [frag]. *)
Lemma re_search_shape (page : str) (m : list str) :
  re_search bootstrap_re page = Some m ->
  exists base frag, m = [base; frag] /\ bootstrap_tag_in page base frag.
Proof.
  intro H. apply re_search_sound in H as (pre & w & post & -> & H).
  apply bootstrap_re_shape in H as (base & frag & -> & H).
  exists base, frag. split; [reflexivity|apply H].
Qed.

(** *** Counting quotes *)

Lemma nquotes_app (a b : str) : nquotes (a ++ b) = (nquotes a + nquotes b)%nat.
Proof. unfold nquotes. now rewrite filter_app, length_app. Qed.

Lemma nquotes_cons (c : N) (s : str) :
  nquotes (c :: s) = ((if is_quote c then 1 else 0) + nquotes s)%nat.
Proof. unfold nquotes. simpl. now destruct (is_quote c). Qed.






(** *** Steps of the search over a text whose first characters are known *)


Lemma re_search_next (pat : list item) (c : N) (s : str) :
  match_here pat (c :: s) = None ->
  re_search pat (c :: s) = re_search pat s.
Proof. intro H. simpl. now rewrite H. Qed.

Lemma match_lit_ok (c : N) (pat : list item) (x : N) (s : str) :
  ci_match c x = true ->
  match_here (Lit c :: pat) (x :: s) = match_here pat s.
Proof. intro H. simpl. now rewrite H. Qed.

Lemma match_cls_ok (k : cls) (pat : list item) (x : N) (s : str) :
  in_cls k x = true ->
  match_here (Cls k :: pat) (x :: s) = match_here pat s.
Proof. intro H. simpl. now rewrite H. Qed.

(** A repetition fails when it fails from the next character on and the
    rest of the pattern fails right after this character. *)
Lemma plus_none (k : cls) (pat : list item) (c : N) (s : str) :
  match_here (Plus k :: pat) s = None ->
  match_here pat s = None ->
  match_here (Plus k :: pat) (c :: s) = None.
Proof.
  intros H1 H2. simpl. destruct (in_cls k c); [|reflexivity].
  simpl in H1. rewrite H1. exact H2.
Qed.


Ltac eval_strs :=
  repeat match goal with
         | |- context [u ?s] =>
             let t := eval vm_compute in (u s) in change (u s) with t
         | |- context [quoted ?s] =>
             let t := eval vm_compute in (quoted s) in
             change (quoted s) with t
         end;
  cbn [app].


Ltac step_ok :=
  repeat first [rewrite match_lit_ok by reflexivity
               | rewrite match_cls_ok by reflexivity].

(** *** Two tags that the pattern does not match *)



(** *** The tag that the pattern matches *)

(** The fragment of the examples, as text. *)
Example bootstrap_fragment_text :
  bootstrap_fragment = u "eyJuYW1lc3BhY2UiOiJzdGFuZGFyZCIsImFwcElkIjoieCJ9".
Proof. vm_compute. reflexivity. Qed.

Lemma nquotes_nil_cons (x : N) (b : str) :
  quote_free (x :: b) -> is_quote x = false /\ quote_free b.
Proof.
  unfold quote_free. rewrite nquotes_cons.
  destruct (is_quote x); simpl; intro H; [discriminate|auto].
Qed.

Lemma in_cls_quote (x : N) : in_cls cls_quote x = is_quote x.
Proof. unfold is_quote. simpl. now rewrite orb_false_r. Qed.

(** Literals and then a quote do not match inside a text without quotes
    that a hash sign follows. *)
Lemma lits_quote_none (cs : str) (pat : list item) (t : str) :
  Forall (fun c => ci_match c 35 = false) cs ->
  forall b, quote_free b ->
    match_here (map Lit cs ++ Cls cls_quote :: pat) (b ++ 35 :: t) = None.
Proof.
  induction 1 as [|c cs Hc _ IH]; intros b Hb.
  - destruct b as [|x b]; cbn [map app match_here].
    + reflexivity.
    + apply nquotes_nil_cons in Hb as [Hx _].
      now rewrite in_cls_quote, Hx.
  - destruct b as [|x b]; cbn [map app match_here].
    + now rewrite Hc.
    + apply nquotes_nil_cons in Hb as [_ Hb].
      destruct (ci_match c x); [now apply IH|reflexivity].
Qed.

(** A repetition over a text [b] and then [t] fails when it fails over [t]
    and the rest of the pattern fails after every part of [b]. *)
Lemma plus_none_app (k : cls) (pat : list item) (t : str) :
  match_here (Plus k :: pat) t = None ->
  forall b,
    (forall b1 b2,
        b = b1 ++ b2 -> b1 <> [] -> match_here pat (b2 ++ t) = None) ->
    match_here (Plus k :: pat) (b ++ t) = None.
Proof.
  intros Ht. induction b as [|c b IH]; intro H; [exact Ht|].
  simpl app. apply plus_none.
  - apply IH. intros b1 b2 -> Hne.
    apply (H (c :: b1) b2); [reflexivity|discriminate].
  - apply (H [c] b); [reflexivity|discriminate].
Qed.

Lemma quote_free_suffix (b1 b2 : str) :
  quote_free (b1 ++ b2) -> quote_free b2.
Proof. unfold quote_free. rewrite nquotes_app. lia. Qed.

(** When no longer repetition succeeds, one character is the
    repetition. *)
Lemma plus_first (k : cls) (pat : list item) (c : N) (s : str) :
  in_cls k c = true ->
  match_here (Plus k :: pat) s = None ->
  match_here (Plus k :: pat) (c :: s) = match_here pat s.
Proof. intros Hc H. simpl. rewrite Hc. simpl in H. now rewrite H. Qed.

(** A repetition takes all the characters of the class in front of it
    when the continuation succeeds there. *)
Lemma greedy_max {A} (p : N -> bool) (c : N) (t : str) (g : str) :
  forall (k : str -> str -> option A) r,
    g <> [] -> forallb p g = true -> p c = false ->
    k g (c :: t) = Some r ->
    greedy p k (g ++ c :: t) = Some r.
Proof.
  induction g as [|x g IH]; intros k r Hne Hall Hc Hk; [contradiction|].
  simpl in Hall. apply andb_true_iff in Hall as [Hx Hall].
  simpl. rewrite Hx. destruct g as [|y g].
  - simpl. rewrite Hc. exact Hk.
  - rewrite (IH (fun w => k (x :: w)) r);
      [reflexivity|discriminate|exact Hall|exact Hc|exact Hk].
Qed.

Lemma group_max (k : cls) (pat : list item) (g : str) (c : N) (t : str)
  (m : list str) :
  g <> [] -> forallb (in_cls k) g = true -> in_cls k c = false ->
  match_here pat (c :: t) = Some m ->
  match_here (Group k :: pat) (g ++ c :: t) = Some (g :: m).
Proof.
  intros Hne Hall Hc Hm. simpl. apply greedy_max; try assumption.
  now rewrite Hm.
Qed.

Lemma plain_base_class (base : str) :
  plain_base base -> forallb (in_cls cls_not_dq_hash) base = true.
Proof.
  intros (_ & Hq & Hh). apply forallb_forall. intros x Hx.
  apply in_cls_neg. intros [E|[E|[]]].
  - subst x. apply in_split in Hx as (a & b & ->).
    apply quote_free_suffix in Hq.
    now apply nquotes_nil_cons in Hq as [Hq _].
  - subst x. contradiction.
Qed.

(** The match at the start of the tag: the groups are the value before
    the hash sign and the fragment, whatever follows the tag. *)
Lemma tag_id_first_matches (base rest : str) :
  plain_base base ->
  match_here bootstrap_re (tag_id_first base bootstrap_fragment ++ rest)
  = Some [base; bootstrap_fragment].
Proof.
  intros Hbase. pose proof (plain_base_class base Hbase) as Hcls.
  destruct Hbase as (Hne & Hq & Hh).
  unfold tag_id_first. rewrite bootstrap_fragment_text.
  let p := eval vm_compute in bootstrap_re in change bootstrap_re with p.
  eval_strs. repeat (rewrite <- app_assoc; cbn [app]).
  assert (Hlits : forall cs pat t b1 b2,
             Forall (fun c => ci_match c 35 = false) cs ->
             base = b1 ++ b2 ->
             match_here (map Lit cs ++ Cls cls_quote :: pat) (b2 ++ 35 :: t)
             = None).
  { intros cs pat t b1 b2 Hcs ->. apply lits_quote_none; [exact Hcs|].
    now apply quote_free_suffix in Hq. }
  do 7 (rewrite match_lit_ok by reflexivity).
  rewrite plus_first; [|reflexivity|].
  - step_ok. rewrite plus_first; [|reflexivity|].
    + step_ok. apply group_max; try assumption; [reflexivity|].
      rewrite match_lit_ok by reflexivity. reflexivity.
    + do 5 (apply plus_none;
            [|first [reflexivity
                    | apply (Hlits [115; 114; 99; 61] _ _ [] base);
                      [repeat constructor|reflexivity]]]).
      apply plus_none_app; [reflexivity|].
      intros b1 b2 Hb _.
      apply (Hlits [115; 114; 99; 61] _ _ b1 b2);
        [repeat constructor|exact Hb].
  - do 23 (apply plus_none;
           [|first [reflexivity
                   | apply (Hlits [105; 100; 61] _ _ [] base);
                     [repeat constructor|reflexivity]]]).
    apply plus_none_app; [reflexivity|].
    intros b1 b2 Hb _.
    apply (Hlits [105; 100; 61] _ _ b1 b2); [repeat constructor|exact Hb].
Qed.

(** No [<script] in the text before. *)
Lemma lits_none_before (cs : str) (pat : list item) (x : N) (t : str) :
  Forall (fun c => ci_match c x = false) cs ->
  forall a, match_here (map Lit cs) a = None ->
            match_here (map Lit cs ++ pat) (a ++ x :: t) = None.
Proof.
  induction 1 as [|c cs Hc _ IH]; intros a Ha.
  - discriminate.
  - destruct a as [|y a]; cbn [map app match_here] in *.
    + now rewrite Hc.
    + destruct (ci_match c y); [now apply IH|reflexivity].
Qed.

Lemma re_search_cons_none (pat : list item) (y : N) (s : str) :
  re_search pat (y :: s) = None ->
  match_here pat (y :: s) = None /\ re_search pat s = None.
Proof.
  simpl. destruct (match_here pat (y :: s)); [discriminate|auto].
Qed.

Lemma match_lit_fail (c : N) (pat : list item) (x : N) (s : str) :
  ci_match c x = false -> match_here (Lit c :: pat) (x :: s) = None.
Proof. intro H. simpl. now rewrite H. Qed.

Lemma re_search_after_lits (sc : str) (pat : list item) (t : str) :
  Forall (fun c => ci_match c 60 = false) sc ->
  forall pre,
    re_search (Lit 60 :: map Lit sc) pre = None ->
    re_search (Lit 60 :: map Lit sc ++ pat) (pre ++ 60 :: t)
    = re_search (Lit 60 :: map Lit sc ++ pat) (60 :: t).
Proof.
  intro Hsc. induction pre as [|y pre IH]; intro H; [reflexivity|].
  apply re_search_cons_none in H as [E H].
  cbn [app]. rewrite re_search_next; [now apply IH|].
  destruct (ci_match 60 y) eqn:Ey.
  - rewrite match_lit_ok in E |- * by exact Ey.
    now apply lits_none_before.
  - now apply match_lit_fail.
Qed.

Lemma re_search_after (pre : str) (pat : list item) (t : str) :
  re_search (lits "<script") pre = None ->
  re_search (lits "<script" ++ pat) (pre ++ 60 :: t)
  = re_search (lits "<script" ++ pat) (60 :: t).
Proof.
  apply (re_search_after_lits (u "script")).
  vm_compute. repeat constructor.
Qed.

(** The tag is what [re.search] finds when no [<script] comes before. *)
Lemma tag_id_first_found (pre base rest : str) :
  re_search (lits "<script") pre = None ->
  plain_base base ->
  re_search bootstrap_re (pre ++ tag_id_first base bootstrap_fragment ++ rest)
  = Some [base; bootstrap_fragment].
Proof.
  intros Hpre Hbase.
  pose proof (tag_id_first_matches base rest Hbase) as Hm.
  unfold bootstrap_re in *. unfold tag_id_first in *.
  change (u "<script id=") with (60 :: u "script id=") in *.
  cbn [app] in *.
  rewrite re_search_after by exact Hpre.
  simpl re_search.
  match goal with
  | H : ?a = Some _ |- match ?b with _ => _ end = _ =>
      change b with a; rewrite H
  end.
  reflexivity.
Qed.

(** ** [parse_bootstrap_config] *)

(** *** The decoders raise nothing that [except Exception] lets through *)

Lemma no_exit_rbind {A B} (r : result A) (f : A -> result B) :
  no_exit r -> (forall a, no_exit (f a)) -> no_exit (rbind r f).
Proof. destruct r as [a|[c|cl msg]]; simpl; auto. Qed.

Lemma a2b_base64_loop_no_exit (s : list N) :
  forall quad_pos leftchar pads out,
    no_exit (a2b_base64_loop s quad_pos leftchar pads out).
Proof.
  induction s as [|c s IH]; intros; simpl;
    repeat match goal with
           | |- context [if ?b then _ else _] => destruct b
           | |- context [match b64_value ?c with _ => _ end] =>
               destruct (b64_value c)
           end; simpl; auto.
Qed.

Lemma b64decode_no_exit (s : str) : no_exit (b64decode s).
Proof.
  unfold b64decode. destruct (forallb _ s); simpl; [|exact I].
  apply a2b_base64_loop_no_exit.
Qed.

Lemma decode_utf8_no_exit_upto (n : nat) :
  forall b, (List.length b <= n)%nat -> no_exit (decode_utf8 b).
Proof.
  induction n as [|n IH]; intros b Hn.
  - destruct b; [exact I|simpl in Hn; lia].
  - destruct b as [|b0 r]; [exact I|]. simpl in Hn. cbn [decode_utf8].
    repeat match goal with
           | |- context [if ?c then _ else _] => destruct c
           | |- no_exit (match ?l with [] => _ | _ :: _ => _ end) =>
               destruct l; simpl in Hn
           | |- no_exit (rbind _ _) =>
               apply no_exit_rbind; [apply IH; lia|intro; exact I]
           | |- no_exit (Raise utf8_error) => exact I
           end.
Qed.

Lemma decode_utf8_no_exit (b : bytes) : no_exit (decode_utf8 b).
Proof. now apply (decode_utf8_no_exit_upto (List.length b)). Qed.

Lemma json_loads_no_exit (s : str) : no_exit (json_loads s).
Proof.
  unfold json_loads.
  destruct (match s with c :: _ => c =? 65279 | [] => false end);
    [exact I|].
  destruct (scan_once _ (skip_ws s)) as [[v rest]|]; [|exact I].
  destruct (skip_ws rest); exact I.
Qed.

Lemma try_except_no_exit {A} (body : result A) (a : A) :
  no_exit body -> exists v, try_except body (fun _ => Ok a) = Ok v.
Proof.
  destruct body as [v|[c|cl msg]]; simpl; intro H; eauto. contradiction.
Qed.

Lemma try_except_raise {A} (e : exn) (a : A) :
  no_exit (@Raise A e) -> try_except (Raise e) (fun _ => Ok a) = Ok a.
Proof. destruct e; simpl; [contradiction|reflexivity]. Qed.

(** *** The four ways through the function *)

Lemma parse_total (page : str) : exists v, parse_bootstrap_config page = Ok v.
Proof.
  unfold parse_bootstrap_config.
  destruct (re_search bootstrap_re page) as [m|]; [|eauto].
  apply try_except_no_exit.
  apply no_exit_rbind; [apply b64decode_no_exit|]. intro raw.
  apply no_exit_rbind; [apply decode_utf8_no_exit|]. intro decoded.
  apply no_exit_rbind; [apply json_loads_no_exit|]. intro; exact I.
Qed.

Lemma parse_no_match (page : str) :
  re_search bootstrap_re page = None ->
  parse_bootstrap_config page = Ok VNone.
Proof. unfold parse_bootstrap_config. now intros ->. Qed.

Lemma parse_bad_base64 (page : str) (m : list str) (e : exn) :
  re_search bootstrap_re page = Some m ->
  b64decode (group m 2) = Raise e ->
  parse_bootstrap_config page = Ok VNone.
Proof.
  unfold parse_bootstrap_config. intros -> H.
  pose proof (b64decode_no_exit (group m 2)) as Hn. rewrite H in *.
  simpl. now apply try_except_raise.
Qed.

Lemma parse_bad_utf8 (page : str) (m : list str) (raw : bytes) (e : exn) :
  re_search bootstrap_re page = Some m ->
  b64decode (group m 2) = Ok raw ->
  decode_utf8 raw = Raise e ->
  parse_bootstrap_config page = Ok VNone.
Proof.
  unfold parse_bootstrap_config. intros -> H1 H2.
  pose proof (decode_utf8_no_exit raw) as Hn.
  rewrite H1. simpl. rewrite H2 in *. simpl. now apply try_except_raise.
Qed.

Lemma parse_match (page : str) (m : list str) (raw : bytes) (decoded : str)
  (config : pyval) :
  re_search bootstrap_re page = Some m ->
  b64decode (group m 2) = Ok raw ->
  decode_utf8 raw = Ok decoded ->
  json_loads decoded = Ok config ->
  parse_bootstrap_config page = Ok config.
Proof.
  unfold parse_bootstrap_config. intros -> H1 H2 H3.
  rewrite H1. simpl. rewrite H2. simpl. rewrite H3. reflexivity.
Qed.

(** C8.  [parse_bootstrap_config] returns on every page and lets no
    exception escape; it returns [None] when no tag matches, when the
    fragment of the tag found is not base64 that [b64decode] accepts, and
    when the decoded bytes are not UTF-8. *)
Theorem C8_parse_bootstrap_config_total :
  forall page : str,
    (exists v, parse_bootstrap_config page = Ok v)
    /\ (re_search bootstrap_re page = None ->
        parse_bootstrap_config page = Ok VNone)
    /\ (forall m e,
           re_search bootstrap_re page = Some m ->
           b64decode (group m 2) = Raise e ->
           parse_bootstrap_config page = Ok VNone)
    /\ (forall m raw e,
           re_search bootstrap_re page = Some m ->
           b64decode (group m 2) = Ok raw ->
           decode_utf8 raw = Raise e ->
           parse_bootstrap_config page = Ok VNone).
Proof.
  intro page. split; [apply parse_total|]. split; [apply parse_no_match|].
  split.
  - intros m e. apply parse_bad_base64.
  - intros m raw e. apply parse_bad_utf8.
Qed.

Lemma C8_parse_bootstrap_config_total_witness :
  parse_bootstrap_config page_without_tag = Ok VNone
  /\ parse_bootstrap_config bad_base64_page = Ok VNone
  /\ parse_bootstrap_config bad_utf8_page = Ok VNone.
Proof.
  split; [|split].
  - apply (proj1 (proj2 (C8_parse_bootstrap_config_total page_without_tag))).
    vm_compute. reflexivity.
  - eapply (proj1 (proj2 (proj2
                            (C8_parse_bootstrap_config_total bad_base64_page)))).
    + vm_compute. reflexivity.
    + vm_compute. reflexivity.
  - eapply (proj2 (proj2 (proj2
                            (C8_parse_bootstrap_config_total bad_utf8_page)))).
    + vm_compute. reflexivity.
    + vm_compute. reflexivity.
    + vm_compute. reflexivity.
Defined.

(** [b64decode] skips the characters that are not of its alphabet, so a
    fragment that holds some is not invalid for it: here [e!3!0=] decodes
    as [e30=] does, to the text of the empty object. *)
Example lenient_base64 :
  b64decode (u "e!3!0=") = b64decode (u "e30=")
  /\ parse_bootstrap_config (tag_id_first (u "/static/boot.js") (u "e!3!0="))
     = Ok (VDict []).
Proof. split; vm_compute; reflexivity. Qed.

(** C2.  The fragment of [array_page] is the base64 text of [[1]], which
    is JSON and not a JSON object; [parse_bootstrap_config] returns the
    list and not [None]. *)
Theorem C2_json_array_is_returned :
  b64decode array_fragment = Ok (encode_utf8 (u "[1]"))
  /\ decode_utf8 (encode_utf8 (u "[1]")) = Ok (u "[1]")
  /\ json_loads (u "[1]") = Ok (VList [VInt 1])
  /\ parse_bootstrap_config array_page = Ok (VList [VInt 1])
  /\ parse_bootstrap_config array_page <> Ok VNone.
Proof.
  repeat split; try (vm_compute; reflexivity).
  vm_compute. discriminate.
Qed.

(** A JSON object comes back as the dict it denotes. *)
Lemma bootstrap_fragment_decodes :
  b64decode bootstrap_fragment = Ok (encode_utf8 bootstrap_json)
  /\ decode_utf8 (encode_utf8 bootstrap_json) = Ok bootstrap_json
  /\ json_loads bootstrap_json = Ok bootstrap_mapping.
Proof. repeat split; vm_compute; reflexivity. Qed.

(** C9, as stated, fails: [src_first_page] holds a script tag with
    [id="cl-bootstrap"] whose [src] ends in a hash sign and the base64
    text of the JSON object, and the function returns [None]. *)
Lemma C9_src_before_id_returns_none :
  src_first_page
  = u "<html><head>"
    ++ (u "<script src=" ++ dq :: u "/static/boot.js" ++ 35
          :: b64encode (encode_utf8 bootstrap_json) ++ dq
          :: u " id=" ++ quoted "cl-bootstrap" ++ u ">")
    ++ u "</script></head><body></body></html>"
  /\ parse_bootstrap_config src_first_page = Ok VNone
  /\ parse_bootstrap_config src_first_page <> Ok bootstrap_mapping.
Proof.
  split; [reflexivity|]. split; [vm_compute; reflexivity|].
  vm_compute. discriminate.
Qed.

(** C9, amended.  When the first match of the pattern in a page, a script
    tag with [id="cl-bootstrap"] before [src], has for fragment the base64
    text of the UTF-8 bytes of [{"namespace":"standard","appId":"x"}],
    [parse_bootstrap_config] returns exactly that mapping; so it does on
    every page whose first [<script] opens the tag
    [<script id="cl-bootstrap" src="base#fragment">] with that fragment and
    a [base] that is not empty and has neither quote nor hash sign. *)
Theorem C9_round_trip :
  forall (page : str) (m : list str) (pre base rest : str),
    (re_search bootstrap_re page = Some m ->
     group m 2 = b64encode (encode_utf8 bootstrap_json) ->
     parse_bootstrap_config page = Ok bootstrap_mapping)
    /\ (re_search (lits "<script") pre = None ->
        plain_base base ->
        parse_bootstrap_config
          (pre ++ tag_id_first base (b64encode (encode_utf8 bootstrap_json))
           ++ rest)
        = Ok bootstrap_mapping).
Proof.
  intros page m pre base rest.
  destruct bootstrap_fragment_decodes as (H1 & H2 & H3).
  split.
  - intros Hm Hfrag.
    apply (parse_match page m (encode_utf8 bootstrap_json) bootstrap_json);
      try assumption.
    rewrite Hfrag. exact H1.
  - intros Hpre Hbase.
    apply (parse_match _ [base; bootstrap_fragment]
             (encode_utf8 bootstrap_json) bootstrap_json);
      try assumption.
    now apply tag_id_first_found.
Qed.

Lemma C9_round_trip_witness :
  parse_bootstrap_config bootstrap_page = Ok bootstrap_mapping
  /\ parse_bootstrap_config
       (u "<html><head><title>Portal</title>"
        ++ tag_id_first (u "https://cdn.example.com/boot.js?v=3")
                        (b64encode (encode_utf8 bootstrap_json))
        ++ u "</script><script src='app.js#main'></script></head></html>")
     = Ok bootstrap_mapping.
Proof.
  split.
  - apply (proj1 (C9_round_trip bootstrap_page
                    [u "/static/boot.js"; bootstrap_fragment] [] [] [])).
    + vm_compute. reflexivity.
    + reflexivity.
  - apply (proj2 (C9_round_trip [] []
                    (u "<html><head><title>Portal</title>")
                    (u "https://cdn.example.com/boot.js?v=3")
                    (u "</script><script src='app.js#main'></script></head></html>"))).
    + vm_compute. reflexivity.
    + repeat split.
      * discriminate.
      * vm_compute. intuition discriminate.
Defined.



(** ** The locator and the fetchers *)

Section ScriptProperties.

Context (P : Platform).

Lemma py_eq_str (v : pyval) (s : str) :
  py_eq P v (VStr s) = match v with VStr t => str_eqb t s | _ => false end.
Proof. destruct v; reflexivity. Qed.

Lemma base_folder_standard : base_folder P (VStr (u "standard")) = u "apps".
Proof. reflexivity. Qed.

Lemma base_folder_other (namespace : pyval) :
  namespace <> VStr (u "standard") ->
  base_folder P namespace = u "internal-apps".
Proof.
  intro H. unfold base_folder. rewrite py_eq_str.
  destruct namespace; try reflexivity.
  rewrite str_eqb_neq; [reflexivity|]. intro E. apply H. now rewrite E.
Qed.

(** Whatever the answer, [load_apps_config] issues one request. *)
Lemma load_apps_config_events (cdn_host : str) (namespace : pyval) :
  fst (load_apps_config P cdn_host namespace)
  = [EGet (apps_url cdn_host (base_folder P namespace)) 10].
Proof.
  unfold load_apps_config, requests_get, apps_url. simpl.
  destruct (http_get P _ 10) as [resp|e]; [|reflexivity].
  destruct (raise_for_status resp) as [[]|e]; [|reflexivity]. simpl.
  destruct (json resp); reflexivity.
Qed.

Lemma fetch_entry_assets_events (cdn_host : str)
  (namespace repo version : pyval) :
  fst (fetch_entry_assets P cdn_host namespace repo version)
  = [EGet (entry_assets_url cdn_host (base_folder P namespace)
                            (py_str P repo) (py_str P version)) 10].
Proof.
  unfold fetch_entry_assets, requests_get, entry_assets_url. simpl.
  destruct (http_get P _ 10) as [resp|e]; [|reflexivity].
  destruct (raise_for_status resp) as [[]|e]; [|reflexivity]. simpl.
  destruct (json resp); reflexivity.
Qed.

(** C5.  With the namespace ["standard"] both fetchers issue one GET with
    timeout 10 under the folder [apps], with any other namespace under the
    folder [internal-apps]: [load_apps_config] to
    [{host}/web/{folder}/_config/apps.json], [fetch_entry_assets] to
    [{host}/web/{folder}/{repo}/{version}/entry-assets.json]. *)
Theorem C5_fetch_urls :
  forall (cdn_host : str) (namespace : pyval) (repo version : str),
    (namespace = VStr (u "standard") ->
     fst (load_apps_config P cdn_host namespace)
     = [EGet (apps_url cdn_host (u "apps")) 10]
     /\ fst (fetch_entry_assets P cdn_host namespace (VStr repo)
                                (VStr version))
        = [EGet (entry_assets_url cdn_host (u "apps") repo version) 10])
    /\ (namespace <> VStr (u "standard") ->
        fst (load_apps_config P cdn_host namespace)
        = [EGet (apps_url cdn_host (u "internal-apps")) 10]
        /\ fst (fetch_entry_assets P cdn_host namespace (VStr repo)
                                   (VStr version))
           = [EGet (entry_assets_url cdn_host (u "internal-apps") repo
                                     version) 10]).
Proof.
  intros cdn_host namespace repo version. split; intro H.
  - subst namespace.
    rewrite load_apps_config_events, fetch_entry_assets_events.
    now rewrite base_folder_standard.
  - rewrite load_apps_config_events, fetch_entry_assets_events.
    now rewrite (base_folder_other namespace H).
Qed.

(** *** [find_app] *)

Lemma find_app_cons (d : list (str * pyval)) (apps : list (list (str * pyval)))
  (app_id : str) :
  find_app P (VList (map VDict (d :: apps))) (VStr app_id)
  = match dict_get d (u "id") with
    | Some (VStr s) =>
        if str_eqb s app_id then Ok (VDict d)
        else find_app P (VList (map VDict apps)) (VStr app_id)
    | _ => find_app P (VList (map VDict apps)) (VStr app_id)
    end.
Proof.
  unfold find_app, py_iter. simpl. rewrite py_eq_str.
  destruct (dict_get d (u "id")) as [[| | | |s| |]|]; reflexivity.
Qed.

Lemma find_app_skip (d : list (str * pyval)) (apps : list (list (str * pyval)))
  (app_id : str) :
  dict_get d (u "id") <> Some (VStr app_id) ->
  find_app P (VList (map VDict (d :: apps))) (VStr app_id)
  = find_app P (VList (map VDict apps)) (VStr app_id).
Proof.
  intro H. rewrite find_app_cons.
  destruct (dict_get d (u "id")) as [[| | | |s| |]|]; try reflexivity.
  rewrite str_eqb_neq; [reflexivity|]. intro E. apply H. now rewrite E.
Qed.

Lemma find_app_hit (d : list (str * pyval)) (apps : list (list (str * pyval)))
  (app_id : str) :
  dict_get d (u "id") = Some (VStr app_id) ->
  find_app P (VList (map VDict (d :: apps))) (VStr app_id) = Ok (VDict d).
Proof.
  intro H. rewrite find_app_cons, H.
  now rewrite (proj2 (str_eqb_eq app_id app_id) eq_refl).
Qed.

(** C4.  Over a list of descriptors [find_app] returns the first one, in
    the order of the list, whose [id] is the identifier, and [None] when
    there is none; over [[{"id":"a",...},{"id":"b",...}]] it returns the
    second descriptor for ["b"] and [None] for ["c"]. *)
Theorem C4_find_app_first_match :
  forall (apps : list (list (str * pyval))) (app_id : str),
    (forall pre d post,
        apps = pre ++ d :: post ->
        Forall (fun x => dict_get x (u "id") <> Some (VStr app_id)) pre ->
        dict_get d (u "id") = Some (VStr app_id) ->
        find_app P (VList (map VDict apps)) (VStr app_id) = Ok (VDict d))
    /\ (Forall (fun x => dict_get x (u "id") <> Some (VStr app_id)) apps ->
        find_app P (VList (map VDict apps)) (VStr app_id) = Ok VNone)
    /\ (forall more_a more_b,
           let a := (u "id", VStr (u "a")) :: more_a in
           let b := (u "id", VStr (u "b")) :: more_b in
           find_app P (VList [VDict a; VDict b]) (VStr (u "b")) = Ok (VDict b)
           /\ find_app P (VList [VDict a; VDict b]) (VStr (u "c")) = Ok VNone).
Proof.
  intros apps app_id. split; [|split].
  - intros pre d post -> Hpre Hd.
    induction Hpre as [|x pre Hx _ IH]; simpl app.
    + now apply find_app_hit.
    + rewrite find_app_skip by exact Hx. exact IH.
  - induction 1 as [|x apps Hx _ IH]; [reflexivity|].
    rewrite find_app_skip by exact Hx. exact IH.
  - intros more_a more_b a b. split; reflexivity.
Qed.

End ScriptProperties.

Lemma C5_fetch_urls_witness :
  let P := offline_platform in
  (fst (load_apps_config P (u "https://cloverstatic.com")
                         (VStr (u "standard")))
   = [EGet (u "https://cloverstatic.com/web/apps/_config/apps.json") 10]
   /\ fst (fetch_entry_assets P (u "https://cloverstatic.com")
                              (VStr (u "standard")) (VStr (u "portal"))
                              (VStr (u "3.2.1")))
      = [EGet (u "https://cloverstatic.com/web/apps/portal/3.2.1/entry-assets.json")
              10])
  /\ (fst (load_apps_config P (u "https://dev.cloverstatic.com")
                            (VStr (u "internal")))
      = [EGet (u "https://dev.cloverstatic.com/web/internal-apps/_config/apps.json")
              10]
      /\ fst (fetch_entry_assets P (u "https://dev.cloverstatic.com")
                                 (VStr (u "internal")) (VStr (u "portal"))
                                 (VStr (u "3.2.1")))
         = [EGet (u "https://dev.cloverstatic.com/web/internal-apps/portal/3.2.1/entry-assets.json")
                 10]).
Proof.
  intro P. split.
  - apply (proj1 (C5_fetch_urls P (u "https://cloverstatic.com")
                    (VStr (u "standard")) (u "portal") (u "3.2.1"))).
    reflexivity.
  - apply (proj2 (C5_fetch_urls P (u "https://dev.cloverstatic.com")
                    (VStr (u "internal")) (u "portal") (u "3.2.1"))).
    discriminate.
Defined.

Lemma C4_find_app_first_match_witness :
  let P := offline_platform in
  let a := [(u "id", VStr (u "a")); (u "repo", VStr (u "alpha"))] in
  let b := [(u "id", VStr (u "b")); (u "repo", VStr (u "beta"))] in
  let b' := [(u "id", VStr (u "b")); (u "repo", VStr (u "gamma"))] in
  find_app P (VList (map VDict [a; b; b'])) (VStr (u "b")) = Ok (VDict b)
  /\ find_app P (VList (map VDict [a; b; b'])) (VStr (u "c")) = Ok VNone.
Proof.
  intros P a b b'.
  destruct (C4_find_app_first_match P [a; b; b'] (u "b")) as (H1 & _ & _).
  destruct (C4_find_app_first_match P [a; b; b'] (u "c")) as (_ & H2 & _).
  split.
  - apply (H1 [a] b [b']).
    + reflexivity.
    + repeat constructor. vm_compute. discriminate.
    + reflexivity.
  - apply H2. repeat constructor; vm_compute; discriminate.
Defined.

(** ** [main] *)

Lemma raise_for_status_error (resp : Response) :
  (400 <= status_code resp < 600)%Z ->
  exists msg,
    raise_for_status resp
    = Raise (Exception (u "requests.exceptions.HTTPError") msg).
Proof.
  intro H. unfold raise_for_status.
  destruct ((400 <=? status_code resp) && (status_code resp <? 500))%Z eqn:E1.
  - eauto.
  - destruct ((500 <=? status_code resp) && (status_code resp <? 600))%Z eqn:E2.
    + eauto.
    + apply andb_false_iff in E1, E2.
      rewrite !Z.leb_gt, !Z.ltb_ge in *. lia.
Qed.

Lemma raise_for_status_ok (resp : Response) :
  (status_code resp < 400 \/ 600 <= status_code resp)%Z ->
  raise_for_status resp = Ok tt.
Proof.
  intro H. unfold raise_for_status.
  destruct ((400 <=? status_code resp) && (status_code resp <? 500))%Z eqn:E1.
  - apply andb_true_iff in E1. rewrite Z.leb_le, Z.ltb_lt in E1. lia.
  - destruct ((500 <=? status_code resp) && (status_code resp <? 600))%Z eqn:E2.
    + apply andb_true_iff in E2. rewrite Z.leb_le, Z.ltb_lt in E2. lia.
    + reflexivity.
Qed.

Section MainProperties.

Context (P : Platform).

(** The fetch of the apps manifest fails: no answer, or an answer with a
    status from 400 to 599. *)
Lemma load_apps_config_fails (cdn_host : str) (namespace : pyval) :
  (exists cls msg,
      http_get P (apps_url cdn_host (base_folder P namespace)) 10
      = Raise (Exception cls msg))
  \/ (exists resp,
         http_get P (apps_url cdn_host (base_folder P namespace)) 10 = Ok resp
         /\ (400 <= status_code resp < 600)%Z) ->
  exists cls msg,
    load_apps_config P cdn_host namespace
    = ([EGet (apps_url cdn_host (base_folder P namespace)) 10],
       Raise (Exception cls msg)).
Proof.
  unfold load_apps_config, requests_get, apps_url.
  intros [(cls & msg & H)|(resp & H & Hst)]; rewrite H; simpl.
  - eauto.
  - apply raise_for_status_error in Hst as (msg & Hst). rewrite Hst. simpl.
    eauto.
Qed.

(** An exception on the fetch of the page: one line on standard error,
    status 1 (lines 90-92). *)
Lemma main_page_exception (argv0 url0 : str) (rest : list str)
  (parsed1 parsed2 : str * option str) (cls msg : str) :
  urlparse P url0 = Ok parsed1 ->
  urlparse P (with_scheme (fst parsed1) url0) = Ok parsed2 ->
  http_get P (with_scheme (fst parsed1) url0) 10 = Raise (Exception cls msg) ->
  run (main P (argv0 :: url0 :: rest))
  = ([EGet (with_scheme (fst parsed1) url0) 10;
      EErr (u "Error fetching " ++ with_scheme (fst parsed1) url0 ++ u ": "
            ++ msg)],
     Exited 1).
Proof.
  intros H1 H2 H3. unfold main. rewrite H1. simpl. rewrite H2. simpl.
  unfold requests_get. rewrite H3. reflexivity.
Qed.

(** C7, amended.  When the fetch of the apps manifest gets no answer or an
    answer with a status from 400 to 599 (HTTP 500 for one), the process
    writes a line that starts with [Unable to load apps configuration:] on
    standard error, and nothing else after its request, and exits with
    status 1. *)
Theorem C7_apps_fetch_failure :
  forall (argv : list str) (input_url cdn_host : str)
         (namespace app_id : pyval),
    reaches_apps P argv input_url cdn_host namespace app_id ->
    (exists cls msg,
        http_get P (apps_url cdn_host (base_folder P namespace)) 10
        = Raise (Exception cls msg))
    \/ (exists resp,
           http_get P (apps_url cdn_host (base_folder P namespace)) 10
           = Ok resp
           /\ (400 <= status_code resp < 600)%Z) ->
    exists msg,
      run (main P argv)
      = ([EGet input_url 10;
          EGet (apps_url cdn_host (base_folder P namespace)) 10;
          EErr (u "Unable to load apps configuration: " ++ msg)],
         Exited 1).
Proof.
  intros argv input_url cdn_host namespace app_id
         (config & (argv0 & url0 & rest & p1 & p2 & resp & -> & H1 & -> & H2
                    & -> & H3 & H4) & H5) Hfail.
  apply load_apps_config_fails in Hfail as (cls & msg & Hfail).
  exists msg. unfold main. rewrite H1. simpl. rewrite H2. simpl.
  unfold requests_get. rewrite H3. simpl. rewrite H4. simpl.
  rewrite H5. simpl. rewrite Hfail. simpl. reflexivity.
Qed.

Lemma run_raise (l : list event) (e : exn) :
  run (l, Raise e) = (l, uncaught e).
Proof. destruct e; reflexivity. Qed.

Lemma print_ok (s : str) :
  stdout_write P s = Ok tt -> print P s = ([EOut s], Ok tt).
Proof. unfold print. now intros ->. Qed.

Lemma print_raise (s : str) (e : exn) :
  stdout_write P s = Raise e -> print P s = ([], Raise e).
Proof. unfold print. now intros ->. Qed.

(** After an exception the loop prints nothing more. *)
Lemma print_all_raised (paths : list pyval) (acc : list event) (e : exn) :
  fold_left (fun acc path => bind acc (fun _ => print P (py_str P path))) paths
            (acc, Raise e)
  = (acc, Raise e).
Proof. induction paths as [|p paths IH]; simpl; auto. Qed.

Lemma print_all_from (paths : list pyval) :
  forall (acc : list event),
    Forall (fun p => stdout_write P (py_str P p) = Ok tt) paths ->
    fold_left (fun acc path => bind acc (fun _ => print P (py_str P path)))
              paths (acc, Ok tt)
    = (acc ++ map (fun p => EOut (py_str P p)) paths, Ok tt).
Proof.
  induction paths as [|p paths IH]; intros acc H; simpl.
  - now rewrite app_nil_r.
  - inversion H as [|? ? Hp Hrest]; subst.
    rewrite (print_ok _ Hp), IH by assumption. now rewrite <- app_assoc.
Qed.

(** [print_all] prints the paths in their order, one [print] each, as
    long as standard output takes them. *)
Lemma print_all_events (paths : list pyval) :
  Forall (fun p => stdout_write P (py_str P p) = Ok tt) paths ->
  print_all P paths = (map (fun p => EOut (py_str P p)) paths, Ok tt).
Proof. intro H. unfold print_all, ret. now rewrite print_all_from. Qed.

(** The first path that standard output refuses ends the loop with the
    exception of standard output, after the lines of the paths before
    it. *)
Lemma print_all_stops (before after : list pyval) (path : pyval) (e : exn) :
  Forall (fun p => stdout_write P (py_str P p) = Ok tt) before ->
  stdout_write P (py_str P path) = Raise e ->
  print_all P (before ++ path :: after)
  = (map (fun p => EOut (py_str P p)) before, Raise e).
Proof.
  intros Hb Hp. unfold print_all, ret.
  rewrite fold_left_app, print_all_from by assumption. simpl.
  rewrite (print_raise _ _ Hp), app_nil_r. apply print_all_raised.
Qed.

(** Every list is printed whole, or up to a first refused path. *)
Lemma print_all_cases (paths : list pyval) :
  Forall (fun p => stdout_write P (py_str P p) = Ok tt) paths
  \/ exists before path after e,
       paths = before ++ path :: after
       /\ Forall (fun p => stdout_write P (py_str P p) = Ok tt) before
       /\ stdout_write P (py_str P path) = Raise e.
Proof.
  induction paths as [|p paths IH].
  - left. constructor.
  - destruct (stdout_write P (py_str P p)) as [[]|e] eqn:E.
    + destruct IH as [IH|(before & path & after & e & -> & Hb & Hp)].
      * left. now constructor.
      * right. exists (p :: before), path, after, e.
        repeat split; auto.
    + right. exists [], p, paths, e. repeat split; auto.
Qed.

(** A run that gets its entry assets goes on with lines 119-124. *)
Lemma main_with_assets (argv : list str) (input_url cdn_host : str)
  (namespace repo version : pyval) (resp : Response)
  (ea : list (str * pyval)) :
  reaches_assets P argv input_url cdn_host namespace repo version ->
  http_get P (entry_assets_url cdn_host (base_folder P namespace)
                               (py_str P repo) (py_str P version)) 10
  = Ok resp ->
  raise_for_status resp = Ok tt ->
  json resp = Ok (VDict ea) ->
  let js_files :=
    match dict_get ea (u "js") with Some x => x | None => VList [] end in
  main P argv
  = bind ([EGet input_url 10;
           EGet (apps_url cdn_host (base_folder P namespace)) 10;
           EGet (entry_assets_url cdn_host (base_folder P namespace)
                                  (py_str P repo) (py_str P version)) 10],
          Ok tt)
      (fun _ => if negb (py_truthy P js_files)
                then print P (u "No JS bundles found.")
                else bind (lift (py_iter js_files)) (print_all P)).
Proof.
  intros (app_id & r2 & apps & app
          & (config & (argv0 & url0 & rest & p1 & p2 & r1 & -> & H1 & -> & H2
                       & -> & H3 & H4) & H5)
          & G1 & G2 & G3 & G4 & G5 & G6 & G7) K1 K2 K3 js_files.
  unfold main. rewrite H1. simpl. rewrite H2. simpl.
  unfold requests_get. rewrite H3. simpl. rewrite H4. simpl.
  rewrite H5. simpl. unfold load_apps_config, requests_get.
  fold (apps_url (cdn_host_of
                    (determine_env_type
                       match snd p2 with Some h => h | None => [] end))
                 (base_folder P namespace)).
  rewrite G1. simpl. rewrite G2. simpl. rewrite G3. simpl.
  rewrite G4. simpl. rewrite G5. simpl. rewrite G6. simpl. rewrite G7. simpl.
  unfold fetch_entry_assets, requests_get.
  match goal with
  | |- context [http_get P ?url 10] =>
      change url with
        (entry_assets_url
           (cdn_host_of
              (determine_env_type
                 match snd p2 with Some h => h | None => [] end))
           (base_folder P namespace) (py_str P repo) (py_str P version))
  end.
  rewrite K1. simpl. rewrite K2. simpl. rewrite K3. simpl.
  fold js_files.
  destruct (negb (py_truthy P js_files)); simpl.
  - destruct (print P (u "No JS bundles found.")). reflexivity.
  - destruct (py_iter js_files); simpl; [|reflexivity].
    destruct (print_all P a). reflexivity.
Qed.

(** C6, amended.  A run that gets entry assets with a [js] list prints
    the paths of the list, one [print] each and in the order of the list,
    and ends with status 0, when standard output takes every path; with an
    empty list or without the key [js] it prints the one line
    [No JS bundles found.] and ends with status 0, when standard output
    takes that line.  A path that standard output refuses ends the run with
    the exception of standard output, after the lines of the paths before
    it and without the paths after it. *)
Theorem C6_prints_js_paths :
  forall (argv : list str) (input_url cdn_host : str)
         (namespace repo version : pyval) (resp : Response)
         (ea : list (str * pyval)),
    reaches_assets P argv input_url cdn_host namespace repo version ->
    http_get P (entry_assets_url cdn_host (base_folder P namespace)
                                 (py_str P repo) (py_str P version)) 10
    = Ok resp ->
    raise_for_status resp = Ok tt ->
    json resp = Ok (VDict ea) ->
    let gets :=
      [EGet input_url 10;
       EGet (apps_url cdn_host (base_folder P namespace)) 10;
       EGet (entry_assets_url cdn_host (base_folder P namespace)
                              (py_str P repo) (py_str P version)) 10] in
    (forall paths,
        dict_get ea (u "js") = Some (VList paths) -> paths <> [] ->
        Forall (fun p => stdout_write P (py_str P p) = Ok tt) paths ->
        run (main P argv)
        = (gets ++ map (fun p => EOut (py_str P p)) paths, Exited 0))
    /\ (dict_get ea (u "js") = None
        \/ dict_get ea (u "js") = Some (VList []) ->
        stdout_write P (u "No JS bundles found.") = Ok tt ->
        run (main P argv)
        = (gets ++ [EOut (u "No JS bundles found.")], Exited 0))
    /\ (forall before path after e,
           dict_get ea (u "js") = Some (VList (before ++ path :: after)) ->
           Forall (fun p => stdout_write P (py_str P p) = Ok tt) before ->
           stdout_write P (py_str P path) = Raise e ->
           run (main P argv)
           = (gets ++ map (fun p => EOut (py_str P p)) before, uncaught e)).
Proof.
  intros argv input_url cdn_host namespace repo version resp ea
         Hreach K1 K2 K3 gets.
  pose proof (main_with_assets argv input_url cdn_host namespace repo version
                resp ea Hreach K1 K2 K3) as Hmain.
  cbv zeta in Hmain. fold gets in Hmain. rewrite Hmain. split; [|split].
  - intros paths Hjs Hne Hout. rewrite Hjs.
    destruct paths as [|p paths]; [contradiction|].
    unfold bind, lift. cbn [py_truthy negb py_iter].
    rewrite print_all_events by assumption. reflexivity.
  - intros Hjs Hout.
    assert (negb (py_truthy P match dict_get ea (u "js") with
                              | Some x => x
                              | None => VList []
                              end) = true) as ->
      by (destruct Hjs as [->| ->]; reflexivity).
    rewrite (print_ok _ Hout). reflexivity.
  - intros before path after e Hjs Hb Hp. rewrite Hjs.
    assert (negb (py_truthy P (VList (before ++ path :: after))) = false)
      as -> by (destruct before; reflexivity).
    unfold bind, lift. cbn [py_iter].
    rewrite (print_all_stops _ _ _ _ Hb Hp). apply run_raise.
Qed.

End MainProperties.

(** ** The scenarios *)

(** Section 8: the two paths, in order, and status 0. *)
Example scenario_run :
  run (main scenario_platform example_argv)
  = (scenario_gets ++ [EOut (u "main.abc123.js"); EOut (u "vendor.def456.js")],
     Exited 0).
Proof. vm_compute. reflexivity. Qed.

(** Without network the fetch of the page raises: one line on standard
    error and status 1. *)
Example offline_run :
  run (main offline_platform example_argv)
  = ([EGet example_page_url 10;
      EErr (u "Error fetching https://sandbox.example.com: Failed to establish a new connection")],
     Exited 1).
Proof. vm_compute. reflexivity. Qed.

(** C1.  The page answers with the status 404: the run goes on as with
    the status 200, prints the two paths and ends with status 0, where the
    claim has a line on standard error and status 1. *)
Theorem C1_page_status_is_not_checked :
  http_get not_found_platform example_page_url 10
  = Ok (response 404 (u "Not Found") example_page_url page_without_tag)
  /\ run (main not_found_platform example_argv)
     = (scenario_gets
        ++ [EOut (u "main.abc123.js"); EOut (u "vendor.def456.js")],
        Exited 0)
  /\ exit_status (snd (run (main not_found_platform example_argv))) <> 1%Z.
Proof.
  split; [reflexivity|]. split; [vm_compute; reflexivity|].
  vm_compute. discriminate.
Qed.

(** The list that [parse_bootstrap_config] returns for [array_page] has no
    method [get]: line 98 raises, nobody catches. *)
Example array_config_run :
  run (main array_platform example_argv)
  = ([EGet example_page_url 10],
     Traceback (mk_exn "AttributeError" "object has no attribute 'get'")).
Proof. vm_compute. reflexivity. Qed.

Lemma scenario_reaches_apps (page_text : str) (apps assets : result Response) :
  parse_bootstrap_config page_text = Ok VNone ->
  reaches_apps
    (example_platform (page_response 200 (u "OK") page_text) apps assets)
    example_argv example_page_url (u "https://cloverstatic.com")
    (VStr (u "standard")) (VStr (u "web-portal")).
Proof.
  intro Hpage. exists VNone. split; [|reflexivity].
  exists (u "yallah.py"), (u "sandbox.example.com"), [],
    ([], None), (u "https", Some (u "sandbox.example.com")),
    (response 200 (u "OK") example_page_url page_text).
  repeat split; try reflexivity. exact Hpage.
Qed.

Lemma scenario_reaches_assets (assets : result Response) :
  reaches_assets
    (example_platform (page_response 200 (u "OK") page_without_tag)
                      (apps_response 200 (u "OK") example_apps_text) assets)
    example_argv example_page_url (u "https://cloverstatic.com")
    (VStr (u "standard")) (VStr (u "portal")) (VStr (u "3.2.1")).
Proof.
  exists (VStr (u "web-portal")),
    (response 200 (u "OK") example_apps_url example_apps_text),
    example_apps,
    (VDict [(u "id", VStr (u "web-portal")); (u "repo", VStr (u "portal"));
            (u "version", VStr (u "3.2.1"))]).
  split; [apply scenario_reaches_apps; vm_compute; reflexivity|].
  repeat split; vm_compute; reflexivity.
Qed.

(** C7, as stated, fails for a status that is no success and that
    [raise_for_status] lets through: with the status 300 and the manifest
    for body the run goes on and ends with status 0. *)
Lemma C7_status_300_goes_on :
  http_get apps_300_platform example_apps_url 10
  = Ok (response 300 (u "Multiple Choices") example_apps_url example_apps_text)
  /\ run (main apps_300_platform example_argv)
     = (scenario_gets
        ++ [EOut (u "main.abc123.js"); EOut (u "vendor.def456.js")],
        Exited 0)
  /\ exit_status (snd (run (main apps_300_platform example_argv))) <> 1%Z.
Proof.
  split; [reflexivity|]. split; [vm_compute; reflexivity|].
  vm_compute. discriminate.
Qed.

Lemma C7_apps_fetch_failure_witness :
  (exists msg,
      run (main apps_500_platform example_argv)
      = ([EGet example_page_url 10; EGet example_apps_url 10;
          EErr (u "Unable to load apps configuration: " ++ msg)],
         Exited 1))
  /\ (exists msg,
         run (main apps_down_platform example_argv)
         = ([EGet example_page_url 10; EGet example_apps_url 10;
             EErr (u "Unable to load apps configuration: " ++ msg)],
            Exited 1)).
Proof.
  split.
  - apply (C7_apps_fetch_failure apps_500_platform example_argv
             example_page_url (u "https://cloverstatic.com")
             (VStr (u "standard")) (VStr (u "web-portal"))).
    + apply scenario_reaches_apps. vm_compute. reflexivity.
    + right.
      exists (response 500 (u "Internal Server Error") example_apps_url
                       (u "Internal Server Error")).
      split; [reflexivity|]. simpl. lia.
  - apply (C7_apps_fetch_failure apps_down_platform example_argv
             example_page_url (u "https://cloverstatic.com")
             (VStr (u "standard")) (VStr (u "web-portal"))).
    + apply scenario_reaches_apps. vm_compute. reflexivity.
    + left. eexists _, _. reflexivity.
Defined.

(** What the line says for the status 500. *)
Example apps_500_run :
  run (main apps_500_platform example_argv)
  = ([EGet example_page_url 10; EGet example_apps_url 10;
      EErr (u "Unable to load apps configuration: 500 Server Error: Internal Server Error for url: https://cloverstatic.com/web/apps/_config/apps.json")],
     Exited 1).
Proof. vm_compute. reflexivity. Qed.

Lemma C6_prints_js_paths_witness :
  run (main scenario_platform example_argv)
  = (scenario_gets ++ [EOut (u "main.abc123.js"); EOut (u "vendor.def456.js")],
     Exited 0)
  /\ run (main no_js_platform example_argv)
     = (scenario_gets ++ [EOut (u "No JS bundles found.")], Exited 0)
  /\ run (main no_js_key_platform example_argv)
     = (scenario_gets ++ [EOut (u "No JS bundles found.")], Exited 0)
  /\ run (main surrogate_platform example_argv)
     = (scenario_gets ++ [EOut (u "main.abc123.js")],
        Traceback unicode_encode_error).
Proof.
  split; [|split; [|split]].
  - refine (proj1 (C6_prints_js_paths scenario_platform example_argv
                     example_page_url (u "https://cloverstatic.com")
                     (VStr (u "standard")) (VStr (u "portal"))
                     (VStr (u "3.2.1"))
                     (response 200 (u "OK") example_assets_url
                               example_assets_text)
                     [(u "js", VList [VStr (u "main.abc123.js");
                                      VStr (u "vendor.def456.js")])]
                     _ _ _ _)
                  [VStr (u "main.abc123.js"); VStr (u "vendor.def456.js")]
                  _ _ _).
    + apply scenario_reaches_assets.
    + reflexivity.
    + reflexivity.
    + vm_compute. reflexivity.
    + reflexivity.
    + discriminate.
    + repeat constructor.
  - refine (proj1 (proj2 (C6_prints_js_paths no_js_platform example_argv
                     example_page_url (u "https://cloverstatic.com")
                     (VStr (u "standard")) (VStr (u "portal"))
                     (VStr (u "3.2.1"))
                     (response 200 (u "OK") example_assets_url no_js_text)
                     [(u "js", VList [])] _ _ _ _)) _ _).
    + apply scenario_reaches_assets.
    + reflexivity.
    + reflexivity.
    + vm_compute. reflexivity.
    + right. reflexivity.
    + reflexivity.
  - refine (proj1 (proj2 (C6_prints_js_paths no_js_key_platform example_argv
                     example_page_url (u "https://cloverstatic.com")
                     (VStr (u "standard")) (VStr (u "portal"))
                     (VStr (u "3.2.1"))
                     (response 200 (u "OK") example_assets_url (u "{}"))
                     [] _ _ _ _)) _ _).
    + apply scenario_reaches_assets.
    + reflexivity.
    + reflexivity.
    + vm_compute. reflexivity.
    + left. reflexivity.
    + reflexivity.
  - refine (proj2 (proj2 (C6_prints_js_paths surrogate_platform example_argv
                     example_page_url (u "https://cloverstatic.com")
                     (VStr (u "standard")) (VStr (u "portal"))
                     (VStr (u "3.2.1"))
                     (response 200 (u "OK") example_assets_url surrogate_text)
                     [(u "js", VList [VStr (u "main.abc123.js");
                                      VStr [55296]])]
                     _ _ _ _))
                  [VStr (u "main.abc123.js")] (VStr [55296]) []
                  unicode_encode_error _ _ _).
    + apply scenario_reaches_assets.
    + reflexivity.
    + reflexivity.
    + vm_compute. reflexivity.
    + reflexivity.
    + repeat constructor.
    + reflexivity.
Defined.

(** C6, as stated, fails for a path that standard output cannot encode:
    the entry assets are fetched, their second path is the lone surrogate
    U+D800, and the run prints the first path and ends with a
    [UnicodeEncodeError] that nobody catches, status 1. *)
Lemma C6_refused_path_ends_the_run :
  json_loads surrogate_text = Ok surrogate_assets
  /\ run (main surrogate_platform example_argv)
     = (scenario_gets ++ [EOut (u "main.abc123.js")],
        Traceback unicode_encode_error)
  /\ exit_status (snd (run (main surrogate_platform example_argv))) <> 0%Z.
Proof.
  split; [vm_compute; reflexivity|]. split; [vm_compute; reflexivity|].
  vm_compute. discriminate.
Qed.

(** * Further properties of the code *)

(** ** Labels of the hostname *)

(** X1.  Only the first two labels of the hostname count: whatever follows
    the second label and its dot, [determine_env_type] returns what it
    returns for the first two labels alone. *)
Theorem X1_env_first_two_labels (l0 l1 rest : str) :
  ~ In 46 l0 -> ~ In 46 l1 ->
  determine_env_type (l0 ++ 46 :: l1 ++ 46 :: rest)
  = determine_env_type (l0 ++ 46 :: l1).
Proof.
  intros H0 H1. unfold determine_env_type.
  rewrite !split_label by assumption. rewrite split_one by assumption.
  reflexivity.
Qed.

Lemma X1_env_first_two_labels_witness :
  determine_env_type (u "portal" ++ 46 :: u "ondemand" ++ 46 :: u "example.com")
  = determine_env_type (u "portal" ++ 46 :: u "ondemand").
Proof.
  apply (X1_env_first_two_labels (u "portal") (u "ondemand") (u "example.com"));
    apply not_In_forallb; reflexivity.
Defined.

(** X2.  A hostname without a dot has one label, and the test for a second
    label ([len(parts) > 1]) fails: the result is ["prod"], also for the
    hostnames [dev] and [ondemand]. *)
Theorem X2_env_single_label (hostname : str) :
  ~ In 46 hostname -> determine_env_type hostname = u "prod".
Proof.
  intro H. unfold determine_env_type. rewrite split_one by assumption.
  destruct (str_eqb (lower hostname) (u "sandbox")); reflexivity.
Qed.

Lemma X2_env_single_label_witness :
  determine_env_type (u "ondemand") = u "prod"
  /\ determine_env_type (u "localhost") = u "prod".
Proof.
  split; apply X2_env_single_label; apply not_In_forallb; reflexivity.
Defined.

(** ** Completeness of the matcher *)

Lemma greedy_none {A} (p : N -> bool) (s : str) :
  forall (k : str -> str -> option A),
    greedy p k s = None ->
    forall g rest, g <> [] -> forallb p g = true -> s = g ++ rest ->
                   k g rest = None.
Proof.
  induction s as [|c s IH]; intros k H g rest Hne Hall Hs.
  - destruct g; [contradiction|discriminate].
  - destruct g as [|x g]; [contradiction|].
    simpl in Hs. inversion Hs; subst. simpl in Hall.
    apply andb_true_iff in Hall as [Hx Hall]. simpl in H. rewrite Hx in H.
    destruct (greedy p (fun w => k (x :: w)) (g ++ rest)) eqn:E;
      [discriminate|].
    destruct g as [|y g]; [exact H|].
    apply (IH (fun w => k (x :: w)) E (y :: g) rest);
      [discriminate|exact Hall|reflexivity].
Qed.

Lemma match_here_complete (pat : list item) (w : str) (m : list str) :
  matches pat w m -> forall rest, match_here pat (w ++ rest) <> None.
Proof.
  induction 1 as [|c x pat w m Hc _ IH|k x pat w m Hk _ IH
                  |k g pat w m Hne Hall _ IH|k g pat w m Hne Hall _ IH];
    intro rest.
  - discriminate.
  - simpl. rewrite Hc. apply IH.
  - simpl. rewrite Hk. apply IH.
  - rewrite <- app_assoc. cbn [match_here]. intro E.
    apply (IH rest).
    exact (greedy_none _ _ _ E g (w ++ rest) Hne Hall eq_refl).
  - rewrite <- app_assoc. cbn [match_here]. intro E.
    apply (IH rest).
    pose proof (greedy_none _ _ _ E g (w ++ rest) Hne Hall eq_refl) as H.
    cbv beta in H. destruct (match_here pat (w ++ rest)); [discriminate|].
    reflexivity.
Qed.

Lemma re_search_complete (pat : list item) (pre w post : str) (m : list str) :
  matches pat w m -> re_search pat (pre ++ w ++ post) <> None.
Proof.
  intro Hm. pose proof (match_here_complete pat w m Hm post) as Hh.
  induction pre as [|c pre IH]; cbn [app].
  - destruct (w ++ post) as [|x s]; simpl;
      destruct (match_here pat _); congruence.
  - simpl. destruct (match_here pat (c :: pre ++ w ++ post));
      [discriminate|exact IH].
Qed.

Lemma matches_lits_intro (cs t : str) (pat : list item) (w : str)
  (m : list str) :
  Forall2 (fun c x => ci_match c x = true) cs t -> matches pat w m ->
  matches (map Lit cs ++ pat) (t ++ w) m.
Proof.
  induction 1 as [|c x cs t Hc _ IH]; intro Hm; [exact Hm|].
  simpl. constructor; [exact Hc|now apply IH].
Qed.

Lemma class_not_gt (g : str) :
  Forall (fun c => c <> 62) g -> forallb (in_cls cls_not_gt) g = true.
Proof.
  intro H. apply forallb_forall. intros x Hx. apply in_cls_neg.
  rewrite Forall_forall in H. intros [E|[]]. now apply (H x Hx).
Qed.

Lemma class_not_dq_hash (g : str) :
  Forall (fun c => c <> dq /\ c <> 35) g ->
  forallb (in_cls cls_not_dq_hash) g = true.
Proof.
  intro H. apply forallb_forall. intros x Hx. apply in_cls_neg.
  rewrite Forall_forall in H. destruct (H x Hx) as [H1 H2].
  intros [E|[E|[]]]; congruence.
Qed.

Lemma class_not_quote (g : str) :
  Forall (fun c => is_quote c = false) g ->
  forallb (in_cls cls_not_quote) g = true.
Proof.
  intro H. apply forallb_forall. intros x Hx. apply in_cls_neg.
  rewrite Forall_forall in H. rewrite <- is_quote_In, (H x Hx). discriminate.
Qed.

Lemma class_quote (q : N) : is_quote q = true -> in_cls cls_quote q = true.
Proof. now rewrite in_cls_quote. Qed.

(** A tag of the shape is found. *)
Lemma bootstrap_tag_found (page base frag : str) :
  bootstrap_tag_in page base frag -> re_search bootstrap_re page <> None.
Proof.
  intros (pre & t_script & gap1 & t_id & q1 & t_cl & q2 & gap2 & t_src & q3
          & q4 & post & -> & Hscript & Hg1 & Hgap1 & Hid & Hq1 & Hcl & Hq2
          & Hg2 & Hgap2 & Hsrc & Hq3 & Hb & Hbase & Hf & Hfrag & Hq4).
  assert (Hm : matches bootstrap_re
                 (t_script ++ gap1 ++ t_id ++ q1 :: t_cl ++ q2 :: gap2
                  ++ t_src ++ q3 :: base ++ 35 :: frag ++ [q4])
                 [base; frag]).
  { unfold bootstrap_re, lits.
    apply matches_lits_intro; [exact Hscript|].
    apply (M_plus cls_not_gt gap1); [exact Hg1|now apply class_not_gt|].
    apply matches_lits_intro; [exact Hid|].
    apply M_cls; [now apply class_quote|].
    apply matches_lits_intro; [exact Hcl|].
    apply M_cls; [now apply class_quote|].
    apply (M_plus cls_not_gt gap2); [exact Hg2|now apply class_not_gt|].
    apply matches_lits_intro; [exact Hsrc|].
    apply M_cls; [now apply class_quote|].
    apply (M_group cls_not_dq_hash base);
      [exact Hb|now apply class_not_dq_hash|].
    apply M_lit; [reflexivity|].
    apply (M_group cls_not_quote frag); [exact Hf|now apply class_not_quote|].
    apply M_cls; [now apply class_quote|]. constructor. }
  pose proof (re_search_complete bootstrap_re pre _ post _ Hm) as H.
  repeat (rewrite <- app_assoc in H; cbn [app] in H). exact H.
Qed.

Lemma parse_decode_fragment (page : str) :
  parse_bootstrap_config page
  = match re_search bootstrap_re page with
    | None => Ok VNone
    | Some m => decode_fragment (group m 2)
    end.
Proof. reflexivity. Qed.

(** X3.  The search of [parse_bootstrap_config] fails exactly on the pages
    that hold no text of the shape of the tag ([<script], [id=], [src=] and
    [cl-bootstrap] in any case, each quote a double or a single one, [id]
    before [src]); on a page that holds one, the function returns what
    lines 39-44 make of the fragment of such a tag. *)
Theorem X3_tag_found_iff_present (page : str) :
  (re_search bootstrap_re page = None
   <-> forall base frag, ~ bootstrap_tag_in page base frag)
  /\ ((exists base frag, bootstrap_tag_in page base frag) ->
      exists base' frag',
        bootstrap_tag_in page base' frag'
        /\ re_search bootstrap_re page = Some [base'; frag']
        /\ parse_bootstrap_config page = decode_fragment frag').
Proof.
  split; [split|].
  - intros H base frag Htag. now apply bootstrap_tag_found in Htag.
  - intro H. destruct (re_search bootstrap_re page) as [m|] eqn:E;
      [|reflexivity].
    apply re_search_shape in E as (base & frag & _ & Htag).
    now apply H in Htag.
  - intros (base & frag & Htag). apply bootstrap_tag_found in Htag.
    destruct (re_search bootstrap_re page) as [m|] eqn:E; [|contradiction].
    pose proof (re_search_shape page m E) as (base' & frag' & -> & Htag').
    exists base', frag'. repeat split; [exact Htag'|].
    rewrite parse_decode_fragment, E. reflexivity.
Qed.

Lemma X3_tag_found_iff_present_witness :
  exists base' frag',
    bootstrap_tag_in capitals_page base' frag'
    /\ re_search bootstrap_re capitals_page = Some [base'; frag']
    /\ parse_bootstrap_config capitals_page = decode_fragment frag'.
Proof.
  apply (proj2 (X3_tag_found_iff_present capitals_page)).
  exists (u "/b.js"), (u "e30=").
  exists [], (u "<SCRIPT"), (u " "), (u "ID="), sq, (u "CL-BOOTSTRAP"), sq,
    (u " "), (u "SRC="), sq, sq, (u "></SCRIPT>").
  split; [reflexivity|].
  repeat split; try discriminate; try reflexivity;
    vm_compute; repeat constructor; intro; discriminate.
Defined.

(** The tag in capitals, evaluated: the empty object. *)
Example capitals_page_result :
  parse_bootstrap_config capitals_page = Ok (VDict []).
Proof. vm_compute. reflexivity. Qed.

(** ** The tag with [id] before [src], for every fragment *)

Lemma ends_ci_suffix (w b1 b2 : str) :
  ends_ci w (b1 ++ b2) = false -> ci_whole w b2 = false.
Proof.
  induction b1 as [|x b1 IH]; simpl app; intro H.
  - destruct b2; simpl in H; apply orb_false_iff in H as [H _]; exact H.
  - simpl in H. apply orb_false_iff in H as [_ H]. now apply IH.
Qed.

(** Literals and then a quote do not match a text without quotes that a
    double quote follows, unless the text is the literals. *)
Lemma lits_quote_end (cs : str) (pat : list item) (t : str) :
  Forall (fun c => ci_match c dq = false) cs ->
  forall b, quote_free b -> ci_whole cs b = false ->
    match_here (map Lit cs ++ Cls cls_quote :: pat) (b ++ dq :: t) = None.
Proof.
  induction 1 as [|c cs Hc _ IH]; intros b Hb Hw.
  - destruct b as [|x b]; [discriminate|]. cbn [map app match_here].
    apply nquotes_nil_cons in Hb as [Hx _]. now rewrite in_cls_quote, Hx.
  - destruct b as [|x b]; cbn [map app match_here].
    + now rewrite Hc.
    + apply nquotes_nil_cons in Hb as [_ Hb]. simpl in Hw.
      destruct (ci_match c x); [now apply IH|reflexivity].
Qed.

(** The same when the rest of the pattern fails after the double quote. *)
Lemma lits_quote_then (cs : str) (pat : list item) (t : str) :
  match_here pat t = None ->
  Forall (fun c => ci_match c dq = false) cs ->
  forall b, quote_free b ->
    match_here (map Lit cs ++ Cls cls_quote :: pat) (b ++ dq :: t) = None.
Proof.
  intro Ht. induction 1 as [|c cs Hc _ IH]; intros b Hb.
  - destruct b as [|x b]; cbn [map app match_here].
    + exact Ht.
    + apply nquotes_nil_cons in Hb as [Hx _]. now rewrite in_cls_quote, Hx.
  - destruct b as [|x b]; cbn [map app match_here].
    + now rewrite Hc.
    + apply nquotes_nil_cons in Hb as [_ Hb].
      destruct (ci_match c x); [now apply IH|reflexivity].
Qed.

Lemma quote_free_class (frag : str) :
  quote_free frag -> forallb (in_cls cls_not_quote) frag = true.
Proof.
  intro Hq. apply forallb_forall. intros x Hx. apply in_cls_neg.
  rewrite <- is_quote_In. apply in_split in Hx as (a & b & ->).
  apply quote_free_suffix in Hq. apply nquotes_nil_cons in Hq as [Hq _].
  now rewrite Hq.
Qed.

(** The match at the start of the tag, for every fragment. *)
Lemma tag_id_first_match (base frag rest : str) :
  plain_base base -> frag <> [] -> quote_free frag ->
  ends_ci (u "src=") frag = false ->
  match_here bootstrap_re (tag_id_first base frag ++ rest)
  = Some [base; frag].
Proof.
  intros Hbase Hne Hf Hend. pose proof (plain_base_class base Hbase) as Hcls.
  pose proof (quote_free_class frag Hf) as Hfcls.
  destruct Hbase as (Hbne & Hq & Hh).
  unfold tag_id_first.
  let p := eval vm_compute in bootstrap_re in change bootstrap_re with p.
  eval_strs. repeat (rewrite <- app_assoc; cbn [app]).
  assert (Hlits : forall cs pat t b1 b2,
             Forall (fun c => ci_match c 35 = false) cs ->
             base = b1 ++ b2 ->
             match_here (map Lit cs ++ Cls cls_quote :: pat) (b2 ++ 35 :: t)
             = None).
  { intros cs pat t b1 b2 Hcs ->. apply lits_quote_none; [exact Hcs|].
    now apply quote_free_suffix in Hq. }
  assert (Hid : forall pat b1 b2,
             frag = b1 ++ b2 ->
             match_here (map Lit [105; 100; 61] ++ Cls cls_quote :: Lit 99 :: pat)
                        (b2 ++ dq :: 62 :: rest) = None).
  { intros pat b1 b2 ->. apply lits_quote_then.
    - reflexivity.
    - repeat constructor.
    - now apply quote_free_suffix in Hf. }
  assert (Hsrc : forall pat b1 b2,
             frag = b1 ++ b2 ->
             match_here (map Lit [115; 114; 99; 61] ++ Cls cls_quote :: pat)
                        (b2 ++ dq :: 62 :: rest) = None).
  { intros pat b1 b2 ->. apply lits_quote_end.
    - repeat constructor.
    - now apply quote_free_suffix in Hf.
    - now apply ends_ci_suffix in Hend. }
  do 7 (rewrite match_lit_ok by reflexivity).
  rewrite plus_first; [|reflexivity|].
  - step_ok. rewrite plus_first; [|reflexivity|].
    + step_ok. apply group_max; try assumption; [reflexivity|].
      rewrite match_lit_ok by reflexivity.
      apply group_max; try assumption; reflexivity.
    + do 5 (apply plus_none;
            [|first [reflexivity
                    | apply (Hlits [115; 114; 99; 61] _ _ [] base);
                      [repeat constructor|reflexivity]]]).
      apply plus_none_app.
      * apply plus_none.
        -- apply plus_none_app; [reflexivity|].
           intros b1 b2 Hb _. now apply (Hsrc _ b1 b2).
        -- now apply (Hsrc _ [] frag).
      * intros b1 b2 Hb _.
        apply (Hlits [115; 114; 99; 61] _ _ b1 b2);
          [repeat constructor|exact Hb].
  - do 23 (apply plus_none;
           [|first [reflexivity
                   | apply (Hlits [105; 100; 61] _ _ [] base);
                     [repeat constructor|reflexivity]]]).
    apply plus_none_app.
    + apply plus_none.
      * apply plus_none_app; [reflexivity|].
        intros b1 b2 Hb _. now apply (Hid _ b1 b2).
      * now apply (Hid _ [] frag).
    + intros b1 b2 Hb _.
      apply (Hlits [105; 100; 61] _ _ b1 b2); [repeat constructor|exact Hb].
Qed.

Lemma tag_id_first_search (pre base frag rest : str) :
  re_search (lits "<script") pre = None ->
  plain_base base -> frag <> [] -> quote_free frag ->
  ends_ci (u "src=") frag = false ->
  re_search bootstrap_re (pre ++ tag_id_first base frag ++ rest)
  = Some [base; frag].
Proof.
  intros Hpre Hbase Hne Hf Hend.
  pose proof (tag_id_first_match base frag rest Hbase Hne Hf Hend) as Hm.
  unfold bootstrap_re in *. unfold tag_id_first in *.
  change (u "<script id=") with (60 :: u "script id=") in *.
  cbn [app] in *.
  rewrite re_search_after by exact Hpre.
  simpl re_search.
  match goal with
  | H : ?a = Some _ |- match ?b with _ => _ end = _ =>
      change b with a; rewrite H
  end.
  reflexivity.
Qed.

(** X4.  When the first [<script] of a page opens the tag
    [<script id="cl-bootstrap" src="base#frag">], with a [base] that is not
    empty and has neither quote nor hash sign and a [frag] that is not
    empty, has no quote and does not end with [src=], the function returns
    what lines 39-44 make of [frag], whatever text comes before and after
    the tag (a second tag with another fragment, for one). *)
Theorem X4_tag_fragment_is_decoded (pre base frag rest : str) :
  re_search (lits "<script") pre = None ->
  plain_base base -> frag <> [] -> quote_free frag ->
  ends_ci (u "src=") frag = false ->
  parse_bootstrap_config (pre ++ tag_id_first base frag ++ rest)
  = decode_fragment frag.
Proof.
  intros Hpre Hbase Hne Hf Hend. rewrite parse_decode_fragment.
  now rewrite tag_id_first_search.
Qed.

Lemma X4_tag_fragment_is_decoded_witness :
  parse_bootstrap_config
    (u "<html><head><title>Portal</title>"
     ++ tag_id_first (u "/static/boot.js") (u "e30=")
     ++ u "</script>" ++ tag_id_first (u "/other.js") (u "WzFd"))
  = decode_fragment (u "e30=").
Proof.
  apply (X4_tag_fragment_is_decoded
           (u "<html><head><title>Portal</title>") (u "/static/boot.js")
           (u "e30=")
           (u "</script>" ++ tag_id_first (u "/other.js") (u "WzFd"))).
  - vm_compute. reflexivity.
  - repeat split.
    + discriminate.
    + apply not_In_forallb. reflexivity.
  - discriminate.
  - reflexivity.
  - reflexivity.
Defined.

(** Why the fragment must not end with [src=]: the repetition before
    [src=] is greedy, and here the search takes the link after the tag for
    the value of [src]. *)
Example src_suffix_page_match :
  re_search bootstrap_re src_suffix_page
  = Some [u "></script><a href='"; u "top"].
Proof. vm_compute. reflexivity. Qed.

(** ** [b64decode] after [b64encode] *)

Ltac div_lia := zify; Z.to_euclidean_division_equations; lia.

Lemma below_In (n : nat) (v : N) : v < N.of_nat n -> In v (below n).
Proof.
  intro H. unfold below. apply in_map_iff. exists (N.to_nat v).
  split; [apply N2Nat.id|]. apply in_seq. lia.
Qed.

Lemma below_forall (n : nat) (f : N -> bool) :
  forallb f (below n) = true -> forall v, v < N.of_nat n -> f v = true.
Proof.
  intros H v Hv. rewrite forallb_forall in H. now apply H, below_In.
Qed.

Lemma below_forall2 (n m : nat) (f : N -> N -> bool) :
  forallb (fun v => forallb (f v) (below m)) (below n) = true ->
  forall v w, v < N.of_nat n -> w < N.of_nat m -> f v w = true.
Proof.
  intros H v w Hv Hw.
  apply (below_forall m (f v)); [|exact Hw].
  now apply (below_forall n (fun v => forallb (f v) (below m))).
Qed.

Lemma b64_value_char (v : N) : v < 64 -> b64_value (b64_char v) = Some v.
Proof.
  intro H.
  assert (E : (match b64_value (b64_char v) with
               | Some w => w =? v
               | None => false
               end) = true).
  { apply (below_forall 64
             (fun v => match b64_value (b64_char v) with
                       | Some w => w =? v
                       | None => false
                       end)); [vm_compute; reflexivity|exact H]. }
  destruct (b64_value (b64_char v)); [|discriminate].
  apply N.eqb_eq in E. now subst.
Qed.

Lemma b64_char_not_pad (v : N) : (b64_char v =? 61) = false.
Proof.
  unfold b64_char.
  repeat match goal with
         | |- context [if ?b then _ else _] => destruct b eqn:?
         end; apply N.eqb_neq;
    rewrite ?N.ltb_lt, ?N.ltb_ge, ?N.eqb_eq, ?N.eqb_neq in *; lia.
Qed.

Lemma b64_char_ascii (v : N) : (b64_char v <? 128) = true.
Proof.
  unfold b64_char.
  repeat match goal with
         | |- context [if ?b then _ else _] => destruct b eqn:?
         end; apply N.ltb_lt;
    rewrite ?N.ltb_lt, ?N.ltb_ge, ?N.eqb_eq, ?N.eqb_neq in *; lia.
Qed.

Lemma bits_first (v0 v1 : N) : v0 < 64 -> v1 < 64 ->
  N.lor (N.shiftl v0 2) (N.shiftr v1 4) mod 256 = v0 * 4 + v1 / 16.
Proof.
  intros H0 H1. apply N.eqb_eq.
  apply (below_forall2 64 64
           (fun v0 v1 => N.lor (N.shiftl v0 2) (N.shiftr v1 4) mod 256
                         =? v0 * 4 + v1 / 16));
    [vm_compute; reflexivity|exact H0|exact H1].
Qed.

Lemma bits_second (v1 v2 : N) : v1 < 64 -> v2 < 64 ->
  N.lor (N.shiftl (N.land v1 15) 4) (N.shiftr v2 2) mod 256
  = (v1 mod 16) * 16 + v2 / 4.
Proof.
  intros H1 H2. apply N.eqb_eq.
  apply (below_forall2 64 64
           (fun v1 v2 =>
              N.lor (N.shiftl (N.land v1 15) 4) (N.shiftr v2 2) mod 256
              =? (v1 mod 16) * 16 + v2 / 4));
    [vm_compute; reflexivity|exact H1|exact H2].
Qed.

Lemma bits_third (v2 v3 : N) : v2 < 64 -> v3 < 64 ->
  N.lor (N.shiftl (N.land v2 3) 6) v3 mod 256 = (v2 mod 4) * 64 + v3.
Proof.
  intros H2 H3. apply N.eqb_eq.
  apply (below_forall2 64 64
           (fun v2 v3 => N.lor (N.shiftl (N.land v2 3) 6) v3 mod 256
                         =? (v2 mod 4) * 64 + v3));
    [vm_compute; reflexivity|exact H2|exact H3].
Qed.

(** One step of the loop on a character of the alphabet. *)
Lemma a2b_step (v : N) (s : list N) (quad_pos leftchar pads : N) (out : bytes) :
  v < 64 ->
  a2b_base64_loop (b64_char v :: s) quad_pos leftchar pads out
  = if quad_pos =? 0 then a2b_base64_loop s 1 v 0 out
    else if quad_pos =? 1 then
      a2b_base64_loop s 2 (N.land v 15) 0
        (out ++ [N.lor (N.shiftl leftchar 2) (N.shiftr v 4) mod 256])
    else if quad_pos =? 2 then
      a2b_base64_loop s 3 (N.land v 3) 0
        (out ++ [N.lor (N.shiftl leftchar 4) (N.shiftr v 2) mod 256])
    else
      a2b_base64_loop s 0 0 0 (out ++ [N.lor (N.shiftl leftchar 6) v mod 256]).
Proof.
  intro H. cbn [a2b_base64_loop].
  now rewrite b64_char_not_pad, b64_value_char.
Qed.

Lemma list_ind3 {A} (P : list A -> Prop) :
  P [] -> (forall a, P [a]) -> (forall a b, P [a; b]) ->
  (forall a b c r, P r -> P (a :: b :: c :: r)) ->
  forall l, P l.
Proof.
  intros H0 H1 H2 H3.
  fix IH 1. intros [|a [|b [|c r]]].
  - exact H0.
  - apply H1.
  - apply H2.
  - apply H3, IH.
Qed.

Lemma a2b_base64_loop_encode (b : bytes) :
  Forall (fun x => x < 256) b ->
  forall out, a2b_base64_loop (b64encode b) 0 0 0 out = Ok (out ++ b).
Proof.
  induction b as [|b0|b0 b1|b0 b1 b2 r IH] using list_ind3; intros Hb out.
  - simpl. now rewrite app_nil_r.
  - inversion Hb as [|? ? H0 _]; subst. cbn [b64encode].
    rewrite a2b_step by div_lia. cbn [N.eqb Pos.eqb].
    rewrite a2b_step by div_lia. cbn [N.eqb Pos.eqb].
    rewrite bits_first by div_lia.
    cbn. do 2 f_equal. f_equal. div_lia.
  - inversion Hb as [|? ? H0 Hb']; subst.
    inversion Hb' as [|? ? H1 _]; subst. cbn [b64encode].
    rewrite a2b_step by div_lia. cbn [N.eqb Pos.eqb].
    rewrite a2b_step by div_lia. cbn [N.eqb Pos.eqb].
    rewrite a2b_step by div_lia. cbn [N.eqb Pos.eqb].
    rewrite bits_first, bits_second by div_lia.
    cbn. rewrite <- app_assoc. do 2 f_equal. cbn [app].
    f_equal; [|f_equal]; div_lia.
  - inversion Hb as [|? ? H0 Hb']; subst.
    inversion Hb' as [|? ? H1 Hb'']; subst.
    inversion Hb'' as [|? ? H2 Hr]; subst. cbn [b64encode].
    rewrite a2b_step by div_lia. cbn [N.eqb Pos.eqb].
    rewrite a2b_step by div_lia. cbn [N.eqb Pos.eqb].
    rewrite a2b_step by div_lia. cbn [N.eqb Pos.eqb].
    rewrite a2b_step by div_lia. cbn [N.eqb Pos.eqb].
    rewrite bits_first, bits_second, bits_third by div_lia.
    rewrite IH by exact Hr. rewrite <- !app_assoc. cbn [app].
    do 2 f_equal. f_equal; [|f_equal; [|f_equal]]; div_lia.
Qed.

Lemma b64encode_ascii (b : bytes) :
  forallb (fun c => c <? 128) (b64encode b) = true.
Proof.
  induction b as [|b0|b0 b1|b0 b1 b2 r IH] using list_ind3;
    cbn [b64encode forallb]; rewrite ?b64_char_ascii, ?IH; reflexivity.
Qed.

Lemma b64decode_b64encode (b : bytes) :
  Forall (fun x => x < 256) b -> b64decode (b64encode b) = Ok b.
Proof.
  intro Hb. unfold b64decode. rewrite b64encode_ascii.
  now rewrite a2b_base64_loop_encode.
Qed.

(** ** [decode] after [encode] *)

Ltac bool_arith :=
  repeat match goal with
         | |- _ && _ = true => apply andb_true_iff; split
         | |- _ || _ = true => apply orb_true_iff
         | |- negb _ = true => apply negb_true_iff
         end;
  rewrite ?N.leb_le, ?N.ltb_lt, ?N.eqb_eq, ?N.eqb_neq, ?N.leb_gt, ?N.ltb_ge.

Lemma decode_utf8_encode_cp (c : N) (r : bytes) :
  is_scalar c = true ->
  decode_utf8 (encode_cp c ++ r)
  = rbind (decode_utf8 r) (fun t => Ok (c :: t)).
Proof.
  unfold is_scalar, encode_cp. intro Hc.
  destruct (c <? 128) eqn:E1.
  { cbn [app decode_utf8]. now rewrite E1. }
  apply N.ltb_ge in E1.
  destruct (c <? 2048) eqn:E2.
  { apply N.ltb_lt in E2. cbn [app decode_utf8].
    replace (192 + c / 64 <? 128) with false
      by (symmetry; apply N.ltb_ge; div_lia).
    replace ((194 <=? 192 + c / 64) && (192 + c / 64 <=? 223)) with true
      by (symmetry; bool_arith; div_lia).
    replace (is_cont (128 + c mod 64)) with true
      by (symmetry; unfold is_cont; bool_arith; div_lia).
    replace ((192 + c / 64 - 192) * 64 + (128 + c mod 64 - 128)) with c
      by div_lia.
    reflexivity. }
  apply N.ltb_ge in E2.
  destruct (c <? 65536) eqn:E3.
  { apply N.ltb_lt in E3.
    assert (Hs : c < 55296 \/ 57343 < c).
    { apply orb_true_iff in Hc as [Hc|Hc].
      - left. now apply N.ltb_lt.
      - right. apply andb_true_iff in Hc as [Hc _]. now apply N.ltb_lt. }
    cbn [app decode_utf8].
    replace (224 + c / 4096 <? 128) with false
      by (symmetry; apply N.ltb_ge; div_lia).
    replace ((194 <=? 224 + c / 4096) && (224 + c / 4096 <=? 223)) with false
      by (symmetry; apply andb_false_iff; right; apply N.leb_gt; div_lia).
    replace ((224 <=? 224 + c / 4096) && (224 + c / 4096 <=? 239)) with true
      by (symmetry; bool_arith; div_lia).
    replace (is_cont (128 + (c / 64) mod 64)) with true
      by (symmetry; unfold is_cont; bool_arith; div_lia).
    replace (is_cont (128 + c mod 64)) with true
      by (symmetry; unfold is_cont; bool_arith; div_lia).
    replace (negb (224 + c / 4096 =? 224) || (160 <=? 128 + (c / 64) mod 64))
      with true.
    2:{ symmetry. destruct (224 + c / 4096 =? 224) eqn:E; [|reflexivity].
        apply N.eqb_eq in E. cbn [negb orb]. apply N.leb_le. div_lia. }
    replace (negb (224 + c / 4096 =? 237) || (128 + (c / 64) mod 64 <=? 159))
      with true.
    2:{ symmetry. destruct (224 + c / 4096 =? 237) eqn:E; [|reflexivity].
        apply N.eqb_eq in E. cbn [negb orb]. apply N.leb_le. div_lia. }
    cbn [andb].
    replace ((224 + c / 4096 - 224) * 4096 + (128 + (c / 64) mod 64 - 128) * 64
             + (128 + c mod 64 - 128)) with c by div_lia.
    reflexivity. }
  apply N.ltb_ge in E3.
  assert (Hm : c <= 1114111).
  { apply orb_true_iff in Hc as [Hc|Hc].
    - apply N.ltb_lt in Hc. lia.
    - apply andb_true_iff in Hc as [_ Hc]. now apply N.leb_le. }
  cbn [app decode_utf8].
  replace (240 + c / 262144 <? 128) with false
    by (symmetry; apply N.ltb_ge; div_lia).
  replace ((194 <=? 240 + c / 262144) && (240 + c / 262144 <=? 223)) with false
    by (symmetry; apply andb_false_iff; right; apply N.leb_gt; div_lia).
  replace ((224 <=? 240 + c / 262144) && (240 + c / 262144 <=? 239)) with false
    by (symmetry; apply andb_false_iff; right; apply N.leb_gt; div_lia).
  replace ((240 <=? 240 + c / 262144) && (240 + c / 262144 <=? 244)) with true
    by (symmetry; bool_arith; div_lia).
  replace (is_cont (128 + (c / 4096) mod 64)) with true
    by (symmetry; unfold is_cont; bool_arith; div_lia).
  replace (is_cont (128 + (c / 64) mod 64)) with true
    by (symmetry; unfold is_cont; bool_arith; div_lia).
  replace (is_cont (128 + c mod 64)) with true
    by (symmetry; unfold is_cont; bool_arith; div_lia).
  replace (negb (240 + c / 262144 =? 240) || (144 <=? 128 + (c / 4096) mod 64))
    with true.
  2:{ symmetry. destruct (240 + c / 262144 =? 240) eqn:E; [|reflexivity].
      apply N.eqb_eq in E. cbn [negb orb]. apply N.leb_le. div_lia. }
  replace (negb (240 + c / 262144 =? 244) || (128 + (c / 4096) mod 64 <=? 143))
    with true.
  2:{ symmetry. destruct (240 + c / 262144 =? 244) eqn:E; [|reflexivity].
      apply N.eqb_eq in E. cbn [negb orb]. apply N.leb_le. div_lia. }
  cbn [andb].
  replace ((240 + c / 262144 - 240) * 262144
           + (128 + (c / 4096) mod 64 - 128) * 4096
           + (128 + (c / 64) mod 64 - 128) * 64 + (128 + c mod 64 - 128))
    with c by div_lia.
  reflexivity.
Qed.

Lemma decode_utf8_encode_utf8 (s : str) :
  forallb is_scalar s = true -> decode_utf8 (encode_utf8 s) = Ok s.
Proof.
  induction s as [|c s IH]; intro H; [reflexivity|].
  simpl in H. apply andb_true_iff in H as [Hc Hs].
  unfold encode_utf8. cbn [flat_map].
  rewrite decode_utf8_encode_cp by exact Hc.
  fold (encode_utf8 s). now rewrite IH.
Qed.

Lemma encode_cp_bytes (c : N) :
  is_scalar c = true -> Forall (fun x => x < 256) (encode_cp c).
Proof.
  unfold is_scalar, encode_cp. intro Hc.
  assert (Hm : c <= 1114111).
  { apply orb_true_iff in Hc as [Hc|Hc].
    - apply N.ltb_lt in Hc. lia.
    - apply andb_true_iff in Hc as [_ Hc]. now apply N.leb_le. }
  destruct (c <? 128) eqn:E1; [apply N.ltb_lt in E1; repeat constructor; lia|].
  destruct (c <? 2048) eqn:E2;
    [apply N.ltb_lt in E2; repeat constructor; div_lia|].
  destruct (c <? 65536) eqn:E3;
    [apply N.ltb_lt in E3; repeat constructor; div_lia|].
  repeat constructor; div_lia.
Qed.

Lemma encode_utf8_bytes (s : str) :
  forallb is_scalar s = true -> Forall (fun x => x < 256) (encode_utf8 s).
Proof.
  induction s as [|c s IH]; intro H; [constructor|].
  simpl in H. apply andb_true_iff in H as [Hc Hs].
  unfold encode_utf8. cbn [flat_map]. apply Forall_app. split.
  - now apply encode_cp_bytes.
  - now apply IH.
Qed.

(** ** The last characters of a base64 text *)

Lemma ci_match_pad_char (v : N) : ci_match 61 (b64_char v) = false.
Proof.
  destruct (v <? 64) eqn:E.
  - apply N.ltb_lt in E. apply negb_true_iff.
    apply (below_forall 64 (fun v => negb (ci_match 61 (b64_char v))));
      [vm_compute; reflexivity|exact E].
  - apply N.ltb_ge in E. unfold b64_char.
    replace (v <? 26) with false by (symmetry; apply N.ltb_ge; lia).
    replace (v <? 52) with false by (symmetry; apply N.ltb_ge; lia).
    replace (v <? 62) with false by (symmetry; apply N.ltb_ge; lia).
    replace (v =? 62) with false by (symmetry; apply N.eqb_neq; lia).
    reflexivity.
Qed.

(** The second and the third character of a group of two bytes are not
    [r] and [c] up to case, unless the second byte is 23 or 183. *)
Lemma two_bytes_not_rc (q b1 : N) :
  q < 4 -> b1 < 256 -> b1 <> 23 -> b1 <> 183 ->
  ci_match 114 (b64_char (q * 16 + b1 / 16))
  && ci_match 99 (b64_char ((b1 mod 16) * 4)) = false.
Proof.
  intros Hq Hb H1 H2.
  pose proof (below_forall2 4 256
                (fun q b1 =>
                   (b1 =? 23) || (b1 =? 183)
                   || negb (ci_match 114 (b64_char (q * 16 + b1 / 16))
                            && ci_match 99 (b64_char ((b1 mod 16) * 4)))))
    as H.
  specialize (H ltac:(vm_compute; reflexivity) q b1 Hq Hb).
  cbv beta in H. apply N.eqb_neq in H1, H2. rewrite H1, H2 in H.
  cbn [orb] in H.
  now apply negb_true_iff in H.
Qed.

Lemma b64encode_head (r : bytes) :
  r <> [] -> exists v w t, b64encode r = b64_char v :: b64_char w :: t /\ (2 <= List.length t)%nat.
Proof.
  destruct r as [|a [|b [|c r]]]; intro H; [contradiction| | |];
    cbn [b64encode]; eexists _, _, _; (split; [reflexivity|simpl; lia]).
Qed.

Lemma ci_whole_length (w s : str) :
  ci_whole w s = true -> List.length w = List.length s.
Proof.
  revert s; induction w as [|c w IH]; intros [|x s] H; simpl in *;
    try discriminate; [reflexivity|].
  apply andb_true_iff in H as [_ H]. f_equal. now apply IH.
Qed.

Lemma ci_whole_short (w s : str) :
  List.length w <> List.length s -> ci_whole w s = false.
Proof.
  intro H. destruct (ci_whole w s) eqn:E; [|reflexivity].
  apply ci_whole_length in E. contradiction.
Qed.

Ltac drop_short :=
  repeat match goal with
         | |- context [ci_whole ?w ?s] =>
             rewrite (ci_whole_short w s) by (simpl; lia)
         end.

Lemma ends_ci_src_b64encode (b : bytes) :
  Forall (fun x => x < 256) b ->
  last b 0 <> 23 -> last b 0 <> 183 ->
  ends_ci (u "src=") (b64encode b) = false.
Proof.
  change (u "src=") with [115; 114; 99; 61].
  induction b as [|b0|b0 b1|b0 b1 b2 r IH] using list_ind3;
    intros Hb H1 H2.
  - reflexivity.
  - cbn [b64encode ends_ci]. drop_short. cbn [ci_whole orb].
    change (ci_match 99 61) with false.
    now rewrite !andb_false_r.
  - inversion Hb as [|? ? _ Hb']; subst.
    inversion Hb' as [|? ? Hb1 _]; subst.
    cbn [b64encode ends_ci]. drop_short. cbn [ci_whole orb].
    cbn [last] in H1, H2.
    change (ci_match 61 61) with true. rewrite !andb_true_r, orb_false_r.
    rewrite two_bytes_not_rc; [|div_lia|assumption..].
    now rewrite andb_false_r.
  - inversion Hb as [|? ? _ Hb']; subst.
    inversion Hb' as [|? ? _ Hb'']; subst.
    inversion Hb'' as [|? ? _ Hr]; subst.
    assert (Hl : last r 0 <> 23 /\ last r 0 <> 183).
    { destruct r as [|x r]; [split; discriminate|]. now split. }
    destruct Hl as [Hl1 Hl2]. specialize (IH Hr Hl1 Hl2).
    cbn [b64encode]. cbn [ends_ci]. rewrite IH.
    cbn [ci_whole]. rewrite ci_match_pad_char.
    destruct r as [|x r'].
    + cbn [b64encode ci_whole]. now rewrite !andb_false_r.
    + destruct (b64encode_head (x :: r')) as (v & w & t & -> & Ht);
        [discriminate|].
      cbn [ci_whole]. rewrite !ci_match_pad_char.
      destruct t as [|t0 [|t1 t]]; simpl in Ht; [lia|lia|].
      cbn [andb]. now rewrite !andb_false_r.
Qed.

(** ** The last character of a JSON text *)

Lemma left_of_refl (s : str) : left_of s s.
Proof. now exists []. Qed.

Lemma left_of_trans (a b c : str) : left_of a b -> left_of b c -> left_of a c.
Proof. intros [w ->] [w' ->]. exists (w ++ w'). now rewrite app_assoc. Qed.

Lemma left_of_cons (x : N) (s rest : str) : left_of s rest -> left_of (x :: s) rest.
Proof. intros [w ->]. now exists (x :: w). Qed.

Lemma left_of_ends (P : N -> Prop) (a b c : str) :
  left_of a b -> ends_with P b c -> ends_with P a c.
Proof.
  intros [w ->] (w' & x & -> & Hx). exists (w ++ w'), x.
  now rewrite app_assoc.
Qed.

Lemma ends_left_of (P : N -> Prop) (a b : str) : ends_with P a b -> left_of a b.
Proof.
  intros (w & x & -> & _). exists (w ++ [x]). now rewrite <- app_assoc.
Qed.

Lemma left_of_char (P : N -> Prop) (s rest : str) (c : N) :
  left_of s (c :: rest) -> P c -> ends_with P s rest.
Proof. intros [w ->] Hc. now exists w, c. Qed.

Lemma ends_with_more (P : N -> Prop) (a b c : str) :
  ends_with P a b -> b = c \/ ends_with P b c -> ends_with P a c.
Proof.
  intros Hab [<-|Hbc]; [exact Hab|].
  apply (left_of_ends P a b c); [|exact Hbc]. now apply ends_left_of in Hab.
Qed.

Lemma ends_with_impl (P Q : N -> Prop) (a b : str) :
  (forall c, P c -> Q c) -> ends_with P a b -> ends_with Q a b.
Proof. intros H (w & c & -> & Hc). exists w, c. auto. Qed.

Lemma skip_ws_left_of (s : str) : left_of s (skip_ws s).
Proof.
  induction s as [|c s IH]; simpl; [apply left_of_refl|].
  destruct (is_ws c); [now apply left_of_cons|apply left_of_refl].
Qed.

Lemma skip_ws_nil (s : str) : skip_ws s = [] -> Forall (fun c => is_ws c = true) s.
Proof.
  induction s as [|c s IH]; simpl; intro H; [constructor|].
  destruct (is_ws c) eqn:E; [|discriminate]. constructor; auto.
Qed.

Lemma strip_prefix_left_of (w : str) :
  forall s rest, strip_prefix w s = Some rest -> s = w ++ rest.
Proof.
  induction w as [|x w IH]; intros s rest H; simpl in H.
  - now inversion H.
  - destruct s as [|y s]; [discriminate|].
    destruct (x =? y) eqn:E; [|discriminate].
    apply N.eqb_eq in E. subst y. simpl. f_equal. now apply IH.
Qed.

(** A match on the first character of a text, as a test. *)
Ltac head_cases c :=
  destruct c as [|c]; [reflexivity|];
  do 8 (try (destruct c as [c|c|]; try reflexivity)).

Lemma head_pair {A} (s : str) (f : N -> N -> N -> N -> str -> A) (d : A) :
  match s with
  | 92 :: 117 :: k1 :: k2 :: k3 :: k4 :: r3 => f k1 k2 k3 k4 r3
  | _ => d
  end
  = match s with
    | a :: b :: k1 :: k2 :: k3 :: k4 :: r3 =>
        if (a =? 92) && (b =? 117) then f k1 k2 k3 k4 r3 else d
    | _ => d
    end.
Proof.
  destruct s as [|a s]; [reflexivity|].
  destruct s as [|b s]; [head_cases a|].
  destruct s as [|k1 s]; [head_cases a; head_cases b|].
  destruct s as [|k2 s]; [head_cases a; head_cases b|].
  destruct s as [|k3 s]; [head_cases a; head_cases b|].
  destruct s as [|k4 s]; [head_cases a; head_cases b|].
  head_cases a; head_cases b.
Qed.

Lemma option_map_some {A B} (f : A -> B) (o : option A) (b : B) :
  option_map f o = Some b -> exists a, o = Some a /\ f a = b.
Proof.
  destruct o as [a|]; simpl; intro H; [|discriminate]. inversion H. eauto.
Qed.

(** After a string the closing quote was the last character read. *)
Lemma scanstring_upto (n : nat) :
  forall s t rest,
    (List.length s <= n)%nat -> scanstring s = Some (t, rest) ->
    left_of s (34 :: rest).
Proof.
  induction n as [|n IH]; intros s t rest Hn H.
  - destruct s; [discriminate|simpl in Hn; lia].
  - destruct s as [|c r]; [discriminate|]. simpl in Hn.
    cbn [scanstring] in H.
    destruct (c =? 34) eqn:E1.
    { apply N.eqb_eq in E1. inversion H; subst. apply left_of_refl. }
    apply left_of_cons.
    assert (Hrec : forall r' f,
               (List.length r' <= n)%nat ->
               option_map (fun '(t, rest) => (f t, rest)) (scanstring r')
               = Some (t, rest) ->
               left_of r' (34 :: rest)).
    { intros r' f Hr' Hm.
      apply option_map_some in Hm as ([t' rest'] & Hs & Hf).
      inversion Hf; subst. now apply (IH r' t'). }
    destruct (c =? 92) eqn:E2.
    + destruct r as [|e r1]; [discriminate|]. simpl in Hn.
      apply left_of_cons.
      destruct (e =? 117) eqn:E3.
      * destruct r1 as [|h1 [|h2 [|h3 [|h4 r2]]]]; try discriminate.
        simpl in Hn. do 4 apply left_of_cons.
        destruct (hex4 h1 h2 h3 h4) as [c1|]; [|discriminate].
        assert (Hsingle :
                  option_map (fun '(t, rest) => (c1 :: t, rest)) (scanstring r2)
                  = Some (t, rest) -> left_of r2 (34 :: rest)).
        { apply (Hrec r2 (cons c1)). lia. }
        set (single := option_map (fun '(t, rest) => (c1 :: t, rest))
                                  (scanstring r2)) in *.
        clearbody single.
        destruct ((55296 <=? c1) && (c1 <=? 56319)); [|now apply Hsingle].
        rewrite head_pair in H.
        destruct r2 as [|a [|b [|k1 [|k2 [|k3 [|k4 r3]]]]]];
          try (apply Hsingle; exact H).
        destruct ((a =? 92) && (b =? 117)); [|apply Hsingle; exact H].
        destruct (hex4 k1 k2 k3 k4) as [c2|]; [|discriminate].
        destruct ((56320 <=? c2) && (c2 <=? 57343)); [|apply Hsingle; exact H].
        do 6 apply left_of_cons. simpl in Hn.
        apply (Hrec r3 (cons (65536 + (c1 - 55296) * 1024 + (c2 - 56320))));
          [lia|exact H].
      * destruct (simple_escape e) as [c'|]; [|discriminate].
        apply (Hrec r1 (cons c')); [lia|exact H].
    + destruct (c <=? 31); [discriminate|].
      apply (Hrec r (cons c)); [lia|exact H].
Qed.

Lemma scanstring_left_of (s t rest : str) :
  scanstring s = Some (t, rest) -> left_of s (34 :: rest).
Proof. now apply (scanstring_upto (List.length s)). Qed.

(** *** Numbers *)

Lemma digit_printable (c : N) : digit c -> printable c.
Proof.
  unfold digit, is_digit, printable. intro H.
  apply andb_true_iff in H as [H1 H2].
  apply N.leb_le in H1. apply N.leb_le in H2. lia.
Qed.

Lemma span_digits_spec (s : str) :
  forall d rest, span_digits s = (d, rest) -> s = d ++ rest /\ Forall digit d.
Proof.
  induction s as [|c s IH]; intros d rest H; simpl in H.
  - inversion H. split; [reflexivity|constructor].
  - destruct (is_digit c) eqn:E.
    + destruct (span_digits s) as [d' rest'] eqn:Es. inversion H; subst.
      destruct (IH d' rest eq_refl) as [-> Hd]. split; [reflexivity|].
      now constructor.
    + inversion H. split; [reflexivity|constructor].
Qed.

(** Digits in front of [rest]. *)
Lemma digits_end (d rest : str) :
  Forall digit d -> d <> [] -> ends_with digit (d ++ rest) rest.
Proof.
  intros Hd Hne. destruct (exists_last Hne) as (w & c & ->).
  apply Forall_app in Hd as [_ Hc]. inversion Hc; subst.
  exists w, c. split; [now rewrite <- app_assoc|assumption].
Qed.

Lemma scan_int_end (s int_part rest : str) :
  scan_int s = Some (int_part, rest) -> ends_with digit s rest.
Proof.
  unfold scan_int. destruct s as [|c r]; [discriminate|].
  destruct (c =? 48) eqn:E.
  - intro H. inversion H; subst. apply N.eqb_eq in E. subst c.
    exists [], 48. split; reflexivity.
  - destruct (is_digit c) eqn:Ec; [|discriminate].
    destruct (span_digits r) as [d rest'] eqn:Es. intro H. inversion H; subst.
    apply span_digits_spec in Es as [-> Hd].
    apply (digits_end (c :: d) rest); [now constructor|discriminate].
Qed.

Lemma head_dot {A} (s : str) (f : N -> str -> A) (d : A) :
  match s with
  | 46 :: c :: r => f c r
  | _ => d
  end
  = match s with
    | a :: c :: r => if a =? 46 then f c r else d
    | _ => d
    end.
Proof.
  destruct s as [|a s]; [reflexivity|].
  destruct s as [|c s]; head_cases a.
Qed.

Lemma scan_frac_end (s frac rest : str) :
  scan_frac s = (frac, rest) -> s = rest \/ ends_with digit s rest.
Proof.
  unfold scan_frac. rewrite head_dot.
  destruct s as [|a [|c r]]; try (intro H; inversion H; now left).
  destruct (a =? 46); [|intro H; inversion H; now left].
  destruct (is_digit c) eqn:Ec; [|intro H; inversion H; now left].
  destruct (span_digits r) as [d rest'] eqn:Es. intro H. inversion H; subst.
  apply span_digits_spec in Es as [-> Hd]. right.
  apply (left_of_ends digit _ ((c :: d) ++ rest)).
  - apply left_of_cons, left_of_refl.
  - apply digits_end; [now constructor|discriminate].
Qed.

Lemma scan_exp_end (s exp rest : str) :
  scan_exp s = (exp, rest) -> s = rest \/ ends_with digit s rest.
Proof.
  unfold scan_exp. destruct s as [|e r]; [intro H; inversion H; now left|].
  destruct ((e =? 101) || (e =? 69)); [|intro H; inversion H; now left].
  assert (Hsign : forall r1 sign,
             left_of r r1 ->
             match span_digits r1 with
             | ([], _) => ([], e :: r)
             | (d, rest) => (e :: sign ++ d, rest)
             end = (exp, rest) ->
             e :: r = rest \/ ends_with digit (e :: r) rest).
  { intros r1 sign Hr1. destruct (span_digits r1) as [d rest'] eqn:Es.
    apply span_digits_spec in Es as [-> Hd].
    destruct d as [|x d]; intro H; inversion H; subst; [now left|]. right.
    apply (left_of_ends digit _ ((x :: d) ++ rest)).
    - now apply left_of_cons.
    - apply digits_end; [assumption|discriminate]. }
  destruct r as [|c r'].
  - apply (Hsign [] []). apply left_of_refl.
  - destruct ((c =? 45) || (c =? 43)).
    + apply (Hsign r' [c]). apply left_of_cons, left_of_refl.
    + apply (Hsign (c :: r') []). apply left_of_refl.
Qed.

Lemma head_minus {A} (s : str) (f : str -> A) (d : A) :
  match s with
  | 45 :: r => f r
  | _ => d
  end
  = match s with
    | a :: r => if a =? 45 then f r else d
    | [] => d
    end.
Proof. destruct s as [|a s]; [reflexivity|]. head_cases a. Qed.

Lemma scan_number_end (s : str) (v : pyval) (rest : str) :
  scan_number s = Some (v, rest) -> ends_with digit s rest.
Proof.
  unfold scan_number. rewrite head_minus.
  assert (Hnum : forall neg s1,
             left_of s s1 ->
             match scan_int s1 with
             | None => None
             | Some (int_part, s2) =>
                 let (frac, s3) := scan_frac s2 in
                 let (exp, s4) := scan_exp s3 in
                 let sign := if neg : bool then [45] else [] in
                 match frac, exp with
                 | [], [] =>
                     let z := digits_value int_part in
                     Some (VInt (if neg then (- z)%Z else z), s4)
                 | _, _ => Some (VFloat (sign ++ int_part ++ frac ++ exp), s4)
                 end
             end = Some (v, rest) ->
             ends_with digit s rest).
  { intros neg s1 Hs1.
    destruct (scan_int s1) as [[int_part s2]|] eqn:Ei; [|discriminate].
    destruct (scan_frac s2) as [frac s3] eqn:Ef.
    destruct (scan_exp s3) as [exp s4] eqn:Ee.
    intro H.
    assert (s4 = rest) as <-.
    { destruct frac, exp; inversion H; reflexivity. }
    apply (left_of_ends digit s s1 s4 Hs1).
    apply scan_int_end in Ei. apply scan_frac_end in Ef.
    apply scan_exp_end in Ee.
    apply (ends_with_more digit s1 s3 s4); [|exact Ee].
    now apply (ends_with_more digit s1 s2 s3). }
  destruct s as [|a r]; [discriminate|].
  destruct (a =? 45).
  - apply (Hnum true r). apply left_of_cons, left_of_refl.
  - apply (Hnum false (a :: r)). apply left_of_refl.
Qed.

Lemma head_brace_or {A} (t : str) (f g : str -> A) :
  match skip_ws t with
  | 125 :: r => f r
  | r1 => g r1
  end
  = match skip_ws t with
    | a :: r => if a =? 125 then f r else g (a :: r)
    | [] => g []
    end.
Proof. destruct (skip_ws t) as [|a s]; [reflexivity|]. head_cases a. Qed.

Lemma head_bracket_or {A} (t : str) (f g : str -> A) :
  match skip_ws t with
  | 93 :: r => f r
  | r1 => g r1
  end
  = match skip_ws t with
    | a :: r => if a =? 93 then f r else g (a :: r)
    | [] => g []
    end.
Proof. destruct (skip_ws t) as [|a s]; [reflexivity|]. head_cases a. Qed.

Lemma head_quote {A} (s : str) (f : str -> A) (d : A) :
  match s with
  | 34 :: r => f r
  | _ => d
  end
  = match s with
    | a :: r => if a =? 34 then f r else d
    | [] => d
    end.
Proof. destruct s as [|a s]; [reflexivity|]. head_cases a. Qed.

Lemma head_colon {A} (s : str) (f : str -> A) (d : A) :
  match s with
  | 58 :: r => f r
  | _ => d
  end
  = match s with
    | a :: r => if a =? 58 then f r else d
    | [] => d
    end.
Proof. destruct s as [|a s]; [reflexivity|]. head_cases a. Qed.

Lemma head_brace_comma {A} (s : str) (f g : str -> A) (d : A) :
  match s with
  | 125 :: r => f r
  | 44 :: r => g r
  | _ => d
  end
  = match s with
    | a :: r => if a =? 125 then f r else if a =? 44 then g r else d
    | [] => d
    end.
Proof. destruct s as [|a s]; [reflexivity|]. head_cases a. Qed.

Lemma head_bracket_comma {A} (s : str) (f g : str -> A) (d : A) :
  match s with
  | 93 :: r => f r
  | 44 :: r => g r
  | _ => d
  end
  = match s with
    | a :: r => if a =? 93 then f r else if a =? 44 then g r else d
    | [] => d
    end.
Proof. destruct s as [|a s]; [reflexivity|]. head_cases a. Qed.

Lemma literal_end (w : str) (c : N) (s rest : str) :
  printable c -> strip_prefix (w ++ [c]) s = Some rest ->
  ends_with printable s rest.
Proof.
  intros Hc H. apply strip_prefix_left_of in H. subst s.
  exists w, c. split; [now rewrite <- app_assoc|exact Hc].
Qed.

Ltac printable_char := unfold printable; lia.

Lemma scan_ends (n : nat) :
  (forall s v rest,
      scan_once n s = Some (v, rest) -> ends_with printable s rest)
  /\ (forall s d v rest,
         parse_members n s d = Some (v, rest) -> ends_with printable s rest)
  /\ (forall s l v rest,
         parse_elements n s l = Some (v, rest) -> ends_with printable s rest).
Proof.
  induction n as [|n (IHo & IHm & IHe)].
  - repeat split; intros; discriminate.
  - split; [|split].
    + intros s v rest H. destruct s as [|c r]; [discriminate|].
      cbn [scan_once] in H.
      destruct (c =? 34).
      { apply option_map_some in H as ([t rest'] & Hs & Hf).
        inversion Hf; subst. apply scanstring_left_of in Hs.
        apply (left_of_char printable _ _ 34);
          [now apply left_of_cons|printable_char]. }
      destruct (c =? 123).
      { rewrite (head_brace_or _ (fun r1 => Some (VDict [], r1))
                               (fun r1 => parse_members n r1 [])) in H.
        pose proof (skip_ws_left_of r) as Hws.
        destruct (skip_ws r) as [|a r1] eqn:Er.
        - apply IHm in H. apply (left_of_ends printable _ []); [|exact H].
          now apply left_of_cons.
        - destruct (a =? 125) eqn:Ea.
          + apply N.eqb_eq in Ea. subst a. inversion H; subst.
            apply (left_of_char printable _ _ 125);
              [now apply left_of_cons|printable_char].
          + apply IHm in H.
            apply (left_of_ends printable _ (a :: r1)); [|exact H].
            now apply left_of_cons. }
      destruct (c =? 91).
      { rewrite (head_bracket_or _ (fun r1 => Some (VList [], r1))
                                 (fun r1 => parse_elements n r1 [])) in H.
        pose proof (skip_ws_left_of r) as Hws.
        destruct (skip_ws r) as [|a r1] eqn:Er.
        - apply IHe in H. apply (left_of_ends printable _ []); [|exact H].
          now apply left_of_cons.
        - destruct (a =? 93) eqn:Ea.
          + apply N.eqb_eq in Ea. subst a. inversion H; subst.
            apply (left_of_char printable _ _ 93);
              [now apply left_of_cons|printable_char].
          + apply IHe in H.
            apply (left_of_ends printable _ (a :: r1)); [|exact H].
            now apply left_of_cons. }
      destruct (strip_prefix (u "null") (c :: r)) as [r'|] eqn:E1.
      { inversion H; subst.
        apply (literal_end (u "nul") 108); [printable_char|exact E1]. }
      destruct (strip_prefix (u "true") (c :: r)) as [r'|] eqn:E2.
      { inversion H; subst.
        apply (literal_end (u "tru") 101); [printable_char|exact E2]. }
      destruct (strip_prefix (u "false") (c :: r)) as [r'|] eqn:E3.
      { inversion H; subst.
        apply (literal_end (u "fals") 101); [printable_char|exact E3]. }
      destruct (strip_prefix (u "NaN") (c :: r)) as [r'|] eqn:E4.
      { inversion H; subst.
        apply (literal_end (u "Na") 78); [printable_char|exact E4]. }
      destruct (strip_prefix (u "Infinity") (c :: r)) as [r'|] eqn:E5.
      { inversion H; subst.
        apply (literal_end (u "Infinit") 121); [printable_char|exact E5]. }
      destruct (strip_prefix (u "-Infinity") (c :: r)) as [r'|] eqn:E6.
      { inversion H; subst.
        apply (literal_end (u "-Infinit") 121); [printable_char|exact E6]. }
      apply scan_number_end in H.
      apply (ends_with_impl digit); [apply digit_printable|exact H].
    + intros s d v rest H. cbn [parse_members] in H.
      rewrite head_quote in H. destruct s as [|a r]; [discriminate|].
      destruct (a =? 34); [|discriminate].
      destruct (scanstring r) as [[key r1]|] eqn:Ek; [|discriminate].
      apply scanstring_left_of in Ek.
      rewrite head_colon in H.
      pose proof (skip_ws_left_of r1) as Hw1.
      destruct (skip_ws r1) as [|b r2]; [discriminate|].
      destruct (b =? 58); [|discriminate].
      pose proof (skip_ws_left_of r2) as Hw2.
      destruct (scan_once n (skip_ws r2)) as [[val r3]|] eqn:Ev;
        [|discriminate].
      apply IHo, ends_left_of in Ev.
      assert (Hr3 : left_of (a :: r) r3).
      { apply left_of_cons.
        apply (left_of_trans _ (34 :: r1)); [exact Ek|].
        apply left_of_cons.
        apply (left_of_trans _ (b :: r2)); [exact Hw1|].
        apply left_of_cons.
        apply (left_of_trans _ (skip_ws r2)); assumption. }
      cbv zeta in H. rewrite head_brace_comma in H.
      pose proof (skip_ws_left_of r3) as Hw3.
      destruct (skip_ws r3) as [|e r4]; [discriminate|].
      destruct (e =? 125) eqn:Ee.
      * apply N.eqb_eq in Ee. subst e. inversion H; subst.
        apply (left_of_char printable _ _ 125); [|printable_char].
        now apply (left_of_trans _ r3).
      * destruct (e =? 44); [|discriminate].
        apply IHm in H.
        apply (left_of_ends printable _ (skip_ws r4)); [|exact H].
        apply (left_of_trans _ r3); [exact Hr3|].
        apply (left_of_trans _ (e :: r4)); [exact Hw3|].
        apply left_of_cons, skip_ws_left_of.
    + intros s l v rest H. cbn [parse_elements] in H.
      destruct (scan_once n s) as [[val r1]|] eqn:Ev; [|discriminate].
      apply IHo, ends_left_of in Ev.
      cbv zeta in H. rewrite head_bracket_comma in H.
      pose proof (skip_ws_left_of r1) as Hw1.
      destruct (skip_ws r1) as [|e r2]; [discriminate|].
      destruct (e =? 93) eqn:Ee.
      * apply N.eqb_eq in Ee. subst e. inversion H; subst.
        apply (left_of_char printable _ _ 93); [|printable_char].
        now apply (left_of_trans _ r1).
      * destruct (e =? 44); [|discriminate].
        apply IHe in H.
        apply (left_of_ends printable _ (skip_ws r2)); [|exact H].
        apply (left_of_trans _ r1); [exact Ev|].
        apply (left_of_trans _ (e :: r2)); [exact Hw1|].
        apply left_of_cons, skip_ws_left_of.
Qed.

Lemma is_ws_plain (c : N) : is_ws c = true -> c < 128 /\ c <> 23.
Proof.
  unfold is_ws. rewrite !orb_true_iff, !N.eqb_eq. lia.
Qed.

(** A text that [json.loads] accepts ends with an ASCII character other
    than U+0017. *)
Lemma json_loads_last (s : str) (v : pyval) :
  json_loads s = Ok v -> exists w c, s = w ++ [c] /\ c < 128 /\ c <> 23.
Proof.
  unfold json_loads.
  destruct (match s with c :: _ => c =? 65279 | [] => false end);
    [discriminate|].
  destruct (scan_once _ (skip_ws s)) as [[v' rest]|] eqn:E; [|discriminate].
  destruct (skip_ws rest) eqn:Er; [|discriminate]. intros _.
  apply skip_ws_nil in Er.
  apply (proj1 (scan_ends _)) in E.
  apply (left_of_ends printable s) in E; [|apply skip_ws_left_of].
  destruct E as (w & c & -> & Hc).
  destruct rest as [|x rest] using rev_ind.
  - exists w, c. unfold printable in Hc. repeat split; lia.
  - apply Forall_app in Er as [_ Hx]. inversion Hx; subst.
    exists (w ++ c :: rest), x. split.
    + rewrite <- app_assoc. reflexivity.
    + now apply is_ws_plain.
Qed.

Lemma encode_utf8_app (a b : str) :
  encode_utf8 (a ++ b) = encode_utf8 a ++ encode_utf8 b.
Proof. unfold encode_utf8. apply flat_map_app. Qed.

Lemma is_quote_b64_char (v : N) : is_quote (b64_char v) = false.
Proof.
  destruct (v <? 64) eqn:E.
  - apply N.ltb_lt in E. apply negb_true_iff.
    apply (below_forall 64 (fun v => negb (is_quote (b64_char v))));
      [vm_compute; reflexivity|exact E].
  - apply N.ltb_ge in E. unfold b64_char.
    replace (v <? 26) with false by (symmetry; apply N.ltb_ge; lia).
    replace (v <? 52) with false by (symmetry; apply N.ltb_ge; lia).
    replace (v <? 62) with false by (symmetry; apply N.ltb_ge; lia).
    replace (v =? 62) with false by (symmetry; apply N.eqb_neq; lia).
    reflexivity.
Qed.

Lemma b64encode_quote_free (b : bytes) : quote_free (b64encode b).
Proof.
  unfold quote_free.
  induction b as [|b0|b0 b1|b0 b1 b2 r IH] using list_ind3;
    cbn [b64encode]; rewrite ?nquotes_cons, ?is_quote_b64_char, ?IH;
    reflexivity.
Qed.

Lemma b64encode_not_nil (b : bytes) : b <> [] -> b64encode b <> [].
Proof. destruct b as [|b0 [|b1 [|b2 r]]]; [contradiction|discriminate..]. Qed.

(** The fragment that the standard encoders make of a text that ends as
    the texts that [json.loads] accepts do. *)
Lemma encoded_fragment (t w : str) (c : N) :
  forallb is_scalar t = true ->
  t = w ++ [c] -> c < 128 -> c <> 23 ->
  let frag := b64encode (encode_utf8 t) in
  frag <> [] /\ quote_free frag /\ ends_ci (u "src=") frag = false
  /\ decode_fragment frag = try_except (json_loads t) (fun _ => Ok VNone).
Proof.
  intros Ht -> Hc Hc' frag.
  pose proof (encode_utf8_bytes _ Ht) as Hb.
  assert (Hlast : encode_utf8 (w ++ [c]) = encode_utf8 w ++ [c]).
  { rewrite encode_utf8_app. f_equal. unfold encode_utf8, encode_cp. simpl.
    apply N.ltb_lt in Hc. now rewrite Hc. }
  repeat split.
  - apply b64encode_not_nil. rewrite Hlast. now destruct (encode_utf8 w).
  - apply b64encode_quote_free.
  - apply ends_ci_src_b64encode; [exact Hb| |]; rewrite Hlast, last_last; lia.
  - unfold decode_fragment, frag.
    rewrite b64decode_b64encode by exact Hb. cbn [rbind].
    rewrite decode_utf8_encode_utf8 by exact Ht. cbn [rbind].
    destruct (json_loads (w ++ [c])); reflexivity.
Qed.

(** ** Round trips *)

(** X5.  Round trip through a page.  When the first [<script] of a page
    opens the tag [<script id="cl-bootstrap" src="base#frag">] whose
    [frag] is the base64 text of the UTF-8 bytes of a text [t] that ends
    with an ASCII character other than U+0017, the function returns what
    [json.loads] gives for [t], and [None] when [json.loads] raises,
    whatever comes before and after the tag.  Every text that [json.loads]
    accepts ends in that way. *)
Theorem X5_round_trip_any_json (pre base rest t : str) :
  re_search (lits "<script") pre = None ->
  plain_base base ->
  forallb is_scalar t = true ->
  let ends_plain := exists w c, t = w ++ [c] /\ c < 128 /\ c <> 23 in
  (ends_plain ->
   parse_bootstrap_config
     (pre ++ tag_id_first base (b64encode (encode_utf8 t)) ++ rest)
   = try_except (json_loads t) (fun _ => Ok VNone))
  /\ (forall v, json_loads t = Ok v -> ends_plain).
Proof.
  intros Hpre Hbase Ht ends_plain. split.
  - intros (w & c & Hw & Hc & Hc').
    destruct (encoded_fragment t w c Ht Hw Hc Hc') as (Hne & Hq & Hend & Hd).
    rewrite parse_decode_fragment.
    rewrite tag_id_first_search by assumption. exact Hd.
  - intros v Hv. exact (json_loads_last t v Hv).
Qed.

Lemma X5_round_trip_any_json_witness :
  parse_bootstrap_config internal_page = Ok (VDict internal_mapping).
Proof.
  assert (re_search (lits "<script") (u "<html><head>") = None) as Hpre
    by (vm_compute; reflexivity).
  assert (plain_base (u "/static/boot.js")) as Hbase.
  { repeat split.
    - discriminate.
    - apply not_In_forallb. reflexivity. }
  destruct (X5_round_trip_any_json
              (u "<html><head>") (u "/static/boot.js")
              (u "</script></head><body></body></html>") internal_json
              Hpre Hbase eq_refl) as [Hpage Hends].
  transitivity (try_except (json_loads internal_json) (fun _ => Ok VNone)).
  - apply Hpage. apply (Hends (VDict internal_mapping)).
    vm_compute. reflexivity.
  - vm_compute. reflexivity.
Defined.

(** X6.  Lines 39-44 undo the standard encoders: on the base64 text of the
    UTF-8 bytes of any text [t] they give what [json.loads] gives for [t],
    and [None] when [json.loads] raises. *)
Theorem X6_decode_inverts_encoders (t : str) :
  forallb is_scalar t = true ->
  decode_fragment (b64encode (encode_utf8 t))
  = try_except (json_loads t) (fun _ => Ok VNone).
Proof.
  intro Ht. unfold decode_fragment.
  rewrite b64decode_b64encode by now apply encode_utf8_bytes.
  cbn [rbind]. rewrite decode_utf8_encode_utf8 by exact Ht. cbn [rbind].
  destruct (json_loads t); reflexivity.
Qed.

Lemma X6_decode_inverts_encoders_witness :
  decode_fragment (b64encode (encode_utf8 internal_json))
  = try_except (json_loads internal_json) (fun _ => Ok VNone).
Proof. apply X6_decode_inverts_encoders. reflexivity. Defined.

(** ** Fragments with other characters *)

Lemma a2b_base64_loop_filter (s : list N) :
  forall quad_pos leftchar pads out,
    a2b_base64_loop (filter b64_relevant s) quad_pos leftchar pads out
    = a2b_base64_loop s quad_pos leftchar pads out.
Proof.
  induction s as [|c s IH]; intros; [reflexivity|].
  cbn [filter]. unfold b64_relevant at 1.
  destruct (c =? 61) eqn:E1.
  - cbn [orb a2b_base64_loop]. rewrite E1.
    repeat match goal with
           | |- context [if ?b then _ else _] => destruct b
           end; auto.
  - cbn [orb]. destruct (b64_value c) as [v|] eqn:E2.
    + cbn [a2b_base64_loop]. rewrite E1, E2.
      repeat match goal with
             | |- context [if ?b then _ else _] => destruct b
             end; auto.
    + cbn [a2b_base64_loop]. rewrite E1, E2. apply IH.
Qed.

Lemma forallb_filter {A} (f g : A -> bool) (l : list A) :
  forallb f l = true -> forallb f (filter g l) = true.
Proof.
  induction l as [|x l IH]; simpl; intro H; [reflexivity|].
  apply andb_true_iff in H as [Hx Hl].
  destruct (g x); simpl; [rewrite Hx|]; auto.
Qed.

(** X7.  [b64decode] is called without [validate]: in a fragment of ASCII
    characters those that are neither of the base64 alphabet nor the pad
    are skipped, so the fragment gives what it gives without them; a
    fragment with a character outside ASCII gives [None]. *)
Theorem X7_foreign_characters_in_fragment (frag : str) :
  (forallb (fun c => c <? 128) frag = true ->
   decode_fragment frag = decode_fragment (filter b64_relevant frag))
  /\ (forallb (fun c => c <? 128) frag = false ->
      decode_fragment frag = Ok VNone).
Proof.
  unfold decode_fragment, b64decode. split; intro H.
  - rewrite H, (forallb_filter _ _ _ H).
    now rewrite a2b_base64_loop_filter.
  - rewrite H. reflexivity.
Qed.

Lemma X7_foreign_characters_in_fragment_witness :
  decode_fragment (u "e 3-0 =.") = decode_fragment (u "e30=")
  /\ decode_fragment (u "e30" ++ [233]) = Ok VNone.
Proof.
  split.
  - apply (proj1 (X7_foreign_characters_in_fragment (u "e 3-0 =."))).
    reflexivity.
  - apply (proj2 (X7_foreign_characters_in_fragment (u "e30" ++ [233]))).
    reflexivity.
Defined.

(** X8.  The fourth way to [None]: the tag is found and its fragment
    decodes to text, and [json.loads] rejects the text. *)
Theorem X8_bad_json_is_none (page : str) (m : list str) (raw : bytes)
  (decoded : str) (e : exn) :
  re_search bootstrap_re page = Some m ->
  b64decode (group m 2) = Ok raw ->
  decode_utf8 raw = Ok decoded ->
  json_loads decoded = Raise e ->
  parse_bootstrap_config page = Ok VNone.
Proof.
  unfold parse_bootstrap_config. intros -> H1 H2 H3.
  pose proof (json_loads_no_exit decoded) as Hn.
  rewrite H1. simpl. rewrite H2. simpl. rewrite H3 in *. simpl.
  now apply try_except_raise.
Qed.

Lemma X8_bad_json_is_none_witness :
  parse_bootstrap_config bad_json_page = Ok VNone.
Proof.
  apply (X8_bad_json_is_none bad_json_page
           [u "/static/boot.js"; b64encode (encode_utf8 (u "{oops"))]
           (encode_utf8 (u "{oops")) (u "{oops")
           (json_error "Expecting value"));
    vm_compute; reflexivity.
Defined.

(** ** The fetchers and the locator *)

Section MoreScriptProperties.

Context (P : Platform).

(** X9.  On an answer whose status is not from 400 to 599 both fetchers
    return [resp.json()] as it is, a value of any shape or the exception
    that it raises. *)
Theorem X9_fetchers_return_json (cdn_host : str)
  (namespace repo version : pyval) (resp : Response) :
  (status_code resp < 400 \/ 600 <= status_code resp)%Z ->
  (http_get P (apps_url cdn_host (base_folder P namespace)) 10 = Ok resp ->
   snd (load_apps_config P cdn_host namespace) = json resp)
  /\ (http_get P (entry_assets_url cdn_host (base_folder P namespace)
                                   (py_str P repo) (py_str P version)) 10
      = Ok resp ->
      snd (fetch_entry_assets P cdn_host namespace repo version) = json resp).
Proof.
  intro Hst. apply raise_for_status_ok in Hst. split; intro H.
  - unfold load_apps_config, requests_get.
    fold (apps_url cdn_host (base_folder P namespace)). rewrite H. simpl.
    rewrite Hst. simpl. now destruct (json resp).
  - unfold fetch_entry_assets, requests_get.
    match goal with
    | |- context [http_get P ?x 10] =>
        change x with (entry_assets_url cdn_host (base_folder P namespace)
                                        (py_str P repo) (py_str P version))
    end.
    rewrite H. simpl. rewrite Hst. simpl. now destruct (json resp).
Qed.

Lemma find_app_step (d : list (str * pyval)) (l : list pyval)
  (app_id : pyval) :
  no_id_match P app_id d ->
  find_app P (VList (VDict d :: l)) app_id = find_app P (VList l) app_id.
Proof.
  unfold no_id_match, find_app. intro H. simpl. now rewrite H.
Qed.

Lemma find_app_iter (apps : pyval) (l : list pyval) (app_id : pyval) :
  py_iter apps = Ok l -> find_app P apps app_id = find_app P (VList l) app_id.
Proof. unfold find_app. now intros ->. Qed.

(** X10.  [find_app] calls [get] on every element that the iteration over
    the manifest gives, up to the first match: when an element that is not
    a dict comes before any match, the call raises [AttributeError], also
    when a later descriptor has the identifier; so it does for a manifest
    that is a JSON object, whose iteration gives its keys. *)
Theorem X10_find_app_element_not_a_dict (apps : pyval)
  (pre : list (list (str * pyval))) (x : pyval) (post : list pyval)
  (app_id : pyval) :
  py_iter apps = Ok (map VDict pre ++ x :: post) ->
  Forall (no_id_match P app_id) pre ->
  is_dict x = false ->
  find_app P apps app_id
  = Raise (mk_exn "AttributeError" "object has no attribute 'get'").
Proof.
  intros Hiter Hpre Hx. rewrite (find_app_iter _ _ _ Hiter). clear Hiter.
  induction Hpre as [|d pre Hd _ IH]; simpl app.
  - unfold find_app. simpl. destruct x; try reflexivity. discriminate.
  - rewrite find_app_step by exact Hd. exact IH.
Qed.

End MoreScriptProperties.

Lemma X9_fetchers_return_json_witness :
  snd (load_apps_config scenario_platform (u "https://cloverstatic.com")
                        (VStr (u "standard")))
  = Ok example_apps
  /\ snd (fetch_entry_assets scenario_platform (u "https://cloverstatic.com")
                             (VStr (u "standard")) (VStr (u "portal"))
                             (VStr (u "3.2.1")))
     = Ok example_assets.
Proof.
  destruct (X9_fetchers_return_json scenario_platform
              (u "https://cloverstatic.com") (VStr (u "standard"))
              (VStr (u "portal")) (VStr (u "3.2.1"))
              (response 200 (u "OK") example_apps_url example_apps_text))
    as [H1 _]; [simpl; lia|].
  destruct (X9_fetchers_return_json scenario_platform
              (u "https://cloverstatic.com") (VStr (u "standard"))
              (VStr (u "portal")) (VStr (u "3.2.1"))
              (response 200 (u "OK") example_assets_url example_assets_text))
    as [_ H2]; [simpl; lia|].
  split.
  - rewrite H1; [vm_compute|]; reflexivity.
  - rewrite H2; [vm_compute|]; reflexivity.
Defined.

Lemma X10_find_app_element_not_a_dict_witness :
  find_app offline_platform
    (VList [VDict [(u "id", VStr (u "a"))]; VStr (u "oops");
            VDict [(u "id", VStr (u "b"))]])
    (VStr (u "b"))
  = Raise (mk_exn "AttributeError" "object has no attribute 'get'")
  /\ find_app offline_platform (VDict [(u "apps", example_apps)])
                (VStr (u "web-portal"))
     = Raise (mk_exn "AttributeError" "object has no attribute 'get'").
Proof.
  split.
  - apply (X10_find_app_element_not_a_dict offline_platform _
             [[(u "id", VStr (u "a"))]] (VStr (u "oops"))
             [VDict [(u "id", VStr (u "b"))]]).
    + reflexivity.
    + repeat constructor.
    + reflexivity.
  - apply (X10_find_app_element_not_a_dict offline_platform _
             [] (VStr (u "apps")) []).
    + reflexivity.
    + constructor.
    + reflexivity.
Defined.

(** ** More of [main] *)

Lemma fst_run (m : prog unit) : fst (run m) = fst m.
Proof. destruct m as [l [a|[code|cls msg]]]; reflexivity. Qed.

Lemma bind_events {A B} (m : prog A) (f : A -> prog B) :
  exists l, fst (bind m f) = fst m ++ l.
Proof.
  destruct m as [l [a|e]]; simpl.
  - destruct (f a) as [l' r]. now exists l'.
  - exists []. now rewrite app_nil_r.
Qed.

Lemma try_prog_events {A} (m : prog A) (h : exn -> prog A) :
  exists l, fst (try_prog m h) = fst m ++ l.
Proof.
  destruct m as [l [a|[code|cls msg]]]; simpl.
  - exists []. now rewrite app_nil_r.
  - exists []. now rewrite app_nil_r.
  - destruct (h (Exception cls msg)) as [l' r]. now exists l'.
Qed.

Section MoreMainProperties.

Context (P : Platform).

Lemma cdn_host_of_cases (env_type : str) :
  cdn_host_of env_type = u "https://cloverstatic.com"
  \/ cdn_host_of env_type = u "https://dev.cloverstatic.com".
Proof. unfold cdn_host_of. destruct (str_eqb _ _); auto. Qed.

Lemma base_folder_cases (namespace : pyval) :
  base_folder P namespace = u "apps"
  \/ base_folder P namespace = u "internal-apps".
Proof. unfold base_folder. destruct (py_eq _ _ _); auto. Qed.

Lemma with_scheme_cases (scheme input_url : str) :
  with_scheme scheme input_url = input_url
  \/ with_scheme scheme input_url = u "https://" ++ input_url.
Proof. destruct scheme; simpl; auto. Qed.

Lemma config_ids_dict (d : list (str * pyval)) :
  config_ids P (VDict d) = Ok (config_namespace d, config_app_id d).
Proof.
  unfold config_ids, config_namespace, config_app_id.
  destruct d as [|kv d]; reflexivity.
Qed.

(** Without a URL argument the process prints the usage line, on standard
    output when it takes the line, issues no request and exits with status
    1; the arguments after the URL are not looked at. *)
Example usage_without_url (argv0 : str) :
  (stdout_write P (u "Usage: " ++ argv0 ++ u " <url>") = Ok tt ->
   run (main P [argv0])
   = ([EOut (u "Usage: " ++ argv0 ++ u " <url>")], Exited 1))
  /\ forall url0 rest, main P (argv0 :: url0 :: rest) = main P [argv0; url0].
Proof.
  split; [|reflexivity]. intro H. unfold main. now rewrite (print_ok P _ H).
Qed.

(** X11.  [if config:] tests the value and not its type.  A configuration
    that is false for it ([None], but also the empty object, the empty
    list, the empty string, zero and [false]) leaves the two defaults; one
    that is true for it and is not a dict has no method [get]: the process
    ends with an [AttributeError] after its first request, with no line of
    its own. *)
Theorem X11_config_not_an_object (argv : list str)
  (input_url cdn_host : str) (config : pyval) :
  reaches_config P argv input_url cdn_host config ->
  (py_truthy P config = false ->
   reaches_apps P argv input_url cdn_host (VStr (u "standard"))
                (VStr (u "web-portal")))
  /\ (py_truthy P config = true -> is_dict config = false ->
      run (main P argv)
      = ([EGet input_url 10],
         Traceback (mk_exn "AttributeError" "object has no attribute 'get'"))).
Proof.
  intro Hreach. split.
  - intro Hf. exists config. split; [exact Hreach|].
    unfold config_ids. now rewrite Hf.
  - intros Ht Hd.
    destruct Hreach as (argv0 & url0 & rest & p1 & p2 & r1 & -> & H1 & ->
                        & H2 & -> & H3 & H4).
    unfold main. rewrite H1. simpl. rewrite H2. simpl.
    unfold requests_get. rewrite H3. simpl. rewrite H4. simpl.
    unfold config_ids. rewrite Ht.
    destruct config; try reflexivity. discriminate.
Qed.

(** X12.  Lines 80-92.  [urlparse] is called outside any [try]: when it
    raises on the argument the process ends with that exception, before any
    request and with no line of its own.  When [requests.get] raises on
    the page, the process writes [Error fetching], the URL with its scheme
    and the text of the exception on standard error, issues no other
    request and exits with status 1. *)
Theorem X12_page_fetch_failures (argv0 url0 : str) (rest : list str) :
  (forall cls msg,
      urlparse P url0 = Raise (Exception cls msg) ->
      run (main P (argv0 :: url0 :: rest))
      = ([], Traceback (Exception cls msg)))
  /\ (forall parsed1 parsed2 cls msg,
         urlparse P url0 = Ok parsed1 ->
         urlparse P (with_scheme (fst parsed1) url0) = Ok parsed2 ->
         http_get P (with_scheme (fst parsed1) url0) 10
         = Raise (Exception cls msg) ->
         run (main P (argv0 :: url0 :: rest))
         = ([EGet (with_scheme (fst parsed1) url0) 10;
             EErr (u "Error fetching " ++ with_scheme (fst parsed1) url0
                   ++ u ": " ++ msg)],
            Exited 1)).
Proof.
  split.
  - intros cls msg H. unfold main. rewrite H. reflexivity.
  - intros parsed1 parsed2 cls msg H1 H2 H3.
    unfold main. rewrite H1. simpl. rewrite H2. simpl.
    unfold requests_get. rewrite H3. reflexivity.
Qed.

(** X13.  A configuration that is a dict selects the manifest: the run
    goes on with [config.get("namespace", "standard")] and
    [config.get("appId", "web-portal")], each key by itself, and its second
    request is for the apps manifest under the folder of that namespace. *)
Theorem X13_config_selects_manifest (argv : list str)
  (input_url cdn_host : str) (d : list (str * pyval)) :
  reaches_config P argv input_url cdn_host (VDict d) ->
  reaches_apps P argv input_url cdn_host (config_namespace d)
               (config_app_id d)
  /\ exists tail,
       fst (run (main P argv))
       = EGet input_url 10
         :: EGet (apps_url cdn_host
                           (base_folder P (config_namespace d))) 10
         :: tail.
Proof.
  intro Hreach. split.
  { exists (VDict d). split; [exact Hreach|apply config_ids_dict]. }
  destruct Hreach as (argv0 & url0 & rest & p1 & p2 & r1 & -> & H1 & -> & H2
                      & -> & H3 & H4).
  rewrite fst_run. unfold main. rewrite H1. cbn [lift bind]. rewrite H2.
  cbn [lift bind app snd]. unfold requests_get at 1. rewrite H3.
  cbn [bind ret try_prog]. rewrite H4. cbn [lift bind].
  rewrite config_ids_dict. cbn [lift bind fst snd app].
  match goal with
  | |- context [bind (try_prog ?m ?h) ?K] =>
      destruct (bind_events (try_prog m h) K) as [l1 E1];
      destruct (try_prog_events m h) as [l2 E2];
      rewrite E2, load_apps_config_events in E1;
      destruct (bind (try_prog m h) K) as [lx rx]
  end.
  simpl in E1. subst lx. simpl. eauto.
Qed.

(** X14.  [resp.json()] is called inside [load_apps_config]: when the apps
    manifest arrives with a status that [raise_for_status] accepts and a
    body that is not JSON, the process writes
    [Unable to load apps configuration:] and the text of the exception on
    standard error and exits with status 1. *)
Theorem X14_apps_manifest_not_json (argv : list str)
  (input_url cdn_host : str) (namespace app_id : pyval) (resp : Response)
  (cls msg : str) :
  reaches_apps P argv input_url cdn_host namespace app_id ->
  http_get P (apps_url cdn_host (base_folder P namespace)) 10 = Ok resp ->
  raise_for_status resp = Ok tt ->
  json resp = Raise (Exception cls msg) ->
  run (main P argv)
  = ([EGet input_url 10;
      EGet (apps_url cdn_host (base_folder P namespace)) 10;
      EErr (u "Unable to load apps configuration: " ++ msg)],
     Exited 1).
Proof.
  intros (config & (argv0 & url0 & rest & p1 & p2 & r1 & -> & H1 & -> & H2
                    & -> & H3 & H4) & H5) G1 G2 G3.
  unfold main. rewrite H1. simpl. rewrite H2. simpl.
  unfold requests_get. rewrite H3. simpl. rewrite H4. simpl.
  rewrite H5. simpl. unfold load_apps_config, requests_get.
  fold (apps_url (cdn_host_of
                    (determine_env_type
                       match snd p2 with Some h => h | None => [] end))
                 (base_folder P namespace)).
  rewrite G1. simpl. rewrite G2. simpl. rewrite G3. simpl. reflexivity.
Qed.

(** X15.  When [find_app] returns a value that is false for [if not app]
    ([None], when no descriptor has the identifier), the process writes
    [Application ID '...' not found in apps configuration.] with the
    identifier on standard error, issues no third request and exits with
    status 1. *)
Theorem X15_application_not_found (argv : list str)
  (input_url cdn_host : str) (namespace app_id : pyval) (resp : Response)
  (apps app : pyval) :
  reaches_apps P argv input_url cdn_host namespace app_id ->
  http_get P (apps_url cdn_host (base_folder P namespace)) 10 = Ok resp ->
  raise_for_status resp = Ok tt ->
  json resp = Ok apps ->
  find_app P apps app_id = Ok app ->
  py_truthy P app = false ->
  run (main P argv)
  = ([EGet input_url 10;
      EGet (apps_url cdn_host (base_folder P namespace)) 10;
      EErr (u "Application ID '" ++ py_str P app_id
            ++ u "' not found in apps configuration.")],
     Exited 1).
Proof.
  intros (config & (argv0 & url0 & rest & p1 & p2 & r1 & -> & H1 & -> & H2
                    & -> & H3 & H4) & H5) G1 G2 G3 G4 G5.
  unfold main. rewrite H1. simpl. rewrite H2. simpl.
  unfold requests_get. rewrite H3. simpl. rewrite H4. simpl.
  rewrite H5. simpl. unfold load_apps_config, requests_get.
  fold (apps_url (cdn_host_of
                    (determine_env_type
                       match snd p2 with Some h => h | None => [] end))
                 (base_folder P namespace)).
  rewrite G1. simpl. rewrite G2. simpl. rewrite G3. simpl.
  rewrite G4. simpl. rewrite G5. simpl. reflexivity.
Qed.

(** X16.  [app["repo"]] and [app["version"]] are read outside any [try]:
    when the descriptor found has no [repo], or has one and no [version],
    the process ends with the [KeyError] of that key after its two
    requests, with no line of its own. *)
Theorem X16_descriptor_without_repo_or_version (argv : list str)
  (input_url cdn_host : str) (namespace app_id : pyval) (resp : Response)
  (apps : pyval) (d : list (str * pyval)) :
  reaches_apps P argv input_url cdn_host namespace app_id ->
  http_get P (apps_url cdn_host (base_folder P namespace)) 10 = Ok resp ->
  raise_for_status resp = Ok tt ->
  json resp = Ok apps ->
  find_app P apps app_id = Ok (VDict d) ->
  d <> [] ->
  let gets := [EGet input_url 10;
               EGet (apps_url cdn_host (base_folder P namespace)) 10] in
  (dict_get d (u "repo") = None ->
   run (main P argv)
   = (gets, Traceback (Exception (u "KeyError") (sq :: u "repo" ++ [sq]))))
  /\ (forall repo,
         dict_get d (u "repo") = Some repo ->
         dict_get d (u "version") = None ->
         run (main P argv)
         = (gets,
            Traceback (Exception (u "KeyError") (sq :: u "version" ++ [sq])))).
Proof.
  intros (config & (argv0 & url0 & rest & p1 & p2 & r1 & -> & H1 & -> & H2
                    & -> & H3 & H4) & H5) G1 G2 G3 G4 G5 gets.
  assert (Ht : py_truthy P (VDict d) = true) by (now destruct d).
  unfold main. rewrite H1. simpl. rewrite H2. simpl.
  unfold requests_get. rewrite H3. simpl. rewrite H4. simpl.
  rewrite H5. simpl. unfold load_apps_config, requests_get.
  fold (apps_url (cdn_host_of
                    (determine_env_type
                       match snd p2 with Some h => h | None => [] end))
                 (base_folder P namespace)).
  rewrite G1. simpl. rewrite G2. simpl. rewrite G3. simpl.
  rewrite G4. cbn [lift bind List.app fst snd]. rewrite Ht. cbn [negb].
  unfold py_getitem. split.
  - intros ->. reflexivity.
  - intros repo -> ->. reflexivity.
Qed.

(** X17.  When the fetch of the entry assets gets no answer, an answer
    with a status from 400 to 599, or a body that is not JSON, the process
    writes [Unable to fetch entry assets:] and the text of the exception on
    standard error after its three requests, prints nothing and exits with
    status 1. *)
Theorem X17_entry_assets_failure (argv : list str)
  (input_url cdn_host : str) (namespace repo version : pyval) :
  reaches_assets P argv input_url cdn_host namespace repo version ->
  let url := entry_assets_url cdn_host (base_folder P namespace)
                              (py_str P repo) (py_str P version) in
  (exists cls msg, http_get P url 10 = Raise (Exception cls msg))
  \/ (exists resp,
         http_get P url 10 = Ok resp /\ (400 <= status_code resp < 600)%Z)
  \/ (exists resp cls msg,
         http_get P url 10 = Ok resp /\ raise_for_status resp = Ok tt
         /\ json resp = Raise (Exception cls msg)) ->
  exists msg,
    run (main P argv)
    = ([EGet input_url 10;
        EGet (apps_url cdn_host (base_folder P namespace)) 10;
        EGet url 10;
        EErr (u "Unable to fetch entry assets: " ++ msg)],
       Exited 1).
Proof.
  intros (app_id & r2 & apps & app
          & (config & (argv0 & url0 & rest & p1 & p2 & r1 & -> & H1 & -> & H2
                       & -> & H3 & H4) & H5)
          & G1 & G2 & G3 & G4 & G5 & G6 & G7) url Hfail.
  assert (Hf : exists cls msg,
             fetch_entry_assets P
               (cdn_host_of
                  (determine_env_type
                     match snd p2 with Some h => h | None => [] end))
               namespace repo version
             = ([EGet url 10], Raise (Exception cls msg))).
  { unfold fetch_entry_assets, requests_get.
    match goal with
    | |- context [http_get P ?x 10] => change x with url
    end.
    destruct Hfail as [(cls & msg & K)|[(resp & K & Hst)
                                       |(resp & cls & msg & K & K2 & K3)]];
      rewrite K; simpl.
    - eauto.
    - apply raise_for_status_error in Hst as (msg & Hst). rewrite Hst. simpl.
      eauto.
    - rewrite K2. simpl. rewrite K3. simpl. eauto. }
  destruct Hf as (cls & msg & Hf). exists msg.
  unfold main. rewrite H1. simpl. rewrite H2. simpl.
  unfold requests_get. rewrite H3. simpl. rewrite H4. simpl.
  rewrite H5. simpl. unfold load_apps_config, requests_get.
  fold (apps_url (cdn_host_of
                    (determine_env_type
                       match snd p2 with Some h => h | None => [] end))
                 (base_folder P namespace)).
  rewrite G1. simpl. rewrite G2. simpl. rewrite G3. simpl.
  rewrite G4. simpl. rewrite G5. simpl. rewrite G6. simpl. rewrite G7. simpl.
  rewrite Hf. simpl. reflexivity.
Qed.

(** X18.  [entry_assets.get] is called outside any [try] and on whatever
    [resp.json()] returned: when the entry assets are JSON and not an
    object, the process ends with an [AttributeError] after its three
    requests, with no line of its own. *)
Theorem X18_entry_assets_not_an_object (argv : list str)
  (input_url cdn_host : str) (namespace repo version : pyval)
  (resp : Response) (v : pyval) :
  reaches_assets P argv input_url cdn_host namespace repo version ->
  http_get P (entry_assets_url cdn_host (base_folder P namespace)
                               (py_str P repo) (py_str P version)) 10
  = Ok resp ->
  raise_for_status resp = Ok tt ->
  json resp = Ok v ->
  is_dict v = false ->
  run (main P argv)
  = ([EGet input_url 10;
      EGet (apps_url cdn_host (base_folder P namespace)) 10;
      EGet (entry_assets_url cdn_host (base_folder P namespace)
                             (py_str P repo) (py_str P version)) 10],
     Traceback (mk_exn "AttributeError" "object has no attribute 'get'")).
Proof.
  intros (app_id & r2 & apps & app
          & (config & (argv0 & url0 & rest & p1 & p2 & r1 & -> & H1 & -> & H2
                       & -> & H3 & H4) & H5)
          & G1 & G2 & G3 & G4 & G5 & G6 & G7) K1 K2 K3 Hv.
  unfold main. rewrite H1. simpl. rewrite H2. simpl.
  unfold requests_get. rewrite H3. simpl. rewrite H4. simpl.
  rewrite H5. simpl. unfold load_apps_config, requests_get.
  fold (apps_url (cdn_host_of
                    (determine_env_type
                       match snd p2 with Some h => h | None => [] end))
                 (base_folder P namespace)).
  rewrite G1. simpl. rewrite G2. simpl. rewrite G3. simpl.
  rewrite G4. simpl. rewrite G5. simpl. rewrite G6. simpl. rewrite G7. simpl.
  unfold fetch_entry_assets, requests_get.
  match goal with
  | |- context [http_get P ?url 10] =>
      change url with
        (entry_assets_url
           (cdn_host_of
              (determine_env_type
                 match snd p2 with Some h => h | None => [] end))
           (base_folder P namespace) (py_str P repo) (py_str P version))
  end.
  rewrite K1. simpl. rewrite K2. simpl. rewrite K3. simpl.
  destruct v; try reflexivity. discriminate.
Qed.

(** X19.  The value of [js] is iterated as it is: for a string that is
    not empty the process prints every character on a line of its own, for
    a dict that is not empty every key, each time when standard output
    takes every one of them, and ends with status 0; for a number other
    than zero it ends with a [TypeError] after its three requests and
    prints nothing. *)
Theorem X19_js_value_is_not_a_list (argv : list str)
  (input_url cdn_host : str) (namespace repo version : pyval)
  (resp : Response) (ea : list (str * pyval)) :
  reaches_assets P argv input_url cdn_host namespace repo version ->
  http_get P (entry_assets_url cdn_host (base_folder P namespace)
                               (py_str P repo) (py_str P version)) 10
  = Ok resp ->
  raise_for_status resp = Ok tt ->
  json resp = Ok (VDict ea) ->
  let gets :=
    [EGet input_url 10;
     EGet (apps_url cdn_host (base_folder P namespace)) 10;
     EGet (entry_assets_url cdn_host (base_folder P namespace)
                            (py_str P repo) (py_str P version)) 10] in
  (forall s,
      dict_get ea (u "js") = Some (VStr s) -> s <> [] ->
      Forall (fun c => stdout_write P [c] = Ok tt) s ->
      run (main P argv) = (gets ++ map (fun c => EOut [c]) s, Exited 0))
  /\ (forall d,
         dict_get ea (u "js") = Some (VDict d) -> d <> [] ->
         Forall (fun kv => stdout_write P (fst kv) = Ok tt) d ->
         run (main P argv)
         = (gets ++ map (fun kv => EOut (fst kv)) d, Exited 0))
  /\ (forall z,
         dict_get ea (u "js") = Some (VInt z) -> z <> 0%Z ->
         run (main P argv)
         = (gets, Traceback (mk_exn "TypeError" "object is not iterable"))).
Proof.
  intros Hreach K1 K2 K3 gets.
  pose proof (main_with_assets P argv input_url cdn_host namespace repo version
                resp ea Hreach K1 K2 K3) as Hmain.
  cbv zeta in Hmain. fold gets in Hmain. rewrite Hmain.
  split; [|split].
  - intros s Hjs Hne Hout. rewrite Hjs. destruct s as [|c s]; [contradiction|].
    unfold bind, lift. cbn [py_truthy negb py_iter].
    rewrite print_all_events, map_map; [reflexivity|].
    apply Forall_map. exact Hout.
  - intros d Hjs Hne Hout. rewrite Hjs. destruct d as [|kv d]; [contradiction|].
    unfold bind, lift. cbn [py_truthy negb py_iter].
    rewrite print_all_events, map_map; [reflexivity|].
    apply Forall_map. exact Hout.
  - intros z Hjs Hne. rewrite Hjs.
    unfold bind, lift. cbn [py_truthy negb py_iter].
    apply Z.eqb_neq in Hne. rewrite Hne. reflexivity.
Qed.

(** X20.  The shape of every run with a URL argument.  The requests are
    the first one, two or three of: the page at the URL of the argument, as
    given or with [https://] in front; the apps manifest; the entry assets;
    the two last ones on one of the two delivery hosts and under the folder
    [apps] or [internal-apps]; each with timeout 10.  After them comes
    nothing (an exception nobody caught), or one line on standard error
    with status 1, or, after the three requests only, lines on standard
    output, with status 0 or, when standard output refuses the next line,
    with the exception that it raises: no request after a line, never two
    lines on standard error, no line on standard error beside a line on
    standard output. *)
Theorem X20_main_events_shape (argv0 url0 : str) (rest : list str) :
  exists (input_url cdn folder repo version : str) (k : nat)
         (tail : list event),
    fst (run (main P (argv0 :: url0 :: rest)))
    = firstn k [EGet input_url 10; EGet (apps_url cdn folder) 10;
                EGet (entry_assets_url cdn folder repo version) 10]
      ++ tail
    /\ (input_url = url0 \/ input_url = u "https://" ++ url0)
    /\ (cdn = u "https://cloverstatic.com"
        \/ cdn = u "https://dev.cloverstatic.com")
    /\ (folder = u "apps" \/ folder = u "internal-apps")
    /\ (tail = []
        \/ (exists line,
               tail = [EErr line] /\ (1 <= k)%nat
               /\ snd (run (main P (argv0 :: url0 :: rest))) = Exited 1)
        \/ (exists lines,
               tail = map EOut lines /\ k = 3%nat
               /\ (snd (run (main P (argv0 :: url0 :: rest))) = Exited 0
                   \/ exists line e,
                        stdout_write P line = Raise e
                        /\ snd (run (main P (argv0 :: url0 :: rest)))
                           = uncaught e))).
Proof.
  unfold main.
  destruct (urlparse P url0) as [p1|e] eqn:E1.
  2:{ exists url0, (u "https://cloverstatic.com"), (u "apps"), [], [], 0%nat, [].
      destruct e; simpl; auto 10. }
  cbn [lift bind app fst snd].
  destruct (urlparse P (with_scheme (fst p1) url0)) as [p2|e] eqn:E2.
  2:{ exists url0, (u "https://cloverstatic.com"), (u "apps"), [], [], 0%nat, [].
      destruct e; simpl; auto 10. }
  cbn [lift bind app fst snd].
  set (input_url := with_scheme (fst p1) url0).
  set (cdn := cdn_host_of
                (determine_env_type
                   match snd p2 with Some h => h | None => [] end)).
  exists input_url, cdn.
  pose proof (with_scheme_cases (fst p1) url0 : _ \/ _) as Hu.
  pose proof (cdn_host_of_cases
                (determine_env_type
                   match snd p2 with Some h => h | None => [] end)) as Hc.
  fold cdn in Hc. fold input_url in Hu.
  unfold requests_get.
  destruct (http_get P input_url 10) as [resp|[code|cls msg]] eqn:E3.
  2:{ exists (u "apps"), [], [], 1%nat, []. simpl. auto 10. }
  2:{ exists (u "apps"), [], [], 1%nat, [EErr (u "Error fetching " ++ input_url
                                                   ++ u ": " ++ msg)].
      simpl. repeat split; auto. right. left. eauto. }
  cbn [bind ret try_prog app fst snd].
  destruct (parse_total (text resp)) as [config ->].
  cbn [lift bind app fst snd].
  destruct (config_ids P config) as [[namespace app_id]|e] eqn:E4.
  2:{ exists (u "apps"), [], [], 1%nat, []. destruct e; simpl;
      auto 10. }
  cbn [lift bind app fst snd].
  exists (base_folder P namespace).
  pose proof (base_folder_cases namespace) as Hfold.
  unfold load_apps_config, requests_get.
  fold (apps_url cdn (base_folder P namespace)).
  set (url2 := apps_url cdn (base_folder P namespace)).
  destruct (http_get P url2 10) as [resp2|[code|cls msg]] eqn:E5.
  2:{ exists [], [], 2%nat, []. simpl. auto 10. }
  2:{ exists [], [], 2%nat,
        [EErr (u "Unable to load apps configuration: " ++ msg)].
      simpl. repeat split; auto. right. left. eexists. repeat split. lia. }
  cbn [bind lift app fst snd].
  destruct (raise_for_status resp2) as [[]|[code|cls msg]] eqn:E6.
  2:{ exists [], [], 2%nat, []. simpl. auto 10. }
  2:{ exists [], [], 2%nat,
        [EErr (u "Unable to load apps configuration: " ++ msg)].
      simpl. repeat split; auto. right. left. eexists. repeat split. lia. }
  cbn [bind lift app fst snd].
  destruct (json resp2) as [apps|[code|cls msg]] eqn:E7.
  2:{ exists [], [], 2%nat, []. simpl. auto 10. }
  2:{ exists [], [], 2%nat,
        [EErr (u "Unable to load apps configuration: " ++ msg)].
      simpl. repeat split; auto. right. left. eexists. repeat split. lia. }
  cbn [bind lift try_prog app fst snd].
  destruct (find_app P apps app_id) as [descr|e] eqn:E8.
  2:{ exists [], [], 2%nat, []. destruct e; simpl; auto 10. }
  cbn [bind lift try_prog app fst snd].
  destruct (negb (py_truthy P descr)) eqn:E9.
  { exists [], [], 2%nat,
      [EErr (u "Application ID '" ++ py_str P app_id
             ++ u "' not found in apps configuration.")].
    simpl. repeat split; auto. right. left. eexists. repeat split. lia. }
  destruct (py_getitem descr "repo") as [repo|e] eqn:E10.
  2:{ exists [], [], 2%nat, []. destruct e; simpl; auto 10. }
  cbn [bind lift try_prog app fst snd].
  destruct (py_getitem descr "version") as [version|e] eqn:E11.
  2:{ exists [], [], 2%nat, []. destruct e; simpl; auto 10. }
  cbn [bind lift try_prog app fst snd].
  exists (py_str P repo), (py_str P version), 3%nat.
  unfold fetch_entry_assets, requests_get.
  match goal with
  | |- context [http_get P ?x 10] =>
      change x with (entry_assets_url cdn (base_folder P namespace)
                                      (py_str P repo) (py_str P version))
  end.
  set (url3 := entry_assets_url cdn (base_folder P namespace)
                                (py_str P repo) (py_str P version)).
  destruct (http_get P url3 10) as [resp3|[code|cls msg]] eqn:E12.
  2:{ exists []. simpl. auto 10. }
  2:{ exists [EErr (u "Unable to fetch entry assets: " ++ msg)].
      simpl. repeat split; auto. right. left. eexists. repeat split. lia. }
  cbn [bind lift app fst snd].
  destruct (raise_for_status resp3) as [[]|[code|cls msg]] eqn:E13.
  2:{ exists []. simpl. auto 10. }
  2:{ exists [EErr (u "Unable to fetch entry assets: " ++ msg)].
      simpl. repeat split; auto. right. left. eexists. repeat split. lia. }
  cbn [bind lift app fst snd].
  destruct (json resp3) as [entry_assets|[code|cls msg]] eqn:E14.
  2:{ exists []. simpl. auto 10. }
  2:{ exists [EErr (u "Unable to fetch entry assets: " ++ msg)].
      simpl. repeat split; auto. right. left. eexists. repeat split. lia. }
  cbn [bind lift try_prog app fst snd].
  destruct (py_get entry_assets "js" (VList [])) as [js_files|e] eqn:E15.
  2:{ exists []. destruct e; simpl; auto 10. }
  cbn [bind lift try_prog app fst snd].
  destruct (negb (py_truthy P js_files)) eqn:E16.
  { destruct (stdout_write P (u "No JS bundles found.")) as [[]|e] eqn:E17.
    - rewrite (print_ok P _ E17).
      exists [EOut (u "No JS bundles found.")]. simpl. repeat split; auto.
      right. right. exists [u "No JS bundles found."]. auto.
    - rewrite (print_raise P _ _ E17). exists [].
      destruct e; simpl; auto 10. }
  destruct (py_iter js_files) as [paths|e] eqn:E17.
  2:{ exists []. destruct e; simpl; auto 10. }
  cbn [bind lift try_prog app fst snd].
  destruct (print_all_cases P paths)
    as [Hall|(before & path & after & e & -> & Hb & Hp)].
  - rewrite print_all_events by assumption.
    exists (map (fun p => EOut (py_str P p)) paths). simpl.
    repeat split; auto. right. right. exists (map (py_str P) paths).
    rewrite map_map. auto.
  - rewrite (print_all_stops P _ _ _ _ Hb Hp).
    exists (map (fun p => EOut (py_str P p)) before).
    rewrite run_raise. cbn [fst snd app].
    repeat split; auto. right. right. exists (map (py_str P) before).
    rewrite map_map. repeat split; auto. right. eauto.
Qed.


End MoreMainProperties.

(** ** The further properties on the example runs *)

Lemma X11_config_not_an_object_witness :
  reaches_apps empty_config_platform example_argv example_page_url
               (u "https://cloverstatic.com") (VStr (u "standard"))
               (VStr (u "web-portal"))
  /\ run (main array_platform example_argv)
     = ([EGet example_page_url 10],
        Traceback (mk_exn "AttributeError" "object has no attribute 'get'")).
Proof.
  split.
  - apply (proj1 (X11_config_not_an_object empty_config_platform example_argv
                    example_page_url (u "https://cloverstatic.com")
                    (VDict []) ltac:(
                      exists (u "yallah.py"), (u "sandbox.example.com"), [],
                        ([], None),
                        (u "https", Some (u "sandbox.example.com")),
                        (response 200 (u "OK") example_page_url
                                  empty_config_page);
                      repeat split; vm_compute; reflexivity))).
    reflexivity.
  - apply (proj2 (X11_config_not_an_object array_platform example_argv
                    example_page_url (u "https://cloverstatic.com")
                    (VList [VInt 1]) ltac:(
                      exists (u "yallah.py"), (u "sandbox.example.com"), [],
                        ([], None),
                        (u "https", Some (u "sandbox.example.com")),
                        (response 200 (u "OK") example_page_url array_page);
                      repeat split; vm_compute; reflexivity))).
    + reflexivity.
    + reflexivity.
Defined.

Lemma X12_page_fetch_failures_witness :
  run (main bad_url_platform example_argv)
  = ([], Traceback (mk_exn "ValueError" "Invalid IPv6 URL"))
  /\ run (main offline_platform example_argv)
     = ([EGet example_page_url 10;
         EErr (u "Error fetching " ++ example_page_url ++ u ": "
               ++ u "Failed to establish a new connection")],
        Exited 1).
Proof.
  split.
  - exact (proj1 (X12_page_fetch_failures bad_url_platform (u "yallah.py")
                    (u "sandbox.example.com") [])
                 (u "ValueError") (u "Invalid IPv6 URL") eq_refl).
  - exact (proj2 (X12_page_fetch_failures offline_platform (u "yallah.py")
                    (u "sandbox.example.com") [])
                 ([], None) (u "https", Some (u "sandbox.example.com"))
                 (u "requests.exceptions.ConnectionError")
                 (u "Failed to establish a new connection")
                 eq_refl eq_refl eq_refl).
Defined.

Lemma internal_reaches_config :
  reaches_config internal_platform example_argv example_page_url
                 (u "https://cloverstatic.com") (VDict internal_mapping).
Proof.
  exists (u "yallah.py"), (u "sandbox.example.com"), [],
    ([], None), (u "https", Some (u "sandbox.example.com")),
    (response 200 (u "OK") example_page_url internal_page).
  repeat split; vm_compute; reflexivity.
Qed.

Lemma X13_config_selects_manifest_witness :
  reaches_apps internal_platform example_argv example_page_url
               (u "https://cloverstatic.com") (VStr (u "internal"))
               (VStr (u "billing"))
  /\ exists tail,
       fst (run (main internal_platform example_argv))
       = EGet example_page_url 10
         :: EGet (u "https://cloverstatic.com/web/internal-apps/_config/apps.json")
                 10
         :: tail.
Proof.
  exact (X13_config_selects_manifest internal_platform example_argv
           example_page_url (u "https://cloverstatic.com") internal_mapping
           internal_reaches_config).
Defined.

Lemma X14_apps_manifest_not_json_witness :
  run (main apps_html_platform example_argv)
  = ([EGet example_page_url 10; EGet example_apps_url 10;
      EErr (u "Unable to load apps configuration: " ++ u "Expecting value")],
     Exited 1).
Proof.
  apply (X14_apps_manifest_not_json apps_html_platform example_argv
           example_page_url (u "https://cloverstatic.com")
           (VStr (u "standard")) (VStr (u "web-portal"))
           (response 200 (u "OK") example_apps_url (u "<html></html>"))
           (u "json.JSONDecodeError")).
  - apply scenario_reaches_apps. vm_compute. reflexivity.
  - reflexivity.
  - reflexivity.
  - vm_compute. reflexivity.
Defined.

Lemma X15_application_not_found_witness :
  run (main no_apps_platform example_argv)
  = ([EGet example_page_url 10; EGet example_apps_url 10;
      EErr (u "Application ID 'web-portal' not found in apps configuration.")],
     Exited 1).
Proof.
  apply (X15_application_not_found no_apps_platform example_argv
           example_page_url (u "https://cloverstatic.com")
           (VStr (u "standard")) (VStr (u "web-portal"))
           (response 200 (u "OK") example_apps_url (u "[]"))
           (VList []) VNone).
  - apply scenario_reaches_apps. vm_compute. reflexivity.
  - reflexivity.
  - reflexivity.
  - vm_compute. reflexivity.
  - reflexivity.
  - reflexivity.
Defined.

Lemma X16_descriptor_without_repo_or_version_witness :
  run (main no_repo_platform example_argv)
  = ([EGet example_page_url 10; EGet example_apps_url 10],
     Traceback (Exception (u "KeyError") (sq :: u "repo" ++ [sq])))
  /\ run (main no_version_platform example_argv)
     = ([EGet example_page_url 10; EGet example_apps_url 10],
        Traceback (Exception (u "KeyError") (sq :: u "version" ++ [sq]))).
Proof.
  split.
  - refine (proj1 (X16_descriptor_without_repo_or_version no_repo_platform
                     example_argv example_page_url
                     (u "https://cloverstatic.com") (VStr (u "standard"))
                     (VStr (u "web-portal"))
                     (response 200 (u "OK") example_apps_url no_repo_text)
                     (VList [VDict [(u "id", VStr (u "web-portal"))]])
                     [(u "id", VStr (u "web-portal"))] _ _ _ _ _ _) _).
    + apply scenario_reaches_apps. vm_compute. reflexivity.
    + reflexivity.
    + reflexivity.
    + vm_compute. reflexivity.
    + reflexivity.
    + discriminate.
    + reflexivity.
  - refine (proj2 (X16_descriptor_without_repo_or_version no_version_platform
                     example_argv example_page_url
                     (u "https://cloverstatic.com") (VStr (u "standard"))
                     (VStr (u "web-portal"))
                     (response 200 (u "OK") example_apps_url no_version_text)
                     (VList [VDict [(u "id", VStr (u "web-portal"));
                                    (u "repo", VStr (u "portal"))]])
                     [(u "id", VStr (u "web-portal"));
                      (u "repo", VStr (u "portal"))] _ _ _ _ _ _)
                  (VStr (u "portal")) _ _).
    + apply scenario_reaches_apps. vm_compute. reflexivity.
    + reflexivity.
    + reflexivity.
    + vm_compute. reflexivity.
    + reflexivity.
    + discriminate.
    + reflexivity.
    + reflexivity.
Defined.

Lemma X17_entry_assets_failure_witness :
  exists msg,
    run (main assets_404_platform example_argv)
    = ([EGet example_page_url 10; EGet example_apps_url 10;
        EGet example_assets_url 10;
        EErr (u "Unable to fetch entry assets: " ++ msg)],
       Exited 1).
Proof.
  apply (X17_entry_assets_failure assets_404_platform example_argv
           example_page_url (u "https://cloverstatic.com")
           (VStr (u "standard")) (VStr (u "portal")) (VStr (u "3.2.1"))).
  - apply scenario_reaches_assets.
  - right. left.
    exists (response 404 (u "Not Found") example_assets_url (u "Not Found")).
    split; [reflexivity|]. simpl. lia.
Defined.

Lemma X18_entry_assets_not_an_object_witness :
  run (main assets_list_platform example_argv)
  = (scenario_gets,
     Traceback (mk_exn "AttributeError" "object has no attribute 'get'")).
Proof.
  apply (X18_entry_assets_not_an_object assets_list_platform example_argv
           example_page_url (u "https://cloverstatic.com")
           (VStr (u "standard")) (VStr (u "portal")) (VStr (u "3.2.1"))
           (response 200 (u "OK") example_assets_url (u "[]")) (VList [])).
  - apply scenario_reaches_assets.
  - reflexivity.
  - reflexivity.
  - vm_compute. reflexivity.
  - reflexivity.
Defined.

Lemma X19_js_value_is_not_a_list_witness :
  run (main js_string_platform example_argv)
  = (scenario_gets
     ++ [EOut (u "a"); EOut (u "p"); EOut (u "p"); EOut (u "."); EOut (u "j");
         EOut (u "s")],
     Exited 0).
Proof.
  refine (proj1 (X19_js_value_is_not_a_list js_string_platform example_argv
                   example_page_url (u "https://cloverstatic.com")
                   (VStr (u "standard")) (VStr (u "portal"))
                   (VStr (u "3.2.1"))
                   (response 200 (u "OK") example_assets_url js_string_text)
                   [(u "js", VStr (u "app.js"))] _ _ _ _)
                (u "app.js") _ _ _).
  - apply scenario_reaches_assets.
  - reflexivity.
  - reflexivity.
  - vm_compute. reflexivity.
  - reflexivity.
  - discriminate.
  - repeat constructor.
Defined.
